(** * prisma-dm: data-migration orchestration on top of Prisma

    A shallow embedding of the TypeScript sources
      - utils/readDataSourceConfig.ts   ([readArgumentWithEnv]),
      - utils/tempMigrationSchema.ts    ([isClientGenerator], [updateGenerator],
                                         [createTempSchema]),
      - services/CLI.ts                 ([CLI.generate], [CLI.migrate]),
    and the properties of the design document that talk about them.

    Conventions.
    - A thrown [new Error(msg)] is [Err (JsError msg)]; a function that can
      throw returns a [Result].
    - [process.env] is the finite map of the variables that are set, on top
      of the properties every object inherits from [Object.prototype]; the
      file system is a finite map from paths to file contents.
    - The collaborators of the orchestrator (database, migration engine,
      post-script runner) are handlers over an abstract world; every call to
      one of them is appended to a trace together with its outcome. *)

From Stdlib Require Import ZArith List Bool Lia.
From stdpp Require Import base option list strings gmap.
Import ListNotations.

Local Open Scope Z_scope.

(* ===================================================================== *)
(** * Results and errors                                                  *)
(* ===================================================================== *)

(** Every [throw] of the sources is [throw new Error(message)]. *)
Inductive Error : Type :=
| JsError (message : string).

Inductive Result (A : Type) : Type :=
| Ok (value : A)
| Err (error : Error).
Arguments Ok {A} value.
Arguments Err {A} error.

Definition is_ok {A} (r : Result A) : bool :=
  match r with Ok _ => true | Err _ => false end.

(* ===================================================================== *)
(** * The schema AST of the parser library                                *)
(* ===================================================================== *)

(** The declarations of [@loancrate/prisma-schema-parser] that the sources
    inspect, with the fields they read.  A scalar literal holds a string, a
    number or a boolean ([typeof arg.value]). *)
Inductive ScalarValue : Type :=
| VString (s : string)
| VNumber (n : Z)
| VBoolean (b : bool).

#[warnings="-register-all"]
Inductive SchemaArgument : Type :=
| Literal (value : ScalarValue)                       (* kind: "literal" *)
| PathExpression (segments : list string)             (* kind: "path" *)
| FunctionCall (path : list string)
               (args : option (list SchemaArgument))  (* kind: "functionCall" *)
| ArrayExpression (items : list SchemaArgument)       (* kind: "array" *)
| NamedArgument (name : string)
                (expression : SchemaArgument).        (* kind: "namedArgument" *)

(** [Config]: [{ kind: "config", name: { value }, value, comment? }]. *)
Record Config : Type := mkConfig {
  config_name : string;
  config_value : SchemaArgument;
  config_comment : option string
}.

(** A member of a [datasource] or [generator] block: a [Config] or a
    [CommentBlock]. *)
Inductive BlockMember : Type :=
| MConfig (c : Config)
| MCommentBlock (comments : list string).

Inductive ConfigBlockKind : Type := KDatasource | KGenerator.

(** A top-level declaration.  Only config blocks ([datasource], [generator])
    are looked into; the others (model, enum, type, comment block, ...) keep
    their kind and text. *)
Inductive SchemaDeclaration : Type :=
| ConfigBlock (kind : ConfigBlockKind) (name : string)
              (members : list BlockMember)
| OtherDeclaration (kind : string) (text : string).

Record PrismaSchema : Type := mkSchema {
  declarations : list SchemaDeclaration
}.

(* ===================================================================== *)
(** * Values typed as strings                                             *)
(* ===================================================================== *)

(** What an expression of type [string] holds at run time in these sources:
    a string or, out of [process.env[name]] for a name that is not a
    variable of the environment, the property of that name which
    [process.env] inherits from [Object.prototype] (a function such as
    [toString], or the prototype object for [__proto__]). *)
Inductive Text : Type :=
| Str (s : string)
| Inherited (name : string).

(* ===================================================================== *)
(** * utils/readDataSourceConfig.ts                                       *)
(* ===================================================================== *)

Module DataSource.

(** The property names of [Object.prototype]. *)
Definition objectPrototypeKeys : list string :=
  [ "constructor"; "__defineGetter__"; "__defineSetter__"; "hasOwnProperty";
    "__lookupGetter__"; "__lookupSetter__"; "isPrototypeOf";
    "propertyIsEnumerable"; "toString"; "valueOf"; "__proto__";
    "toLocaleString" ].

Definition isInherited (name : string) : bool :=
  existsb (String.eqb name) objectPrototypeKeys.

Section ReadArgument.

(** [readStringArgument] is the parser library's accessor; the resolver
    only relies on its result. *)
Variable readStringArgument : SchemaArgument -> Result string.

(** The variables of the environment: the own properties of
    [process.env]. *)
Variable env : gmap string string.

(** [process.env[envName]]: the value of a variable that is set; for a name
    that is not set, the property inherited from [Object.prototype] when
    there is one, and [undefined] otherwise. *)
Definition processEnv (envName : string) : option Text :=
  match env !! envName with
  | Some v => Some (Str v)
  | None => if isInherited envName then Some (Inherited envName) else None
  end.

Definition envNotSetMessage (envName : string) : string :=
  "Environment variable " +:+ envName +:+ " is not set.".

Definition expectedStringLiteralMessage : string :=
  "Expected a string literal for provider or url.".

Definition envArityMessage : string :=
  "env() function must have exactly one argument.".

Definition onlyLiteralsAndEnvMessage : string :=
  "Only string literals and env() function calls are supported for provider and url.".

(** [function readArgumentWithEnv(arg: SchemaArgument): string] *)
Definition readArgumentWithEnv (arg : SchemaArgument) : Result Text :=
  match arg with
  | Literal value =>
      match value with
      | VString s => Ok (Str s)
      | _ => Err (JsError expectedStringLiteralMessage)
      end
  | FunctionCall path args =>
      if String.eqb (String.concat "." path) "env" then
        match args with
        | Some [a] =>
            match readStringArgument a with
            | Err e => Err e
            | Ok envName =>
                let envValue := processEnv envName in
                (* if (!envValue) throw ...: undefined and "" are falsy,
                   functions and objects are truthy *)
                match envValue with
                | Some (Str v) =>
                    if String.eqb v "" then
                      Err (JsError (envNotSetMessage envName))
                    else Ok (Str v)
                | Some (Inherited property) => Ok (Inherited property)
                | None => Err (JsError (envNotSetMessage envName))
                end
            end
        | _ => Err (JsError envArityMessage)
        end
      else Err (JsError onlyLiteralsAndEnvMessage)
  | _ => Err (JsError onlyLiteralsAndEnvMessage)
  end.

(** The three errors that reject the form of the expression. *)
Definition unsupportedExpressionError (e : Error) : Prop :=
  e = JsError expectedStringLiteralMessage \/
  e = JsError envArityMessage \/
  e = JsError onlyLiteralsAndEnvMessage.

(** An [env(...)] call: a function call whose dotted path is [env]. *)
Definition isEnvCall (arg : SchemaArgument) : bool :=
  match arg with
  | FunctionCall path _ => String.eqb (String.concat "." path) "env"
  | _ => false
  end.

(** An [env(...)] call with exactly one argument. *)
Definition isSingleArgumentEnvCall (arg : SchemaArgument) : bool :=
  match arg with
  | FunctionCall path (Some [_]) => String.eqb (String.concat "." path) "env"
  | _ => false
  end.

Definition isStringLiteral (arg : SchemaArgument) : bool :=
  match arg with
  | Literal (VString _) => true
  | _ => false
  end.

End ReadArgument.
End DataSource.

(* ===================================================================== *)
(** * Effects: state, exceptions and a trace of calls                     *)
(* ===================================================================== *)

(** A computation over a state [St] that may throw and that records the
    calls it makes as events [Ev].  The state reached and the events
    recorded before a [throw] are kept. *)
Definition M (St Ev A : Type) : Type := St -> Result A * St * list Ev.

Definition ret {St Ev A} (a : A) : M St Ev A :=
  fun s => (Ok a, s, []).

Definition throw {St Ev A} (e : Error) : M St Ev A :=
  fun s => (Err e, s, []).

Definition bind {St Ev A B} (m : M St Ev A) (k : A -> M St Ev B) : M St Ev B :=
  fun s =>
    match m s with
    | (Ok a, s1, t1) =>
        match k a s1 with
        | (r, s2, t2) => (r, s2, t1 ++ t2)
        end
    | (Err e, s1, t1) => (Err e, s1, t1)
    end.

Notation "'let*' x ':=' m 'in' k" := (bind m (fun x => k))
  (at level 10, x name, m at level 100, k at level 200).

(** A pure step that may throw. *)
Definition lift {St Ev A} (r : Result A) : M St Ev A :=
  fun s => (r, s, []).

(** A call to a collaborator [h], recorded with its outcome. *)
Definition call {St Ev A} (h : St -> Result A * St) (ev : Result A -> Ev)
  : M St Ev A :=
  fun s => match h s with (r, s') => (r, s', [ev r]) end.

(** An event without outcome (logging). *)
Definition emit {St Ev} (ev : Ev) : M St Ev unit :=
  fun s => (Ok tt, s, [ev]).

(** [try { body } finally { fin }]: [fin] runs whether [body] returned or
    threw; an error thrown by [fin] replaces the outcome of [body]. *)
Definition tryFinally {St Ev A} (body : M St Ev A) (fin : M St Ev unit)
  : M St Ev A :=
  fun s =>
    match body s with
    | (r, s1, t1) =>
        match fin s1 with
        | (Ok _, s2, t2) => (r, s2, t1 ++ t2)
        | (Err e, s2, t2) => (Err e, s2, t1 ++ t2)
        end
    end.

(** [for (const x of xs) { await body(x) }] *)
Fixpoint forEach {St Ev A} (body : A -> M St Ev unit) (xs : list A)
  : M St Ev unit :=
  match xs with
  | [] => ret tt
  | x :: xs' => let* _ := body x in forEach body xs'
  end.

(* ===================================================================== *)
(** * utils/tempMigrationSchema.ts                                        *)
(* ===================================================================== *)

Module TempSchema.

(** The callback of [decl.members.some(...)] in [isClientGenerator]. *)
Definition isClientProvider (member : BlockMember) : bool :=
  match member with
  | MConfig c =>
      String.eqb (config_name c) "provider" &&
      match config_value c with
      | Literal (VString v) =>
          String.eqb v "prisma-client-js" || String.eqb v "prisma-client"
      | _ => false
      end
  | MCommentBlock _ => false
  end.

(** [function isClientGenerator(decl: SchemaDeclaration): boolean] *)
Definition isClientGenerator (decl : SchemaDeclaration) : bool :=
  match decl with
  | ConfigBlock KGenerator _ members => existsb isClientProvider members
  | _ => false
  end.

(** The callback of [generator.members.find(...)]. *)
Definition isOutputAttribute (attr : BlockMember) : bool :=
  match attr with
  | MConfig c => String.eqb (config_name c) "output"
  | MCommentBlock _ => false
  end.

(** Mutation of the first element that satisfies [p]: the object returned by
    [filter(...)[0]] or [find(...)] is the one held by the array. *)
Fixpoint updateFirst {A} (p : A -> bool) (f : A -> A) (l : list A) : list A :=
  match l with
  | [] => []
  | x :: l' => if p x then f x :: l' else x :: updateFirst p f l'
  end.

(** [generatorOutputAttribute.value = { kind: "literal", value: path }] *)
Definition setOutputValue (clientOutputPath : string) (attr : BlockMember)
  : BlockMember :=
  match attr with
  | MConfig c =>
      MConfig {| config_name := config_name c;
                 config_value := Literal (VString clientOutputPath);
                 config_comment := config_comment c |}
  | MCommentBlock cs => MCommentBlock cs
  end.

Definition newOutputAttribute (clientOutputPath : string) : Config :=
  {| config_name := "output";
     config_value := Literal (VString clientOutputPath);
     config_comment := None |}.

(** The members of the generator block after lines 43-57. *)
Definition setOutput (clientOutputPath : string) (members : list BlockMember)
  : list BlockMember :=
  match find isOutputAttribute members with
  | None => members ++ [MConfig (newOutputAttribute clientOutputPath)]
  | Some _ =>
      updateFirst isOutputAttribute (setOutputValue clientOutputPath) members
  end.

Definition generatorCountMessage : string :=
  "The schema must contain exactly one generator block for prisma-client-js or prisma-client.".

Definition noMembersMessage : string :=
  "The generator block must have a members array.".

(** [function updateGenerator(ast, clientOutputPath): PrismaSchema].  The
    result is the deep copy [astCopy]; the argument is left as it is. *)
Definition updateGenerator (ast : PrismaSchema) (clientOutputPath : string)
  : Result PrismaSchema :=
  let clientGenerators := List.filter isClientGenerator (declarations ast) in
  match clientGenerators with
  | [generator] =>                      (* clientGenerators.length === 1 *)
      match generator with
      | ConfigBlock kind name members =>
          Ok {| declarations :=
                  updateFirst isClientGenerator
                    (fun _ => ConfigBlock kind name
                                (setOutput clientOutputPath members))
                    (declarations ast) |}
      | OtherDeclaration _ _ => Err (JsError noMembersMessage)
      end
  | _ => Err (JsError generatorCountMessage)
  end.

(** The value of the first [output] field of a block. *)
Definition outputField (members : list BlockMember) : option SchemaArgument :=
  match find isOutputAttribute members with
  | Some (MConfig c) => Some (config_value c)
  | _ => None
  end.

End TempSchema.

(* ===================================================================== *)
(** * services/CLI.ts: generate                                           *)
(* ===================================================================== *)

(** The fields of [ConfigSchema] that the sources read. *)
Record ConfigSchema : Type := mkConfigSchema {
  migrationsDir : string;
  outputDir : string;
  migrationSchemaFileName : string;
  mainPrismaSchema : string
}.

(** Node's [path] module and [process.cwd()]. *)
Record PathModule : Type := mkPathModule {
  path_join : string -> string -> string;
  path_resolve : string -> string -> string;
  path_dirname : string -> string;
  path_isAbsolute : string -> bool;
  process_cwd : string
}.

Module Generate.

(** The file system: the content of every existing file, by path. *)
Abbreviation Files := (gmap string string).

Inductive Event : Type :=
| EPrismaGenerate (schema : string) (outcome : Result unit)
| ERmSync (path : string) (outcome : Result unit)
| ELogInfo (message : string).

Section CodeGeneration.

Variable config : ConfigSchema.
Variable path : PathModule.

(** The parser library. *)
Variable parsePrismaSchema : string -> Result PrismaSchema.
Variable formatAst : PrismaSchema -> string.

(** [PrismaCLI.generate({ schema })]: the external generator.  It reads
    and writes files as it likes and may throw. *)
Variable PrismaCLI_generate : string -> Files -> Result unit * Files.

Definition enoentMessage (p : string) : string :=
  "ENOENT: no such file or directory, " +:+ p.

(** [fs.readFile(p, "utf-8")] *)
Definition fs_readFile (p : string) : M Files Event string :=
  fun files =>
    match files !! p with
    | Some content => (Ok content, files, [])
    | None => (Err (JsError (enoentMessage p)), files, [])
    end.

(** [fs.mkdir(dir, { recursive: true })]: directories are not part of
    [Files]. *)
Definition fs_mkdir (dir : string) : M Files Event unit := ret tt.

(** [fs.writeFile(p, content, "utf-8")] *)
Definition fs_writeFile (p content : string) : M Files Event unit :=
  fun files => (Ok tt, <[p := content]> files, []).

(** [fs.rmSync(p)]: throws when there is nothing at [p]. *)
Definition fs_rmSync (p : string) : M Files Event unit :=
  call (fun files : Files =>
          match files !! p with
          | Some _ => (Ok tt, delete p files)
          | None => (Err (JsError (enoentMessage p)), files)
          end)
       (ERmSync p).

(** [export async function createTempSchema(src, clientOutputPath, out)] *)
Definition createTempSchema
    (srcPrismaSchemaPath clientOutputPath outPrismaSchemaPath : string)
  : M Files Event unit :=
  let* schemaContent := fs_readFile srcPrismaSchemaPath in
  let* schemaAst := lift (parsePrismaSchema schemaContent) in
  let* schemaAst := lift (TempSchema.updateGenerator schemaAst clientOutputPath) in
  let formattedSchema := formatAst schemaAst in
  let* _ := fs_mkdir (path_dirname path outPrismaSchemaPath) in
  fs_writeFile outPrismaSchemaPath formattedSchema.

Definition migrationsDirPath : string :=
  path_join path (process_cwd path) (migrationsDir config).

(** [.tmp-migration-schema-${random}_${migrationName}.prisma], where
    [random] is [Math.random().toString(36).slice(2, 4)]. *)
Definition tempSchemaPath (random migrationName : string) : string :=
  path_join path migrationsDirPath
    (".tmp-migration-schema-" +:+ random +:+ "_" +:+ migrationName +:+ ".prisma").

(** Lines 60-64: [try { PrismaCLI.generate(...) } finally { fs.rmSync(...) }] *)
Definition generateAndRemove (tempSchema : string) : M Files Event unit :=
  tryFinally
    (call (PrismaCLI_generate tempSchema) (EPrismaGenerate tempSchema))
    (fs_rmSync tempSchema).

(** The callback of [migrationsWithSchemas.map(...)] in [CLI.generate]:
    the code generation of one migration. *)
Definition generateMigration (random migrationName : string)
  : M Files Event unit :=
  let migrationPath := path_join path migrationsDirPath migrationName in
  let schemaPath := path_join path migrationPath (migrationSchemaFileName config) in
  let outputPath := outputDir config +:+ "/" +:+ migrationName in
  let outputPath :=
    if path_isAbsolute path outputPath then outputPath
    else path_join path (path_dirname path schemaPath) outputPath in
  let* _ := createTempSchema schemaPath outputPath (tempSchemaPath random migrationName) in
  let* _ := generateAndRemove (tempSchemaPath random migrationName) in
  emit (ELogInfo ("Types generated for migration: " +:+ migrationName)).

End CodeGeneration.
End Generate.

(* ===================================================================== *)
(** * services/CLI.ts: migrate                                            *)
(* ===================================================================== *)

(** [DataSourceConfig], the result of [readDataSourceConfig]: what
    [readArgumentWithEnv] returned for the two fields. *)
Record DataSourceConfig : Type := mkDataSourceConfig {
  provider : Text;
  url : Text
}.

(** [MigrationModel]: a row of the engine's history table. *)
Record MigrationModel : Type := mkMigrationModel {
  migration_name : string;
  applied_steps_count : Z
}.

(** JS array operations of lines 123-130 and 156. *)
Module Js.

(** [Array.prototype.indexOf]: the first index of [x], or [-1]. *)
Fixpoint indexOf (l : list string) (x : string) : Z :=
  match l with
  | [] => -1
  | y :: l' =>
      if String.eqb y x then 0
      else let i := indexOf l' x in if i <? 0 then -1 else i + 1
  end.

(** [Array.prototype.slice(0, end)]: a negative [end] counts from the
    length; the result is clamped to the array. *)
Definition slice0 {A} (l : list A) (end_ : Z) : list A :=
  let len := Z.of_nat (length l) in
  let final := if end_ <? 0 then Z.max (len + end_) 0 else Z.min end_ len in
  take (Z.to_nat final) l.

(** [if (targetMigration)]: [undefined] and the empty string are falsy. *)
Definition truthy (s : option string) : option string :=
  match s with
  | Some t => if String.eqb t "" then None else Some t
  | None => None
  end.

End Js.

Module Migrate.

Inductive Event : Type :=
| EConnect (dataSource : DataSourceConfig) (outcome : Result unit)
| ETableExists (outcome : Result bool)
| EGetMigrationByName (name : string) (outcome : Result (option MigrationModel))
| EMigrateTo (name : string) (outcome : Result unit)
| ERunPostScript (migrationPath : string) (outcome : Result unit)
| EDisconnect (outcome : Result unit)
| ELogInfo (message : string).

(** The error of a call that threw. *)
Definition outcomeError {A} (r : Result A) : option Error :=
  match r with Ok _ => None | Err e => Some e end.

Definition eventError (ev : Event) : option Error :=
  match ev with
  | EConnect _ r => outcomeError r
  | ETableExists r => outcomeError r
  | EGetMigrationByName _ r => outcomeError r
  | EMigrateTo _ r => outcomeError r
  | ERunPostScript _ r => outcomeError r
  | EDisconnect r => outcomeError r
  | ELogInfo _ => None
  end.

Definition isDisconnect (ev : Event) : bool :=
  match ev with EDisconnect _ => true | _ => false end.

(** A call that returned, and a call other than [disconnect]. *)
Definition succeeded (ev : Event) : Prop := eventError ev = None.
Definition notDisconnect (ev : Event) : Prop := isDisconnect ev = false.

(** What the trace of a sequence of calls other than [disconnect] looks
    like: every call returned, or every call but the last returned and the
    error of the last is the error of the whole. *)
Definition wellTraced {A} (r : Result A) (tr : list Event) : Prop :=
  Forall notDisconnect tr /\
  match r with
  | Ok _ => Forall succeeded tr
  | Err e =>
      exists tr0 ev,
        tr = tr0 ++ [ev] /\ Forall succeeded tr0 /\ eventError ev = Some e
  end.

Definition tracked {W A} (m : M W Event A) : Prop :=
  forall w r w' tr, m w = (r, w', tr) -> wellTraced r tr.

(** A computation that neither changes the world nor calls anything. *)
Definition silent {W A} (m : M W Event A) : Prop :=
  forall w r w' tr, m w = (r, w', tr) -> w' = w /\ tr = [].

(** The targets of the engine calls of a trace, in order. *)
Fixpoint engineCalls (tr : list Event) : list string :=
  match tr with
  | [] => []
  | EMigrateTo name _ :: tr' => name :: engineCalls tr'
  | _ :: tr' => engineCalls tr'
  end.

(** The collaborators of [CLI]: [DB], [TargetedPrismaMigrator],
    [ScriptRunner], [Validator], [readDataSourceConfig] and the directory
    listing, over a world [W] (database, engine, file system).  The classes
    hold the configuration they were built with; [db.connect] is given the
    data source. *)
Record Collaborators (W : Type) : Type := mkCollaborators {
  db_connect : DataSourceConfig -> W -> Result unit * W;
  db_isPrismaMigrationsTableExists : W -> Result bool * W;
  db_getMigrationByName : string -> W -> Result (option MigrationModel) * W;
  db_disconnect : W -> Result unit * W;
  migrator_migrateTo : string -> W -> Result unit * W;
  scriptRunner_runPostScript : string -> W -> Result unit * W;
  validator_isMigration : string -> bool;
  validator_isMigrationWithPostScript : string -> bool;
  fs_readdirSync : string -> W -> Result (list string);
  readDataSourceConfig : string -> W -> Result DataSourceConfig
}.
Arguments db_connect {W}.
Arguments db_isPrismaMigrationsTableExists {W}.
Arguments db_getMigrationByName {W}.
Arguments db_disconnect {W}.
Arguments migrator_migrateTo {W}.
Arguments scriptRunner_runPostScript {W}.
Arguments validator_isMigration {W}.
Arguments validator_isMigrationWithPostScript {W}.
Arguments fs_readdirSync {W}.
Arguments readDataSourceConfig {W}.

Section Orchestrator.

Context {W : Type}.
Variable C : Collaborators W.
Variable config : ConfigSchema.
Variable path : PathModule.

Definition getMigrationPath (migrationName : string) : string :=
  path_resolve path (migrationsDir config) migrationName.

Definition migrationsDirPath : string :=
  path_join path (process_cwd path) (migrationsDir config).

(** A read of the world that does not change it. *)
Definition ask {A} (h : W -> Result A) : M W Event A :=
  fun w => (h w, w, []).

Definition invalidMigrationNameMessage (name : string) : string :=
  "InvalidMigrationName: " +:+ name.

(** Modelled from the spec: [Validator.validateMigrationName]
    (services/Validator.ts is not among the sources).  Section 4.5, step 1:
    "if a target name was supplied, validate it is a recognized migration
    name", the recognized names being the registry's "ordered list of
    entries recognized as migrations" (section 4.1); the failure is of the
    kind [InvalidMigrationName]. *)
Definition validateMigrationName (name : string) : M W Event unit :=
  let* entries := ask (fs_readdirSync C migrationsDirPath) in
  if existsb (String.eqb name) (List.filter (validator_isMigration C) entries)
  then ret tt
  else throw (JsError (invalidMigrationNameMessage name)).

(** Lines 123-130: the slice of the ordered list that is migrated. *)
Definition selectMigrations (rawMigrations : list string)
    (targetMigration : option string) (includeTargetMigration : bool)
  : list string :=
  let lastMigrationIndex :=
    match Js.truthy targetMigration with
    | Some t => Js.indexOf rawMigrations t
    | None => Z.of_nat (length rawMigrations)
    end in
  Js.slice0 rawMigrations
    (lastMigrationIndex + (if includeTargetMigration then 1 else 0)).

(** [migration?.applied_steps_count ?? 0] *)
Definition appliedStepsCount (migration : option MigrationModel) : Z :=
  match migration with
  | Some m => applied_steps_count m
  | None => 0
  end.

(** [migrationAppliedCount], the sample taken before the engine call
    (line 144). *)
Definition beforeSample (tableExists : bool)
    (migration : option MigrationModel) : Z :=
  if tableExists then appliedStepsCount migration else 0.

(** The sampling window of one iteration: the calls made up to the second
    read of the history row, when all of them return. *)
Definition samplingWindow (name : string) (tableExists : bool)
    (migration newMigration : option MigrationModel) : list Event :=
  ETableExists (Ok tableExists) ::
  (if tableExists then [EGetMigrationByName name (Ok migration)] else []) ++
  [EMigrateTo name (Ok tt); EGetMigrationByName name (Ok newMigration)].

Definition postScriptMessage (migrationName : string) : string :=
  "Executing post-migrate script for migration: " +:+ migrationName.

(** Lines 137-153: the body of the loop over [dataMigrations]. *)
Definition migrateOne (migrationName : string) : M W Event unit :=
  let* prismaTableExists :=
    call (db_isPrismaMigrationsTableExists C) ETableExists in
  let* migration :=
    if prismaTableExists : bool then
      call (db_getMigrationByName C migrationName)
           (EGetMigrationByName migrationName)
    else ret None in
  let migrationAppliedCount :=
    if prismaTableExists then appliedStepsCount migration else 0 in
  let* _ := call (migrator_migrateTo C migrationName) (EMigrateTo migrationName) in
  let* newMigration :=
    call (db_getMigrationByName C migrationName)
         (EGetMigrationByName migrationName) in
  let newMigrationAppliedCount := appliedStepsCount newMigration in
  if migrationAppliedCount + 1 =? newMigrationAppliedCount then
    let* _ := emit (ELogInfo (postScriptMessage migrationName)) in
    call (scriptRunner_runPostScript C (getMigrationPath migrationName))
         (ERunPostScript (getMigrationPath migrationName))
  else ret tt.

(** Lines 156-158.  [dataMigrations] is a sub-list of [migrations], so
    [migrations.at(-1)] is a name whenever the two ends differ. *)
Definition finalAdvance (migrations dataMigrations : list string)
  : M W Event unit :=
  if bool_decide (last dataMigrations <> last migrations) then
    let target := default "" (last migrations) in
    call (migrator_migrateTo C target) (EMigrateTo target)
  else ret tt.

(** Lines 136-160: what [migrate] does once the connection is open. *)
Definition migrateConnected (migrations dataMigrations : list string)
  : M W Event unit :=
  let* _ := forEach migrateOne dataMigrations in
  let* _ := finalAdvance migrations dataMigrations in
  call (db_disconnect C) EDisconnect.

(** [async migrate({ targetMigration, includeTargetMigration })] *)
Definition migrate (targetMigration : option string)
    (includeTargetMigration : bool) : M W Event unit :=
  let* _ :=
    match Js.truthy targetMigration with
    | Some t => validateMigrationName t
    | None => ret tt
    end in
  let* entries := ask (fs_readdirSync C migrationsDirPath) in
  let rawMigrations := List.filter (validator_isMigration C) entries in
  let migrations :=
    selectMigrations rawMigrations targetMigration includeTargetMigration in
  let dataMigrations :=
    List.filter (validator_isMigrationWithPostScript C) migrations in
  let* dataSource := ask (readDataSourceConfig C (mainPrismaSchema config)) in
  let* _ := call (db_connect C dataSource) (EConnect dataSource) in
  migrateConnected migrations dataMigrations.

End Orchestrator.
End Migrate.

(* ===================================================================== *)
(** * Concrete collaborators                                              *)
(* ===================================================================== *)

(** A small world to run the model on: a history table, an engine whose
    effect on the history is scripted, a migrations directory. *)
Module Sim.

(** [readStringArgument] on the arguments used below: a string literal
    gives its value, anything else is rejected. *)
Definition readStringArgument (arg : SchemaArgument) : Result string :=
  match arg with
  | Literal (VString s) => Ok s
  | _ => Err (JsError "String literal expected")
  end.

Definition path : PathModule :=
  {| path_join := fun a b => a +:+ "/" +:+ b;
     path_resolve := fun a b => "/app/" +:+ a +:+ "/" +:+ b;
     path_dirname := fun p => p +:+ "/..";
     path_isAbsolute := String.prefix "/";
     process_cwd := "/app" |}.

Definition config : ConfigSchema :=
  {| migrationsDir := "prisma/migrations";
     outputDir := "../../generated";
     migrationSchemaFileName := "schema.prisma";
     mainPrismaSchema := "prisma/schema.prisma" |}.

Record World : Type := mkWorld {
  history : option (gmap string Z);  (* the history table, if it exists *)
  steps : gmap string Z;             (* what advancing to a migration adds
                                        to its count; 1 when absent *)
  failing : list string;             (* the engine throws on these *)
  entries : list string              (* the migrations directory *)
}.

Definition dataSource : DataSourceConfig :=
  {| provider := Str "postgresql"; url := Str "postgresql://x" |}.

Definition rowOf (name : string) (h : gmap string Z) : option MigrationModel :=
  (fun n => {| migration_name := name; applied_steps_count := n |}) <$> h !! name.

Definition getMigrationByName (name : string) (w : World)
  : Result (option MigrationModel) * World :=
  match history w with
  | Some h => (Ok (rowOf name h), w)
  | None => (Err (JsError "relation _prisma_migrations does not exist"), w)
  end.

Definition migrateTo (name : string) (w : World) : Result unit * World :=
  if existsb (String.eqb name) (failing w) then
    (Err (JsError ("migrate resolve failed: " +:+ name)), w)
  else
    let h := default ∅ (history w) in
    let count := default 0 (h !! name) + default 1 (steps w !! name) in
    (Ok tt, {| history := Some (<[name := count]> h);
               steps := steps w;
               failing := failing w;
               entries := entries w |}).

(** Every directory entry but the lock file is a migration; a migration
    has a post-script when it is listed in [postScripts]. *)
Definition collaborators (postScripts : list string)
  : Migrate.Collaborators World :=
  {| Migrate.db_connect := fun _ w => (Ok tt, w);
     Migrate.db_isPrismaMigrationsTableExists := fun w =>
       (Ok (bool_decide (is_Some (history w))), w);
     Migrate.db_getMigrationByName := getMigrationByName;
     Migrate.db_disconnect := fun w => (Ok tt, w);
     Migrate.migrator_migrateTo := migrateTo;
     Migrate.scriptRunner_runPostScript := fun _ w => (Ok tt, w);
     Migrate.validator_isMigration := fun name =>
       negb (String.eqb name "migration_lock.toml");
     Migrate.validator_isMigrationWithPostScript := fun name =>
       existsb (String.eqb name) postScripts;
     Migrate.fs_readdirSync := fun _ w => Ok (entries w);
     Migrate.readDataSourceConfig := fun _ _ => Ok dataSource |}.

Definition migrate (postScripts : list string) :=
  Migrate.migrate (collaborators postScripts) config path.

(** The directory of the end-to-end example of the design document. *)
Definition exampleEntries : list string :=
  ["001_init"; "002_add_col"; "003_seed"; "migration_lock.toml"].

(** A fresh database. *)
Definition fresh : World :=
  {| history := None; steps := ∅; failing := []; entries := exampleEntries |}.

(** [002_add_col] is recorded with 3 steps; advancing to it adds [d]. *)
Definition recorded (d : Z) : World :=
  {| history := Some {[ "002_add_col" := 3 ]};
     steps := {[ "002_add_col" := d ]};
     failing := [];
     entries := exampleEntries |}.

(** The engine throws when asked to advance to [002_add_col]. *)
Definition broken : World :=
  {| history := None; steps := ∅; failing := ["002_add_col"];
     entries := exampleEntries |}.

(** An external generator that writes a client file and returns, and one
    that throws. *)
Definition generatorOk (schema : string) (files : gmap string string)
  : Result unit * gmap string string :=
  (Ok tt, <["generated/index.js" := "client"]> files).

Definition generatorThrows (schema : string) (files : gmap string string)
  : Result unit * gmap string string :=
  (Err (JsError "prisma generate failed"), files).

(** A parser and a formatter for one schema text. *)
Definition exampleSchema : PrismaSchema :=
  {| declarations :=
       [ ConfigBlock KDatasource "db"
           [MConfig (mkConfig "provider" (Literal (VString "postgresql")) None)];
         ConfigBlock KGenerator "client"
           [MConfig (mkConfig "provider" (Literal (VString "prisma-client-js")) None)];
         OtherDeclaration "model" "User" ] |}.

Definition parsePrismaSchema (text : string) : Result PrismaSchema :=
  if String.eqb text "schema" then Ok exampleSchema
  else Err (JsError "parse error").

Definition formatAst (ast : PrismaSchema) : string := "formatted".

End Sim.

(* ===================================================================== *)
(** * utils/readPrismaConfig.ts                                           *)
(* ===================================================================== *)

Module PrismaConfig.

(** The values a dynamically imported module can hold, as far as the type
    guard looks at them.  The value of a number is never inspected. *)
#[warnings="-register-all"]
Inductive JsValue : Type :=
| JUndefined
| JNull
| JBoolean (b : bool)
| JNumber
| JString (s : string)
| JFunction
| JArray (items : list JsValue)
| JObject (fields : list (string * JsValue)).

(** [!(!v || typeof v !== "object")]: [typeof] is ["object"] for objects,
    arrays and [null], and [null] is falsy. *)
Definition isObject (v : JsValue) : bool :=
  match v with
  | JObject _ | JArray _ => true
  | _ => false
  end.

Fixpoint lookupField (key : string) (fields : list (string * JsValue))
  : option JsValue :=
  match fields with
  | [] => None
  | (k, v) :: rest => if String.eqb k key then Some v else lookupField key rest
  end.

(** [key in v], for the keys [datasource], [url] and [default] (none of them
    is an index, [length] or a property of [Object.prototype]). *)
Definition hasProperty (key : string) (v : JsValue) : bool :=
  match v with
  | JObject fields =>
      match lookupField key fields with Some _ => true | None => false end
  | _ => false
  end.

(** [v[key]] on an object. *)
Definition getProperty (key : string) (v : JsValue) : JsValue :=
  match v with
  | JObject fields => default JUndefined (lookupField key fields)
  | _ => JUndefined
  end.

(** [function isValidPrismaConfig(config: unknown): config is {...}] *)
Definition isValidPrismaConfig (config : JsValue) : bool :=
  if negb (isObject config) then false
  else if negb (hasProperty "datasource" config) then false
  else
    let DATASOURCE := getProperty "datasource" config in
    if negb (isObject DATASOURCE) then false
    else if negb (hasProperty "url" DATASOURCE) then false
    else
      let URL := getProperty "url" DATASOURCE in
      match URL with JString _ => true | _ => false end.

Definition notFoundMessage (configPath : string) : string :=
  "prisma.config.ts (at " +:+ configPath +:+ ") not found".

Definition importFailedMessage (importError : string) : string :=
  "failed to import prisma.config.ts: " +:+ importError.

Definition invalidStructureMessage : string :=
  "invalid prisma.config.ts structure: expected defineConfig with datasource.url property".

Definition emptyUrlMessage : string :=
  "datasource.url cannot be empty in prisma.config.ts".

Definition invalidUrlMessage (datasourceUrl : string) : string :=
  "invalid datasource.url format in prisma.config.ts: " +:+ datasourceUrl.

(** What [readDatabaseUrlFromPrismaConfig] reads of its surroundings. *)
Record Loader : Type := mkLoader {
  existsSync : string -> bool;
  importModule : string -> Result JsValue;   (* [await import(path)] *)
  errorText : Error -> string;               (* [`${importError}`] *)
  urlParses : string -> bool                 (* [new URL(s)] does not throw *)
}.

Section ReadUrl.

Variable path : PathModule.
Variable loader : Loader.

Definition CONFIG_PATH : string :=
  path_join path (process_cwd path) "prisma.config.ts".

(** Lines 60-69: the default export when there is one, the module
    otherwise. *)
Definition configOf (prismaConfig : JsValue) : JsValue :=
  if isObject prismaConfig && hasProperty "default" prismaConfig &&
     negb (match getProperty "default" prismaConfig with
           | JUndefined => true
           | _ => false
           end)
  then getProperty "default" prismaConfig
  else prismaConfig.

(** [export async function readDatabaseUrlFromPrismaConfig(): Promise<string>].
    After the type guard [CONFIG.datasource.url] is a string. *)
Definition readDatabaseUrlFromPrismaConfig : Result string :=
  if negb (existsSync loader CONFIG_PATH) then
    Err (JsError (notFoundMessage CONFIG_PATH))
  else
    match importModule loader CONFIG_PATH with
    | Err importError =>
        Err (JsError (importFailedMessage (errorText loader importError)))
    | Ok prismaConfig =>
        let CONFIG := configOf prismaConfig in
        if negb (isValidPrismaConfig CONFIG) then
          Err (JsError invalidStructureMessage)
        else
          match getProperty "url" (getProperty "datasource" CONFIG) with
          | JString DATASOURCE_URL =>
              if (String.length DATASOURCE_URL =? 0)%nat then
                Err (JsError emptyUrlMessage)
              else if negb (urlParses loader DATASOURCE_URL) then
                Err (JsError (invalidUrlMessage DATASOURCE_URL))
              else Ok DATASOURCE_URL
          | _ => Err (JsError invalidStructureMessage)
          end
    end.

End ReadUrl.
End PrismaConfig.

(* ===================================================================== *)
(** * utils/readDataSourceConfig.ts: readDataSourceConfig                 *)
(* ===================================================================== *)

Module Resolver.

(** [String.prototype.endsWith] *)
Definition endsWith (s suffix : string) : bool :=
  let n := String.length s in
  let k := String.length suffix in
  (k <=? n)%nat && String.eqb (String.substring (n - k) k s) suffix.

(** The line feed of [join("\n")]. *)
Definition newline : string := String (Ascii.ascii_of_nat 10) EmptyString.

(** [xs.map(f)] with an [f] that may throw: the first error ends it. *)
Fixpoint mapResult {A B} (f : A -> Result B) (l : list A) : Result (list B) :=
  match l with
  | [] => Ok []
  | x :: l' =>
      match f x with
      | Err e => Err e
      | Ok y =>
          match mapResult f l' with
          | Err e => Err e
          | Ok ys => Ok (y :: ys)
          end
      end
  end.

(** The synchronous [fs] calls of [readDataSourceConfig]. *)
Record FileSystem : Type := mkFileSystem {
  statSync_isDirectory : string -> Result bool;
  readdirSync : string -> Result (list string);
  readFileSync : string -> Result string
}.

Definition missingProviderMessage : string :=
  "Datasource declaration must include a 'provider' configuration.".

(** [datasourceDeclaration.members] when [find] returned [undefined]: a
    [TypeError]. *)
Definition noDatasourceMessage : string :=
  "Cannot read properties of undefined (reading 'members')".

Section ReadDataSourceConfig.

Variable path : PathModule.
Variable fs : FileSystem.
Variable parsePrismaSchema : string -> Result PrismaSchema.
Variable readStringArgument : SchemaArgument -> Result string.
Variable env : gmap string string.

(** [./isSupportedDatasourceProvider]: the predicate and the list printed in
    the error. *)
Variable isSupportedDatasourceProvider : Text -> bool.
Variable SUPPORTED_DATASOURCE_PROVIDERS : list string.

(** The text of an inherited property in a template literal (the source
    text of the function). *)
Variable inheritedText : string -> string.

(** [await readDatabaseUrlFromPrismaConfig()] *)
Variable prismaConfigUrl : Result string.

(** [`${provider}`] *)
Definition templateText (value : Text) : string :=
  match value with
  | Str s => s
  | Inherited name => inheritedText name
  end.

Definition unsupportedProviderMessage (provider : Text) : string :=
  "Unsupported datasource provider: " +:+ templateText provider +:+
  ". Supported providers are: " +:+
  String.concat ", " SUPPORTED_DATASOURCE_PROVIDERS.

(** Lines 57-65: the schema text, of one file or of the [.prisma] files of a
    directory joined by line feeds. *)
Definition readSchemaContent (schemaPath : string) : Result string :=
  match statSync_isDirectory fs schemaPath with
  | Err e => Err e
  | Ok true =>
      match readdirSync fs schemaPath with
      | Err e => Err e
      | Ok names =>
          let files := List.filter (fun file => endsWith file ".prisma") names in
          match mapResult
                  (fun file => readFileSync fs (path_join path schemaPath file))
                  files with
          | Err e => Err e
          | Ok contents => Ok (String.concat newline contents)
          end
      end
  | Ok false => readFileSync fs schemaPath
  end.

Definition isDatasource (decl : SchemaDeclaration) : bool :=
  match decl with
  | ConfigBlock KDatasource _ _ => true
  | _ => false
  end.

(** The callback of [members.find(...)] for the field [name]. *)
Definition isConfigNamed (name : string) (member : BlockMember) : bool :=
  match member with
  | MConfig c => String.eqb (config_name c) name
  | MCommentBlock _ => false
  end.

Definition findConfig (name : string) (members : list BlockMember)
  : option Config :=
  match find (isConfigNamed name) members with
  | Some (MConfig c) => Some c
  | _ => None
  end.

(** Lines 69-88, on the parsed schema. *)
Definition resolveDataSource (schemaAst : PrismaSchema)
  : Result DataSourceConfig :=
  match find isDatasource (declarations schemaAst) with
  | Some (ConfigBlock _ _ members) =>
      let providerDeclaration := findConfig "provider" members in
      let urlDeclaration := findConfig "url" members in
      match providerDeclaration with
      | None => Err (JsError missingProviderMessage)
      | Some providerDeclaration =>
          match DataSource.readArgumentWithEnv readStringArgument env
                  (config_value providerDeclaration) with
          | Err e => Err e
          | Ok provider =>
              match
                match urlDeclaration with
                | Some urlDeclaration =>
                    DataSource.readArgumentWithEnv readStringArgument env
                      (config_value urlDeclaration)
                | None =>
                    match prismaConfigUrl with
                    | Ok DATASOURCE_URL => Ok (Str DATASOURCE_URL)
                    | Err e => Err e
                    end
                end
              with
              | Err e => Err e
              | Ok url =>
                  if negb (isSupportedDatasourceProvider provider) then
                    Err (JsError (unsupportedProviderMessage provider))
                  else Ok {| provider := provider; url := url |}
              end
          end
      end
  | _ => Err (JsError noDatasourceMessage)
  end.

(** [export async function readDataSourceConfig(schemaPath)] *)
Definition readDataSourceConfig (schemaPath : string)
  : Result DataSourceConfig :=
  match readSchemaContent schemaPath with
  | Err e => Err e
  | Ok schemaContent =>
      match parsePrismaSchema schemaContent with
      | Err e => Err e
      | Ok schemaAst => resolveDataSource schemaAst
      end
  end.

End ReadDataSourceConfig.
End Resolver.

(* ===================================================================== *)
(** * cli.ts and the rest of services/CLI.ts                              *)
(* ===================================================================== *)

Module Command.

Definition dquote : string := String (Ascii.ascii_of_nat 34) EmptyString.

(** ['options "to" and "upto" can not be used together'] *)
Definition bothOptionsMessage : string :=
  "options " +:+ dquote +:+ "to" +:+ dquote +:+ " and " +:+
  dquote +:+ "upto" +:+ dquote +:+ " can not be used together".

(** ['Option "--migration" is required to specify the migration name'] *)
Definition migrationRequiredMessage : string :=
  "Option " +:+ dquote +:+ "--migration" +:+ dquote +:+
  " is required to specify the migration name".

(** Truthiness of an option value: [undefined] and the empty string are
    falsy. *)
Definition isTruthy (value : option string) : bool :=
  match Js.truthy value with Some _ => true | None => false end.

(** cli.ts, lines 67-77: the arguments the [migrate] command gives to
    [CLI.migrate], from the values of [--to] and [--upto]. *)
Definition migrateArguments (to upto : option string)
  : Result (option string * bool) :=
  if isTruthy to && isTruthy upto then Err (JsError bothOptionsMessage)
  else
    (* options.to ?? options.upto *)
    let toOption := match to with Some t => Some t | None => upto end in
    let targetMigration :=
      match toOption with
      | Some t => if String.eqb t "latest" then None else Some t
      | None => None
      end in
    Ok (targetMigration, negb (isTruthy to)).

Definition noPostScriptMessage (migrationName : string) : string :=
  "Migration " +:+ migrationName +:+ " does not have a post script".

Definition configExistsMessage : string := "Config file already exists".

(** [static init()], on the files of [Generate] (a path that exists is a
    file): [configFilePath] is [path.join(process.cwd(), CONFIG_FILE_NAME)]
    and [defaultConfigText] is [JSON.stringify(DEFAULT_CONFIG, null, 2)]. *)
Definition init (configFilePath defaultConfigText : string)
    (files : gmap string string) : Result unit * gmap string string :=
  match files !! configFilePath with
  | Some _ => (Err (JsError configExistsMessage), files)
  | None => (Ok tt, <[configFilePath := defaultConfigText]> files)
  end.

Section Actions.

Context {W : Type}.
Variable C : Migrate.Collaborators W.
Variable config : ConfigSchema.
Variable path : PathModule.

(** The action of the [migrate] command. *)
Definition migrateCommand (to upto : option string) : M W Migrate.Event unit :=
  match migrateArguments to upto with
  | Err e => throw e
  | Ok (targetMigration, includeTargetMigration) =>
      Migrate.migrate C config path targetMigration includeTargetMigration
  end.

(** [CLI.runPostScript(migrationName)] *)
Definition runPostScript (migrationName : string) : M W Migrate.Event unit :=
  let* _ := Migrate.validateMigrationName C config path migrationName in
  if negb (Migrate.validator_isMigrationWithPostScript C migrationName) then
    throw (JsError (noPostScriptMessage migrationName))
  else
    call (Migrate.scriptRunner_runPostScript C
            (Migrate.getMigrationPath config path migrationName))
         (Migrate.ERunPostScript
            (Migrate.getMigrationPath config path migrationName)).

(** The action of the [run:postscript] command. *)
Definition runPostScriptCommand (migration : option string)
  : M W Migrate.Event unit :=
  match Js.truthy migration with
  | None => throw (JsError migrationRequiredMessage)
  | Some migrationName => runPostScript migrationName
  end.

End Actions.
End Command.

(* ===================================================================== *)
(** * services/CLI.ts: mergeSchema                                        *)
(* ===================================================================== *)

Module MergeSchema.

(** What the [fs] calls find at a directory entry.  [statSync] throws (a
    dangling symbolic link, a path that may not be searched), or it finds a
    regular file, whose read gives the content or throws; a directory, whose
    listing gives the entries in order or throws; or something that is
    neither. *)
#[warnings="-register-all"]
Inductive FsNode : Type :=
| FsFile (content : Result string)
| FsDirectory (listing : Result (list (string * FsNode)))
| FsOther
| FsFailing (error : Error).

Inductive Event : Type :=
| ELogInfo (message : string)
| EWriteFile (path : string) (content : string) (outcome : Result unit).

Section Merge.

Variable path : PathModule.

(** [path.basename] *)
Variable path_basename : string -> string.

(** [fs.writeFileSync(path, content)]: it returns or throws. *)
Variable writeFileSync : string -> string -> Result unit.

(** The callback of [filesAndDirs.forEach(...)] for the entry [item] found
    at [fullPath]: the paths it adds to [prismaFiles], unless [statSync] or,
    in the recursive call, [readdirSync] throws. *)
Fixpoint visit (item fullPath : string) (node : FsNode) : Result (list string) :=
  match node with
  | FsFailing e => Err e
  | FsDirectory (Err e) => Err e
  | FsDirectory (Ok filesAndDirs) =>
      (fix each (es : list (string * FsNode)) : Result (list string) :=
         match es with
         | [] => Ok []
         | (i, n) :: es' =>
             match visit i (path_join path fullPath i) n with
             | Err e => Err e
             | Ok found =>
                 match each es' with
                 | Err e => Err e
                 | Ok more => Ok (found ++ more)
                 end
             end
         end) filesAndDirs
  | FsFile _ => Ok (if Resolver.endsWith item ".prisma" then [fullPath] else [])
  | FsOther => Ok []
  end.

(** [filesAndDirs.forEach(...)] in the directory at [dirPath]: the first
    entry on which a call throws ends the walk. *)
Fixpoint forEachItem (dirPath : string) (filesAndDirs : list (string * FsNode))
  : Result (list string) :=
  match filesAndDirs with
  | [] => Ok []
  | (item, node) :: rest =>
      match visit item (path_join path dirPath item) node with
      | Err e => Err e
      | Ok found =>
          match forEachItem dirPath rest with
          | Err e => Err e
          | Ok more => Ok (found ++ more)
          end
      end
  end.

(** [private getPrismaFilesFromDir(dirPath: string): string[]], for a
    directory whose listing is [listing]. *)
Definition getPrismaFilesFromDir (dirPath : string)
    (listing : Result (list (string * FsNode))) : Result (list string) :=
  match listing with
  | Err e => Err e
  | Ok filesAndDirs => forEachItem dirPath filesAndDirs
  end.

(** [statSync] and [readdirSync] return on the entry and on everything
    below it. *)
Fixpoint accessible (node : FsNode) : bool :=
  match node with
  | FsFailing _ => false
  | FsDirectory (Err _) => false
  | FsDirectory (Ok entries) =>
      (fix each (es : list (string * FsNode)) : bool :=
         match es with
         | [] => true
         | (_, n) :: es' => accessible n && each es'
         end) entries
  | FsFile _ => true
  | FsOther => true
  end.

Definition allAccessible (entries : list (string * FsNode)) : bool :=
  forallb (fun entry => accessible entry.2) entries.

(** Every regular file below an entry, through the directories that can be
    listed, in the order of the walk: the name of its entry, its full path
    and what reading it gives. *)
Fixpoint filesBelow (item fullPath : string) (node : FsNode)
  : list (string * string * Result string) :=
  match node with
  | FsDirectory (Ok entries) =>
      (fix each (es : list (string * FsNode))
         : list (string * string * Result string) :=
         match es with
         | [] => []
         | (i, n) :: es' => filesBelow i (path_join path fullPath i) n ++ each es'
         end) entries
  | FsFile content => [(item, fullPath, content)]
  | _ => []
  end.

Definition filesIn (dirPath : string) (entries : list (string * FsNode))
  : list (string * string * Result string) :=
  flat_map (fun '(item, node) => filesBelow item (path_join path dirPath item) node)
    entries.

(** [node] is the entry [item], at [fullPath], of the directory at
    [dirPath] or of a directory below it. *)
Inductive reaches
  : string -> list (string * FsNode) -> string -> string -> FsNode -> Prop :=
| reaches_entry dirPath entries item node :
    In (item, node) entries ->
    reaches dirPath entries item (path_join path dirPath item) node
| reaches_below dirPath entries sub subEntries item fullPath node :
    In (sub, FsDirectory (Ok subEntries)) entries ->
    reaches (path_join path dirPath sub) subEntries item fullPath node ->
    reaches dirPath entries item fullPath node.

Definition entryPath (file : string * string * Result string) : string :=
  file.1.2.

(** A regular file whose name ends with [.prisma]. *)
Definition isPrismaEntry (file : string * string * Result string) : bool :=
  Resolver.endsWith file.1.1 ".prisma".

Definition isReadable (file : string * string * Result string) : bool :=
  is_ok file.2.

(** The walk returns exactly when every call below returns, and then lists
    the [.prisma] files in order. *)
Definition walked (result : Result (list string)) (ok : bool)
    (files : list (string * string * Result string)) : Prop :=
  match result with
  | Ok found =>
      ok = true /\ found = map entryPath (List.filter isPrismaEntry files)
  | Err _ => ok = false
  end.

(** [fs.readFileSync(file, "utf-8")] on the files of the folder. *)
Definition readFileSync (files : list (string * string * Result string))
    (file : string) : Result string :=
  match find (fun '(_, fullPath, _) => String.eqb fullPath file) files with
  | Some (_, _, content) => content
  | None => Err (JsError ("ENOENT: no such file or directory, open " +:+ file))
  end.

(** [`//--- ${path.basename(file)} ---\n${fileContent}\n`] *)
Definition fileSection (file fileContent : string) : string :=
  "//--- " +:+ path_basename file +:+ " ---" +:+ Resolver.newline +:+
  fileContent +:+ Resolver.newline.

(** The section of a listed file that can be read. *)
Definition sectionOf (file : string * string * Result string) : string :=
  match file.2 with
  | Ok fileContent => fileSection (entryPath file) fileContent
  | Err _ => ""
  end.

(** Lines 97-102: [mergedSchema] after the files [prismaFiles], starting
    from [merged]. *)
Fixpoint appendSections (files : list (string * string * Result string))
    (prismaFiles : list string) (merged : string) : Result string :=
  match prismaFiles with
  | [] => Ok merged
  | file :: rest =>
      match readFileSync files file with
      | Err e => Err e
      | Ok fileContent =>
          appendSections files rest (merged +:+ fileSection file fileContent)
      end
  end.

(** [mergeSchema(rawSchemaFolderPath, outputPath)], for a schema folder whose
    listing is [listing]: the outcome, and the log lines and the write
    made. *)
Definition mergeSchema (rawSchemaFolderPath outputPath : string)
    (listing : Result (list (string * FsNode))) : Result unit * list Event :=
  let schemaFolderPath := path_join path (process_cwd path) rawSchemaFolderPath in
  match getPrismaFilesFromDir schemaFolderPath listing with
  | Err e => (Err e, [ELogInfo "Merging schema files"])
  | Ok prismaFiles =>
      let files :=
        match listing with
        | Ok entries => filesIn schemaFolderPath entries
        | Err _ => []
        end in
      match appendSections files prismaFiles "" with
      | Err e => (Err e, [ELogInfo "Merging schema files"])
      | Ok mergedSchema =>
          match writeFileSync outputPath mergedSchema with
          | Err e =>
              (Err e,
               [ELogInfo "Merging schema files";
                EWriteFile outputPath mergedSchema (Err e)])
          | Ok u =>
              (Ok tt,
               [ELogInfo "Merging schema files";
                EWriteFile outputPath mergedSchema (Ok u);
                ELogInfo "Schema files merged"])
          end
      end
  end.

End Merge.
End MergeSchema.

(* ===================================================================== *)
(** * Reading traces of migrate                                           *)
(* ===================================================================== *)

Module Trace.

(** The migration directories the post-script runner was called on, in
    order. *)
Fixpoint postScriptsRun (tr : list Migrate.Event) : list string :=
  match tr with
  | [] => []
  | Migrate.ERunPostScript migrationPath _ :: tr' =>
      migrationPath :: postScriptsRun tr'
  | _ :: tr' => postScriptsRun tr'
  end.

Definition isConnect (ev : Migrate.Event) : bool :=
  match ev with Migrate.EConnect _ _ => true | _ => false end.

(** Every event of every run of [m] satisfies [P]. *)
Definition always {W A} (P : Migrate.Event -> Prop) (m : M W Migrate.Event A)
  : Prop :=
  forall w r w' tr, m w = (r, w', tr) -> Forall P tr.

(** The engine calls of a complete run over a slice: one per
    post-script-bearing migration, then the end of the slice when it is not
    the last of them. *)
Definition engineSchedule (migrations dataMigrations : list string)
  : list string :=
  dataMigrations ++
  (if bool_decide (last dataMigrations <> last migrations)
   then [default "" (last migrations)] else []).

End Trace.

(* ===================================================================== *)
(** * More concrete surroundings                                          *)
(* ===================================================================== *)

Module Examples.

Import PrismaConfig.

(** A [prisma.config.ts] whose default export is
    [{ datasource: { url: "postgresql://y" } }]. *)
Definition configModule : JsValue :=
  JObject [("default",
            JObject [("datasource",
                      JObject [("url", JString "postgresql://y")])])].

Definition loader : Loader :=
  {| existsSync := fun _ => true;
     importModule := fun _ => Ok configModule;
     errorText := fun e => match e with JsError m => "Error: " +:+ m end;
     urlParses := String.prefix "postgresql://" |}.

(** No [prisma.config.ts]. *)
Definition noLoader : Loader :=
  {| existsSync := fun _ => false;
     importModule := fun _ => Err (JsError "Cannot find module");
     errorText := fun e => match e with JsError m => "Error: " +:+ m end;
     urlParses := fun _ => true |}.

Definition datasourceBlock (members : list BlockMember) : PrismaSchema :=
  {| declarations :=
       [ ConfigBlock KGenerator "client"
           [MConfig (mkConfig "provider" (Literal (VString "prisma-client-js")) None)];
         ConfigBlock KDatasource "db" members ] |}.

Definition providerMember : BlockMember :=
  MConfig (mkConfig "provider" (Literal (VString "postgresql")) None).

(** [url = env("DATABASE_URL")] *)
Definition urlFromEnv : BlockMember :=
  MConfig (mkConfig "url"
             (FunctionCall ["env"] (Some [Literal (VString "DATABASE_URL")]))
             None).

Definition isSupported (provider : Text) : bool :=
  match provider with
  | Str name => existsb (String.eqb name) ["postgresql"; "mysql"]
  | Inherited _ => false
  end.

Definition inheritedText (name : string) : string :=
  "function " +:+ name +:+ "() { [native code] }".

Definition env : gmap string string :=
  {[ "DATABASE_URL" := "postgresql://x" ]}.

Definition resolve (fallback : Result string) (ast : PrismaSchema)
  : Result DataSourceConfig :=
  Resolver.resolveDataSource Sim.readStringArgument env isSupported
    ["postgresql"; "mysql"] inheritedText fallback ast.

(** A schema folder: [a.prisma], a sub-folder with [b.prisma] and a text
    file, and a socket. *)
Definition schemaFolder : list (string * MergeSchema.FsNode) :=
  [ ("a.prisma", MergeSchema.FsFile (Ok "model A {}"));
    ("models",
     MergeSchema.FsDirectory
       (Ok [ ("notes.txt", MergeSchema.FsFile (Ok "todo"));
             ("b.prisma", MergeSchema.FsFile (Ok "model B {}")) ]));
    ("agent.sock", MergeSchema.FsOther) ].

(** What [statSync] throws on a dangling symbolic link. *)
Definition danglingLinkError : Error :=
  JsError "ENOENT: no such file or directory, stat '/app/prisma/schema/link.prisma'".

(** A schema folder with a dangling symbolic link between two schema
    files. *)
Definition brokenFolder : list (string * MergeSchema.FsNode) :=
  [ ("a.prisma", MergeSchema.FsFile (Ok "model A {}"));
    ("link.prisma", MergeSchema.FsFailing danglingLinkError);
    ("b.prisma", MergeSchema.FsFile (Ok "model B {}")) ].

(** A [writeFileSync] that returns. *)
Definition writeOk (path content : string) : Result unit := Ok tt.

Definition basename (p : string) : string :=
  if String.eqb p "/app/prisma/schema/a.prisma" then "a.prisma"
  else if String.eqb p "/app/prisma/schema/models/b.prisma" then "b.prisma"
  else p.

(** A database whose history table exists, with an engine that adds [step]
    to the count of the migration it is asked to advance to. *)
Definition rowOf (name : string) (history : gmap string Z) : option MigrationModel :=
  Some {| migration_name := name;
          applied_steps_count := default 0 (history !! name) |}.

Definition stepping (step : Z) : Migrate.Collaborators (gmap string Z) :=
  {| Migrate.db_connect := fun _ w => (Ok tt, w);
     Migrate.db_isPrismaMigrationsTableExists := fun w => (Ok true, w);
     Migrate.db_getMigrationByName := fun name w => (Ok (rowOf name w), w);
     Migrate.db_disconnect := fun w => (Ok tt, w);
     Migrate.migrator_migrateTo := fun name w =>
       (Ok tt, <[name := default 0 (w !! name) + step]> w);
     Migrate.scriptRunner_runPostScript := fun _ w => (Ok tt, w);
     Migrate.validator_isMigration := fun _ => true;
     Migrate.validator_isMigrationWithPostScript := fun _ => true;
     Migrate.fs_readdirSync := fun _ _ => Ok [];
     Migrate.readDataSourceConfig := fun _ _ => Ok Sim.dataSource |}.

End Examples.

(* ===================================================================== *)
(** * Datasource value resolution                                         *)
(* ===================================================================== *)

Section DataSourceFacts.

Import DataSource.

Variable readStringArgument : SchemaArgument -> Result string.
Variable env : gmap string string.

Local Abbreviation resolve := (readArgumentWithEnv readStringArgument env).

Lemma resolve_env_call path a envName :
  String.concat "." path = "env" ->
  readStringArgument a = Ok envName ->
  resolve (FunctionCall path (Some [a])) =
    match env !! envName with
    | Some v => if String.eqb v "" then Err (JsError (envNotSetMessage envName))
                else Ok (Str v)
    | None => if isInherited envName then Ok (Inherited envName)
              else Err (JsError (envNotSetMessage envName))
    end.
Proof.
  intros Hpath Hname. unfold readArgumentWithEnv, processEnv.
  rewrite Hpath, String.eqb_refl, Hname.
  destruct (env !! envName) as [v |]; [reflexivity |].
  destruct (isInherited envName); reflexivity.
Qed.

Lemma resolve_other_form arg :
  isStringLiteral arg = false ->
  isSingleArgumentEnvCall arg = false ->
  exists e, resolve arg = Err e /\ unsupportedExpressionError e.
Proof.
  unfold unsupportedExpressionError.
  intros Hlit Hcall. destruct arg as [v | | p args | |]; simpl in *.
  - destruct v; [discriminate | eauto | eauto].
  - eauto 6.
  - destruct (String.eqb (String.concat "." p) "env"); [| eauto 6].
    destruct args as [[| a [|]] |]; try discriminate; eauto 6.
  - eauto 6.
  - eauto 6.
Qed.

(** An [env()] call never resolves to the empty string. *)
Lemma resolve_env_call_not_empty arg :
  isEnvCall arg = true -> resolve arg <> Ok (Str "").
Proof.
  intros Hcall. destruct arg as [| | p args | |]; try discriminate.
  simpl in Hcall. unfold readArgumentWithEnv, processEnv. rewrite Hcall.
  destruct args as [[| a [|]] |]; try discriminate.
  destruct (readStringArgument a) as [envName |]; [| discriminate].
  destruct (env !! envName) as [v |].
  - destruct (String.eqb_spec v ""); [discriminate |].
    intros [= ->]. contradiction.
  - destruct (isInherited envName); discriminate.
Qed.

End DataSourceFacts.

(** C7, as the code has it.  A string literal resolves to its value verbatim.
    A single-argument [env()] call resolves to the value of the named
    environment variable when that value is not empty, and fails with the
    "is not set" error when the variable is set to the empty string or, for a
    name that is not a property name of [Object.prototype], is unset.  Every
    other expression form (a literal that is not a string, [env()] with
    another number of arguments, any other call, path, array or named
    argument) fails with one of the errors that reject the form of the
    expression. *)
Theorem readArgumentWithEnv_resolution :
  forall (readStringArgument : SchemaArgument -> Result string)
         (env : gmap string string) (arg : SchemaArgument),
    let resolve := DataSource.readArgumentWithEnv readStringArgument env in
    (forall s, arg = Literal (VString s) -> resolve arg = Ok (Str s)) /\
    (forall path a envName,
        arg = FunctionCall path (Some [a]) ->
        String.concat "." path = "env" ->
        readStringArgument a = Ok envName ->
        (forall v, env !! envName = Some v -> v <> "" ->
                   resolve arg = Ok (Str v)) /\
        (env !! envName = Some "" ->
         resolve arg = Err (JsError (DataSource.envNotSetMessage envName))) /\
        (env !! envName = None ->
         DataSource.isInherited envName = false ->
         resolve arg = Err (JsError (DataSource.envNotSetMessage envName)))) /\
    (DataSource.isStringLiteral arg = false ->
     DataSource.isSingleArgumentEnvCall arg = false ->
     exists e, resolve arg = Err e /\ DataSource.unsupportedExpressionError e).
Proof.
  intros rsa env arg resolve. split; [| split].
  - intros s ->. reflexivity.
  - intros path a envName -> Hpath Hname. unfold resolve.
    rewrite (resolve_env_call rsa env path a envName Hpath Hname).
    split; [| split].
    + intros v -> Hv. destruct (String.eqb_spec v ""); [contradiction | reflexivity].
    + intros ->. reflexivity.
    + intros -> ->. reflexivity.
  - apply resolve_other_form.
Qed.

Lemma readArgumentWithEnv_resolution_witness :
  let env : gmap string string := {[ "DATABASE_URL" := "postgresql://x" ]} in
  let resolve := DataSource.readArgumentWithEnv Sim.readStringArgument env in
  resolve (Literal (VString "postgresql")) = Ok (Str "postgresql") /\
  resolve (FunctionCall ["env"] (Some [Literal (VString "DATABASE_URL")]))
    = Ok (Str "postgresql://x") /\
  resolve (FunctionCall ["env"] (Some [Literal (VString "SHADOW_URL")]))
    = Err (JsError "Environment variable SHADOW_URL is not set.") /\
  exists e, resolve (FunctionCall ["env"] (Some [])) = Err e /\
            DataSource.unsupportedExpressionError e.
Proof.
  intros env resolve.
  split; [| split; [| split]].
  - apply (readArgumentWithEnv_resolution Sim.readStringArgument env
             (Literal (VString "postgresql"))). reflexivity.
  - apply (proj1 (proj2 (readArgumentWithEnv_resolution Sim.readStringArgument env
             (FunctionCall ["env"] (Some [Literal (VString "DATABASE_URL")]))))
             ["env"] (Literal (VString "DATABASE_URL")) "DATABASE_URL"
             eq_refl eq_refl eq_refl).
    + vm_compute. reflexivity.
    + discriminate.
  - apply (proj1 (proj2 (readArgumentWithEnv_resolution Sim.readStringArgument env
             (FunctionCall ["env"] (Some [Literal (VString "SHADOW_URL")]))))
             ["env"] (Literal (VString "SHADOW_URL")) "SHADOW_URL"
             eq_refl eq_refl eq_refl).
    + vm_compute. reflexivity.
    + vm_compute. reflexivity.
  - apply (proj2 (proj2 (readArgumentWithEnv_resolution Sim.readStringArgument env
             (FunctionCall ["env"] (Some []))))); reflexivity.
Defined.

(** C7 as the design document words it fails on a variable that is set to
    the empty string: the call does not resolve to the current value. *)
Lemma readArgumentWithEnv_empty_value_counterexample :
  ~ (forall (env : gmap string string) path a envName v,
        String.concat "." path = "env" ->
        Sim.readStringArgument a = Ok envName ->
        env !! envName = Some v ->
        DataSource.readArgumentWithEnv Sim.readStringArgument env
          (FunctionCall path (Some [a])) = Ok (Str v)).
Proof.
  intros claim.
  specialize (claim {[ "DATABASE_URL" := "" ]} ["env"]
                (Literal (VString "DATABASE_URL")) "DATABASE_URL" ""
                eq_refl eq_refl).
  assert (Hset : ({[ "DATABASE_URL" := "" ]} : gmap string string)
                   !! "DATABASE_URL" = Some "") by (vm_compute; reflexivity).
  specialize (claim Hset). vm_compute in claim. discriminate claim.
Qed.


(** X22.  The falsy values of [process.env[name]].  In an [env()] call whose
    variable is set to the empty string the resolution fails with the "is
    not set" error, and an [env()] call never resolves to the empty string.
    With the variable removed from the environment the call fails with that
    same error when the name is not a property name of [Object.prototype],
    and returns the inherited property when it is one. *)
Theorem readArgumentWithEnv_empty_is_unset :
  forall (readStringArgument : SchemaArgument -> Result string)
         (env : gmap string string),
    (forall path a envName,
        String.concat "." path = "env" ->
        readStringArgument a = Ok envName ->
        env !! envName = Some "" ->
        DataSource.readArgumentWithEnv readStringArgument env
          (FunctionCall path (Some [a]))
        = Err (JsError (DataSource.envNotSetMessage envName)) /\
        DataSource.readArgumentWithEnv readStringArgument (delete envName env)
          (FunctionCall path (Some [a]))
        = if DataSource.isInherited envName then Ok (Inherited envName)
          else Err (JsError (DataSource.envNotSetMessage envName))) /\
    (forall arg,
        DataSource.isEnvCall arg = true ->
        DataSource.readArgumentWithEnv readStringArgument env arg
          <> Ok (Str "")).
Proof.
  intros rsa env. split.
  - intros path a envName Hpath Hname Hempty.
    rewrite !(resolve_env_call rsa _ path a envName Hpath Hname).
    rewrite Hempty, lookup_delete_eq. split; reflexivity.
  - apply resolve_env_call_not_empty.
Qed.

Lemma readArgumentWithEnv_empty_is_unset_witness :
  let env : gmap string string := {[ "DATABASE_URL" := "" ]} in
  let call := FunctionCall ["env"] (Some [Literal (VString "DATABASE_URL")]) in
  DataSource.readArgumentWithEnv Sim.readStringArgument env call
    = Err (JsError "Environment variable DATABASE_URL is not set.") /\
  DataSource.readArgumentWithEnv Sim.readStringArgument env call
    = DataSource.readArgumentWithEnv Sim.readStringArgument ∅ call /\
  DataSource.readArgumentWithEnv Sim.readStringArgument env call <> Ok (Str "").
Proof.
  intros env call.
  pose proof (readArgumentWithEnv_empty_is_unset Sim.readStringArgument env)
    as [Hempty Hnever].
  destruct (Hempty ["env"] (Literal (VString "DATABASE_URL")) "DATABASE_URL"
              eq_refl eq_refl ltac:(vm_compute; reflexivity)) as [Herr Hsame].
  split; [exact Herr | split].
  - etransitivity; [exact Herr |]. vm_compute. reflexivity.
  - apply Hnever. reflexivity.
Defined.

(* ===================================================================== *)
(** * The generator block of a temp schema                                *)
(* ===================================================================== *)

Section ListFacts.

Context {A : Type} (p : A -> bool).

Lemma filter_nil_forall (l : list A) :
  List.filter p l = [] <-> Forall (fun x => p x = false) l.
Proof.
  induction l as [| x l IH]; simpl.
  - split; [constructor | reflexivity].
  - destruct (p x) eqn:Hx.
    + split; [discriminate |]. intros H. inversion H; congruence.
    + rewrite IH. split; [constructor; assumption |].
      intros H. inversion H; assumption.
Qed.

(** A filter result with one element pins down where that element is. *)
Lemma filter_singleton_split (l : list A) (x : A) :
  List.filter p l = [x] ->
  exists pre post,
    l = pre ++ x :: post /\ p x = true /\
    List.filter p pre = [] /\ List.filter p post = [].
Proof.
  induction l as [| y l IH]; simpl; [discriminate |].
  destruct (p y) eqn:Hy.
  - intros [= -> Hrest]. exists [], l. simpl. auto.
  - intros H. destruct (IH H) as (pre & post & -> & Hx & Hpre & Hpost).
    exists (y :: pre), post. simpl. rewrite Hy. auto.
Qed.

Lemma updateFirst_split (f : A -> A) (pre post : list A) (x : A) :
  List.filter p pre = [] -> p x = true ->
  TempSchema.updateFirst p f (pre ++ x :: post) = pre ++ f x :: post.
Proof.
  induction pre as [| y pre IH]; simpl; intros Hpre Hx.
  - rewrite Hx. reflexivity.
  - destruct (p y) eqn:Hy; [discriminate |]. rewrite IH; auto.
Qed.

Lemma find_none_filter (l : list A) :
  find p l = None <-> List.filter p l = [].
Proof.
  induction l as [| y l IH]; simpl; [tauto |].
  destruct (p y); [split; discriminate | exact IH].
Qed.

Lemma find_split (pre post : list A) (x : A) :
  List.filter p pre = [] -> p x = true ->
  find p (pre ++ x :: post) = Some x.
Proof.
  induction pre as [| y pre IH]; simpl; intros Hpre Hx.
  - rewrite Hx. reflexivity.
  - destruct (p y); [discriminate | auto].
Qed.

End ListFacts.

Section SetOutput.

Import TempSchema.

Variable clientOutputPath : string.

Lemma setOutput_append (members : list BlockMember) :
  List.filter isOutputAttribute members = [] ->
  setOutput clientOutputPath members
    = members ++ [MConfig (newOutputAttribute clientOutputPath)].
Proof.
  intros H. unfold setOutput.
  rewrite (proj2 (find_none_filter _ _) H). reflexivity.
Qed.

Lemma setOutput_update (before after : list BlockMember) (c : Config) :
  List.filter isOutputAttribute before = [] ->
  config_name c = "output" ->
  setOutput clientOutputPath (before ++ MConfig c :: after)
    = before ++
      MConfig {| config_name := config_name c;
                 config_value := Literal (VString clientOutputPath);
                 config_comment := config_comment c |} :: after.
Proof.
  intros Hbefore Hname.
  assert (Hc : isOutputAttribute (MConfig c) = true)
    by (simpl; rewrite Hname; reflexivity).
  unfold setOutput. rewrite (find_split _ _ _ _ Hbefore Hc).
  rewrite (updateFirst_split _ _ _ _ _ Hbefore Hc). reflexivity.
Qed.

Lemma outputField_setOutput (members : list BlockMember) :
  outputField (setOutput clientOutputPath members)
    = Some (Literal (VString clientOutputPath)).
Proof.
  unfold setOutput, outputField.
  destruct (find isOutputAttribute members) as [m |] eqn:Hfind.
  - revert Hfind. induction members as [| x xs IH]; simpl; [discriminate |].
    destruct (isOutputAttribute x) eqn:Hx; intros Hfind.
    + destruct x as [c |]; [| discriminate]. simpl in *. rewrite Hx.
      reflexivity.
    + simpl. rewrite Hx. exact (IH Hfind).
  - apply find_none_filter in Hfind.
    rewrite (find_split _ _ _ _ Hfind); reflexivity.
Qed.

End SetOutput.

Section UpdateGenerator.

Import TempSchema.

Lemma updateGenerator_count_mismatch ast clientOutputPath :
  length (List.filter isClientGenerator (declarations ast)) <> 1%nat ->
  updateGenerator ast clientOutputPath = Err (JsError generatorCountMessage).
Proof.
  unfold updateGenerator.
  destruct (List.filter isClientGenerator (declarations ast)) as [| g [| g' gs]];
    simpl; intros H; congruence.
Qed.

Lemma isClientGenerator_inv decl :
  isClientGenerator decl = true ->
  exists name members,
    decl = ConfigBlock KGenerator name members /\
    existsb isClientProvider members = true.
Proof.
  destruct decl as [[|] name members |]; simpl; try discriminate. eauto.
Qed.

Lemma updateGenerator_single ast clientOutputPath :
  length (List.filter isClientGenerator (declarations ast)) = 1%nat ->
  exists pre name members post,
    declarations ast = pre ++ ConfigBlock KGenerator name members :: post /\
    List.filter isClientGenerator pre = [] /\
    List.filter isClientGenerator post = [] /\
    updateGenerator ast clientOutputPath
      = Ok {| declarations :=
                pre ++ ConfigBlock KGenerator name
                         (setOutput clientOutputPath members) :: post |}.
Proof.
  intros Hlen. unfold updateGenerator.
  destruct (List.filter isClientGenerator (declarations ast))
    as [| g [| g' gs]] eqn:Hfilter; try discriminate.
  destruct (filter_singleton_split _ _ _ Hfilter)
    as (pre & post & Hdecls & Hg & Hpre & Hpost).
  destruct (isClientGenerator_inv g Hg) as (name & members & -> & _).
  exists pre, name, members, post. repeat split; try assumption.
  rewrite Hdecls, (updateFirst_split _ _ _ _ _ Hpre Hg). reflexivity.
Qed.

End UpdateGenerator.

(** C5.  [updateGenerator] throws when the schema has no or several client
    generator blocks.  With exactly one it returns the schema in which that
    block, and nothing else, is rewritten: the block's [output] field is the
    supplied path as a string literal, set on the existing field when there is
    one and appended as a new last member when there is none.  Accordingly
    [createTempSchema], on a source file that parses, throws that error and
    writes nothing in the first case, and writes the formatted rewritten
    schema in the second. *)
Theorem updateGenerator_exactly_one_client_generator :
  forall (ast : PrismaSchema) (clientOutputPath : string),
    let clients := List.filter TempSchema.isClientGenerator (declarations ast) in
    (length clients <> 1%nat ->
     TempSchema.updateGenerator ast clientOutputPath
       = Err (JsError TempSchema.generatorCountMessage)) /\
    (length clients = 1%nat ->
     exists pre name members post,
       declarations ast = pre ++ ConfigBlock KGenerator name members :: post /\
       List.filter TempSchema.isClientGenerator pre = [] /\
       List.filter TempSchema.isClientGenerator post = [] /\
       let rewritten := TempSchema.setOutput clientOutputPath members in
       TempSchema.updateGenerator ast clientOutputPath
         = Ok {| declarations :=
                   pre ++ ConfigBlock KGenerator name rewritten :: post |} /\
       TempSchema.outputField rewritten
         = Some (Literal (VString clientOutputPath)) /\
       (List.filter TempSchema.isOutputAttribute members = [] ->
        rewritten
          = members ++ [MConfig (mkConfig "output"
                                   (Literal (VString clientOutputPath)) None)]) /\
       (forall before c after,
           members = before ++ MConfig c :: after ->
           List.filter TempSchema.isOutputAttribute before = [] ->
           config_name c = "output" ->
           rewritten
             = before ++
               MConfig (mkConfig "output" (Literal (VString clientOutputPath))
                          (config_comment c)) :: after)) /\
    (forall (path : PathModule)
            (parsePrismaSchema : string -> Result PrismaSchema)
            (formatAst : PrismaSchema -> string)
            (src out content : string) (files : gmap string string),
        files !! src = Some content ->
        parsePrismaSchema content = Ok ast ->
        let createTempSchema :=
          Generate.createTempSchema path parsePrismaSchema formatAst
            src clientOutputPath out in
        (length clients <> 1%nat ->
         createTempSchema files
           = (Err (JsError TempSchema.generatorCountMessage), files, [])) /\
        (length clients = 1%nat ->
         exists rewritten,
           TempSchema.updateGenerator ast clientOutputPath = Ok rewritten /\
           createTempSchema files
             = (Ok tt, <[out := formatAst rewritten]> files, []))).
Proof.
  intros ast clientOutputPath clients. split; [| split].
  - apply updateGenerator_count_mismatch.
  - intros Hlen.
    destruct (updateGenerator_single ast clientOutputPath Hlen)
      as (pre & name & members & post & Hdecls & Hpre & Hpost & Hres).
    exists pre, name, members, post. repeat split; try assumption.
    + apply outputField_setOutput.
    + apply setOutput_append.
    + intros before c after -> Hbefore Hname.
      rewrite (setOutput_update _ _ _ _ Hbefore Hname), Hname. reflexivity.
  - intros path parse format src out content files Hfile Hparse create.
    subst create.
    unfold Generate.createTempSchema, bind, Generate.fs_readFile, lift,
      Generate.fs_mkdir, Generate.fs_writeFile, ret.
    rewrite Hfile, Hparse. split; intros Hlen.
    + rewrite (updateGenerator_count_mismatch _ _ Hlen). reflexivity.
    + destruct (updateGenerator_single ast clientOutputPath Hlen)
        as (pre & name & members & post & _ & _ & _ & Hres).
      eexists. split; [exact Hres |]. rewrite Hres. reflexivity.
Qed.

Lemma updateGenerator_exactly_one_client_generator_witness :
  (* no client generator *)
  TempSchema.updateGenerator {| declarations := [OtherDeclaration "model" "User"] |}
      "../../generated/001_init"
    = Err (JsError TempSchema.generatorCountMessage) /\
  (* exactly one *)
  length (List.filter TempSchema.isClientGenerator (declarations Sim.exampleSchema))
    = 1%nat /\
  (exists pre name members post,
    declarations Sim.exampleSchema
      = pre ++ ConfigBlock KGenerator name members :: post /\
    TempSchema.updateGenerator Sim.exampleSchema "../../generated/001_init"
      = Ok {| declarations :=
                pre ++ ConfigBlock KGenerator name
                  (TempSchema.setOutput "../../generated/001_init" members)
                :: post |} /\
    TempSchema.outputField
      (TempSchema.setOutput "../../generated/001_init" members)
      = Some (Literal (VString "../../generated/001_init"))) /\
  (* the temp schema file of the example *)
  let files : gmap string string := {[ "schema.prisma" := "schema" ]} in
  exists rewritten,
    Generate.createTempSchema Sim.path Sim.parsePrismaSchema Sim.formatAst
      "schema.prisma" "../../generated/001_init" "tmp.prisma" files
    = (Ok tt, <["tmp.prisma" := Sim.formatAst rewritten]> files, []).
Proof.
  split; [| split; [reflexivity | split]].
  - apply (updateGenerator_exactly_one_client_generator
             {| declarations := [OtherDeclaration "model" "User"] |}).
    simpl. lia.
  - destruct (proj1 (proj2 (updateGenerator_exactly_one_client_generator
                       Sim.exampleSchema "../../generated/001_init")) eq_refl)
      as (pre & name & members & post & Hdecls & _ & _ & Hres & Hout & _).
    exists pre, name, members, post. auto.
  - intros files.
    assert (Hfile : files !! "schema.prisma" = Some "schema")
      by (vm_compute; reflexivity).
    destruct (proj2 (proj2 (updateGenerator_exactly_one_client_generator
                       Sim.exampleSchema "../../generated/001_init"))
                Sim.path Sim.parsePrismaSchema Sim.formatAst
                "schema.prisma" "tmp.prisma" "schema" files
                Hfile eq_refl) as [_ Hone].
    destruct (Hone eq_refl) as (rewritten & _ & Hrun).
    exists rewritten. exact Hrun.
Defined.

(* ===================================================================== *)
(** * The slice of migrations that is applied                             *)
(* ===================================================================== *)

Section Slice.

Lemma indexOf_bounds (l : list string) (x : string) :
  Js.indexOf l x = -1 \/ 0 <= Js.indexOf l x < Z.of_nat (length l).
Proof.
  induction l as [| y l IH]; simpl; [left; reflexivity |].
  destruct (String.eqb y x); [right; lia |].
  destruct (Js.indexOf l x <? 0) eqn:Hneg; [left; reflexivity |].
  apply Z.ltb_ge in Hneg. right. lia.
Qed.

(** [indexOf] is the position of the first occurrence. *)
Lemma indexOf_first (l : list string) (x : string) :
  In x l ->
  exists before after,
    l = before ++ x :: after /\ ~ In x before /\
    Js.indexOf l x = Z.of_nat (length before).
Proof.
  induction l as [| y l IH]; simpl; [contradiction |].
  intros Hin. destruct (String.eqb_spec y x) as [-> | Hne].
  - exists [], l. simpl. auto.
  - destruct Hin as [-> | Hin]; [contradiction |].
    destruct (IH Hin) as (before & after & -> & Hnotin & Hidx).
    exists (y :: before), after. simpl. repeat split.
    + intros [-> | H]; [apply Hne; reflexivity | exact (Hnotin H)].
    + rewrite Hidx.
      destruct (Z.of_nat (length before) <? 0) eqn:Hneg; [| lia].
      apply Z.ltb_lt in Hneg. lia.
Qed.

Lemma indexOf_absent (l : list string) (x : string) :
  ~ In x l -> Js.indexOf l x = -1.
Proof.
  induction l as [| y l IH]; simpl; [reflexivity |].
  intros Hnotin. destruct (String.eqb_spec y x) as [-> | Hne].
  - exfalso. apply Hnotin. left. reflexivity.
  - rewrite IH; [reflexivity |]. intros H. apply Hnotin. right. exact H.
Qed.

Lemma slice0_prefix {A} (before after : list A) :
  Js.slice0 (before ++ after) (Z.of_nat (length before)) = before.
Proof.
  unfold Js.slice0. rewrite length_app.
  destruct (Z.of_nat (length before) <? 0) eqn:Hneg;
    [apply Z.ltb_lt in Hneg; lia |].
  rewrite Z.min_l by lia. rewrite Nat2Z.id. apply take_app_length.
Qed.

Lemma slice0_whole {A} (l : list A) (end_ : Z) :
  Z.of_nat (length l) <= end_ -> Js.slice0 l end_ = l.
Proof.
  intros Hle. unfold Js.slice0.
  destruct (end_ <? 0) eqn:Hneg; [apply Z.ltb_lt in Hneg; lia |].
  rewrite Z.min_r by lia. rewrite Nat2Z.id. apply firstn_all.
Qed.

End Slice.

(** C3.  Take an ordered list of migration names (directory entries, none of
    which is the empty name) and a target that occurs in it; the list splits
    at the first occurrence of the target into [before], the target and
    [after].  The slice is [before] when the target is excluded, and [before]
    followed by the target when it is included.  Without a target the slice
    is the whole list, whatever the flag. *)
Theorem selectMigrations_slice :
  forall (rawMigrations : list string) (target : string),
    ~ In "" rawMigrations ->
    In target rawMigrations ->
    (exists before after,
        rawMigrations = before ++ target :: after /\
        ~ In target before /\
        Migrate.selectMigrations rawMigrations (Some target) false = before /\
        Migrate.selectMigrations rawMigrations (Some target) true
          = before ++ [target]) /\
    (forall includeTargetMigration,
        Migrate.selectMigrations rawMigrations None includeTargetMigration
          = rawMigrations).
Proof.
  intros raw t Hnames Hin. split.
  - destruct (indexOf_first raw t Hin) as (before & after & -> & Hnotin & Hidx).
    exists before, after. unfold Migrate.selectMigrations. simpl.
    destruct (String.eqb_spec t "") as [-> | _]; [contradiction |].
    rewrite Hidx. repeat split; try assumption.
    + rewrite Z.add_0_r. apply slice0_prefix.
    + replace (Z.of_nat (length before) + 1)
        with (Z.of_nat (length (before ++ [t])))
        by (rewrite length_app; simpl; lia).
      rewrite (cons_middle t before after), app_assoc. apply slice0_prefix.
  - intros incl. unfold Migrate.selectMigrations. simpl.
    apply slice0_whole. destruct incl; lia.
Qed.

Lemma selectMigrations_slice_witness :
  let raw := ["001_init"; "002_add_col"; "003_seed"] in
  Migrate.selectMigrations raw (Some "002_add_col") false = ["001_init"] /\
  Migrate.selectMigrations raw (Some "002_add_col") true
    = ["001_init"; "002_add_col"] /\
  Migrate.selectMigrations raw None false = raw /\
  Migrate.selectMigrations raw None true = raw.
Proof.
  intros raw.
  assert (Hin : In "002_add_col" raw) by (simpl; auto).
  assert (Hnames : ~ In "" raw) by (simpl; intuition discriminate).
  destruct (selectMigrations_slice raw "002_add_col" Hnames Hin)
    as [(before & after & Hsplit & Hnotin & Hexcl & Hincl) Hall].
  repeat split; try apply Hall; vm_compute; reflexivity.
Defined.

(* ===================================================================== *)
(** * Sequencing                                                          *)
(* ===================================================================== *)

Section MonadFacts.

Context {St Ev : Type}.

Lemma bind_ok {A B} (m : M St Ev A) (k : A -> M St Ev B) s a s1 t1 :
  m s = (Ok a, s1, t1) ->
  bind m k s = (let '(r, s2, t2) := k a s1 in (r, s2, t1 ++ t2)).
Proof. intros H. unfold bind. rewrite H. reflexivity. Qed.

Lemma bind_err {A B} (m : M St Ev A) (k : A -> M St Ev B) s e s1 t1 :
  m s = (Err e, s1, t1) ->
  bind m k s = (Err e, s1, t1).
Proof. intros H. unfold bind. rewrite H. reflexivity. Qed.

(** Every run of [bind m k] is a run of [m] that threw, or a run of [m]
    that returned followed by a run of [k]. *)
Lemma bind_inv {A B} (m : M St Ev A) (k : A -> M St Ev B) s r s' t :
  bind m k s = (r, s', t) ->
  (exists e, m s = (Err e, s', t) /\ r = Err e) \/
  (exists a s1 t1 t2,
      m s = (Ok a, s1, t1) /\ k a s1 = (r, s', t2) /\ t = t1 ++ t2).
Proof.
  unfold bind. destruct (m s) as [[[a | e] s1] t1].
  - destruct (k a s1) as [[r2 s2] t2] eqn:Hk. intros [= <- <- <-].
    right. exists a, s1, t1, t2. auto.
  - intros [= <- <- <-]. left. exists e. auto.
Qed.

Lemma call_run {A} (h : St -> Result A * St) (ev : Result A -> Ev) s :
  call h ev s = ((h s).1, (h s).2, [ev (h s).1]).
Proof. unfold call. destruct (h s). reflexivity. Qed.

Lemma forEach_cons {A} (body : A -> M St Ev unit) x xs :
  forEach body (x :: xs) = bind (body x) (fun _ => forEach body xs).
Proof. reflexivity. Qed.

(** The loop over [xs ++ ys] runs the loop over [xs], then, unless that
    threw, the loop over [ys] from where it stopped. *)
Lemma forEach_app {A} (body : A -> M St Ev unit) xs ys s :
  forEach body (xs ++ ys) s =
    match forEach body xs s with
    | (Ok _, s1, t1) =>
        let '(r, s2, t2) := forEach body ys s1 in (r, s2, t1 ++ t2)
    | (Err e, s1, t1) => (Err e, s1, t1)
    end.
Proof.
  revert s. induction xs as [| x xs IH]; intros s; simpl.
  - unfold ret. destruct (forEach body ys s) as [[r s2] t2]. reflexivity.
  - unfold bind. destruct (body x s) as [[[[] | e] s1] t1]; [| reflexivity].
    rewrite IH. destruct (forEach body xs s1) as [[[[] | e] s2] t2].
    + destruct (forEach body ys s2) as [[r s3] t3]. rewrite app_assoc.
      reflexivity.
    + reflexivity.
Qed.

End MonadFacts.

(* ===================================================================== *)
(** * The loop over the post-script-bearing migrations                    *)
(* ===================================================================== *)

Section LoopFacts.

Import Migrate.

Context {W : Type}.
Variable C : Collaborators W.
Variable config : ConfigSchema.
Variable path : PathModule.

Local Abbreviation migrateOne := (Migrate.migrateOne C config path).
Local Abbreviation getMigrationPath := (Migrate.getMigrationPath config path).

(** One iteration whose four calls return: what it does next only depends
    on the two samples. *)
Lemma migrateOne_sampled name w tableExists w1 migration w2 w3 newMigration w4 :
  db_isPrismaMigrationsTableExists C w = (Ok tableExists, w1) ->
  (if tableExists then db_getMigrationByName C name w1 else (Ok None, w1))
    = (Ok migration, w2) ->
  migrator_migrateTo C name w2 = (Ok tt, w3) ->
  db_getMigrationByName C name w3 = (Ok newMigration, w4) ->
  migrateOne name w =
    if beforeSample tableExists migration + 1 =? appliedStepsCount newMigration
    then
      let '(r, w5) := scriptRunner_runPostScript C (getMigrationPath name) w4 in
      (r, w5,
       samplingWindow name tableExists migration newMigration ++
       [ELogInfo (postScriptMessage name);
        ERunPostScript (getMigrationPath name) r])
    else (Ok tt, w4, samplingWindow name tableExists migration newMigration).
Proof.
  intros Htable Hrow Hengine Hnew.
  unfold Migrate.migrateOne, samplingWindow, beforeSample, bind, call, ret, emit.
  rewrite Htable.
  destruct tableExists.
  - rewrite Hrow, Hengine, Hnew. cbn -[Z.eqb Z.add].
    destruct (appliedStepsCount migration + 1 =? appliedStepsCount newMigration).
    + destruct (scriptRunner_runPostScript C _ w4) as [r w5]. reflexivity.
    + reflexivity.
  - injection Hrow as <- <-. rewrite Hengine, Hnew. cbn -[Z.eqb Z.add].
    destruct (0 + 1 =? appliedStepsCount newMigration).
    + destruct (scriptRunner_runPostScript C _ w4) as [r w5]. reflexivity.
    + reflexivity.
Qed.

(** Every iteration starts by asking whether the history table exists. *)
Lemma migrateOne_head name w r w' tr :
  migrateOne name w = (r, w', tr) ->
  exists outcome rest, tr = ETableExists outcome :: rest.
Proof.
  unfold Migrate.migrateOne. intros H.
  apply bind_inv in H as [(e & H & _) | (b & w1 & t1 & t2 & H & _ & ->)];
    rewrite call_run in H; injection H as _ _ <-; simpl; eauto.
Qed.

Lemma loop_head names w r w' tr :
  forEach migrateOne names w = (r, w', tr) ->
  tr = [] \/ exists outcome rest, tr = ETableExists outcome :: rest.
Proof.
  destruct names as [| name names]; simpl.
  - intros [= _ _ <-]. left. reflexivity.
  - intros H. right.
    apply bind_inv in H as [(e & H & _) | (u & w1 & t1 & t2 & H & _ & ->)];
      apply migrateOne_head in H as (outcome & rest & ->); simpl; eauto.
Qed.

(** The iteration for [name] inside the loop, after the iterations for
    [done] returned. *)
Lemma loop_at done name todo w0 w tdone tableExists w1 migration w2 w3
      newMigration w4 :
  forEach migrateOne done w0 = (Ok tt, w, tdone) ->
  db_isPrismaMigrationsTableExists C w = (Ok tableExists, w1) ->
  (if tableExists then db_getMigrationByName C name w1 else (Ok None, w1))
    = (Ok migration, w2) ->
  migrator_migrateTo C name w2 = (Ok tt, w3) ->
  db_getMigrationByName C name w3 = (Ok newMigration, w4) ->
  forEach migrateOne (done ++ name :: todo) w0 =
    let window := samplingWindow name tableExists migration newMigration in
    if beforeSample tableExists migration + 1 =? appliedStepsCount newMigration
    then
      match scriptRunner_runPostScript C (getMigrationPath name) w4 with
      | (Ok u, w5) =>
          let '(r, w', rest) := forEach migrateOne todo w5 in
          (r, w',
           tdone ++ window ++
           ELogInfo (postScriptMessage name) ::
           ERunPostScript (getMigrationPath name) (Ok u) :: rest)
      | (Err e, w5) =>
          (Err e, w5,
           tdone ++ window ++
           [ELogInfo (postScriptMessage name);
            ERunPostScript (getMigrationPath name) (Err e)])
      end
    else
      let '(r, w', rest) := forEach migrateOne todo w4 in
      (r, w', tdone ++ window ++ rest).
Proof.
  intros Hdone Htable Hrow Hengine Hnew.
  rewrite forEach_app, Hdone, forEach_cons. unfold bind.
  rewrite (migrateOne_sampled name w _ _ _ _ _ _ _ Htable Hrow Hengine Hnew).
  cbv zeta.
  destruct (beforeSample tableExists migration + 1 =? appliedStepsCount newMigration).
  - destruct (scriptRunner_runPostScript C _ w4) as [[[] | e] w5].
    + destruct (forEach migrateOne todo w5) as [[r w'] rest].
      rewrite <- !app_assoc. reflexivity.
    + reflexivity.
  - destruct (forEach migrateOne todo w4) as [[r w'] rest]. reflexivity.
Qed.

End LoopFacts.




(* ===================================================================== *)
(** * The run of migrate after the connection is open                     *)
(* ===================================================================== *)

Section TraceFacts.

Import Migrate.

Context {W : Type}.

Lemma tracked_ret {A} (a : A) : tracked (W := W) (ret a).
Proof.
  intros w r w' tr [= <- _ <-]. split; constructor.
Qed.

Lemma tracked_log (message : string) : tracked (W := W) (emit (ELogInfo message)).
Proof.
  intros w r w' tr [= <- _ <-].
  split; repeat constructor.
Qed.

Lemma tracked_call {A} (h : W -> Result A * W) (ev : Result A -> Event) :
  (forall r, isDisconnect (ev r) = false) ->
  (forall r, eventError (ev r) = outcomeError r) ->
  tracked (call h ev).
Proof.
  intros Hnot Herr w r w' tr. rewrite call_run. intros [= <- _ <-].
  split; [repeat constructor; apply Hnot |].
  destruct (h w).1 as [a | e] eqn:Hr.
  - repeat constructor. unfold succeeded. rewrite Herr. reflexivity.
  - exists [], (ev (Err e)). repeat split; [constructor |].
    rewrite Herr. reflexivity.
Qed.

Lemma tracked_bind {A B} (m : M W Event A) (k : A -> M W Event B) :
  tracked m -> (forall a, tracked (k a)) -> tracked (bind m k).
Proof.
  intros Hm Hk w r w' tr Hrun.
  apply bind_inv in Hrun
      as [(e & Hrun & ->) | (a & w1 & t1 & t2 & Hrun & Hrest & ->)].
  - exact (Hm _ _ _ _ Hrun).
  - destruct (Hm _ _ _ _ Hrun) as [Hnot1 Hok1].
    destruct (Hk a _ _ _ _ Hrest) as [Hnot2 Hres2].
    split; [apply Forall_app; auto |].
    destruct r as [b | e].
    + apply Forall_app; auto.
    + destruct Hres2 as (tr0 & ev & -> & Hok2 & Herr).
      exists (t1 ++ tr0), ev. rewrite app_assoc.
      repeat split; [apply Forall_app; auto | exact Herr].
Qed.

Lemma tracked_forEach {A} (body : A -> M W Event unit) (xs : list A) :
  (forall x, tracked (body x)) -> tracked (forEach body xs).
Proof.
  intros Hbody. induction xs as [| x xs IH]; simpl.
  - apply tracked_ret.
  - apply tracked_bind; [apply Hbody | intros _; exact IH].
Qed.

Variable C : Collaborators W.
Variable config : ConfigSchema.
Variable path : PathModule.

Lemma tracked_migrateOne name : tracked (migrateOne C config path name).
Proof.
  unfold migrateOne.
  apply tracked_bind; [apply tracked_call; reflexivity |]. intros tableExists.
  apply tracked_bind.
  { destruct tableExists; [apply tracked_call; reflexivity | apply tracked_ret]. }
  intros migration.
  apply tracked_bind; [apply tracked_call; reflexivity |]. intros _.
  apply tracked_bind; [apply tracked_call; reflexivity |]. intros newMigration.
  destruct (_ =? _).
  - apply tracked_bind; [apply tracked_log |]. intros _.
    apply tracked_call; reflexivity.
  - apply tracked_ret.
Qed.

Lemma tracked_finalAdvance migrations dataMigrations :
  tracked (finalAdvance C migrations dataMigrations).
Proof.
  unfold finalAdvance. destruct (bool_decide _).
  - apply tracked_call; reflexivity.
  - apply tracked_ret.
Qed.

(** Lines 136-158: the loop and the final advance. *)
Lemma tracked_until_disconnect migrations dataMigrations :
  tracked (bind (forEach (migrateOne C config path) dataMigrations)
                (fun _ => finalAdvance C migrations dataMigrations)).
Proof.
  apply tracked_bind.
  - apply tracked_forEach, tracked_migrateOne.
  - intros _. apply tracked_finalAdvance.
Qed.

Lemma migrateConnected_assoc migrations dataMigrations w :
  migrateConnected C config path migrations dataMigrations w =
  bind (bind (forEach (migrateOne C config path) dataMigrations)
             (fun _ => finalAdvance C migrations dataMigrations))
       (fun _ => call (db_disconnect C) EDisconnect) w.
Proof.
  unfold migrateConnected, bind.
  destruct (forEach _ dataMigrations w) as [[[[] | e] w1] t1]; [| reflexivity].
  destruct (finalAdvance C migrations dataMigrations w1) as [[[[] | e] w2] t2];
    [| reflexivity].
  destruct (call (db_disconnect C) EDisconnect w2) as [[r w3] t3].
  rewrite app_assoc. reflexivity.
Qed.

Lemma silent_ask {A} (h : W -> Result A) : silent (ask h).
Proof. intros w r w' tr [= _ <- <-]. auto. Qed.

Lemma silent_validate name : silent (validateMigrationName C config path name).
Proof.
  intros w r w' tr. unfold validateMigrationName, bind, ask.
  destruct (fs_readdirSync C _ w) as [entries | e].
  - destruct (existsb _ _); intros [= _ <- <-]; auto.
  - intros [= _ <- <-]. auto.
Qed.

Lemma silent_validation target :
  silent (match Js.truthy target with
          | Some t => validateMigrationName C config path t
          | None => ret tt
          end).
Proof.
  destruct (Js.truthy target); [apply silent_validate |].
  intros w r w' tr [= _ <- <-]. auto.
Qed.

(** A run of [migrate] whose trace starts with a successful [connect]. *)
Lemma migrate_connected_inv target includeTarget w r w' dataSource tr' :
  migrate C config path target includeTarget w
    = (r, w', EConnect dataSource (Ok tt) :: tr') ->
  exists entries w1,
    fs_readdirSync C (migrationsDirPath config path) w = Ok entries /\
    db_connect C dataSource w = (Ok tt, w1) /\
    let migrations :=
      selectMigrations (List.filter (validator_isMigration C) entries)
        target includeTarget in
    migrateConnected C config path migrations
      (List.filter (validator_isMigrationWithPostScript C) migrations) w1
    = (r, w', tr').
Proof.
  unfold migrate. intros H.
  apply bind_inv in H as [(e & H & _) | (u & wa & ta & tb & Hval & H & Htr)].
  { apply silent_validation in H as [_ H]. discriminate. }
  pose proof (silent_validation _ _ _ _ _ Hval) as [-> ->].
  simpl in Htr. subst tb.
  apply bind_inv in H as [(e & H & _) | (entries & wa & ta & tb & Hdir & H & Htr)];
    [apply silent_ask in H as [_ H]; discriminate |].
  pose proof (silent_ask _ _ _ _ _ Hdir) as [-> ->]. simpl in Htr. subst tb.
  unfold ask in Hdir. injection Hdir as Hdir.
  apply bind_inv in H as [(e & H & _) | (ds & wa & ta & tb & Hds & H & Htr)];
    [apply silent_ask in H as [_ H]; discriminate |].
  pose proof (silent_ask _ _ _ _ _ Hds) as [-> ->]. simpl in Htr. subst tb.
  apply bind_inv in H as [(e & H & _) | (u' & w1 & ta & tb & Hconn & H & Htr)];
    rewrite call_run in *;
    destruct (db_connect C ds w) as [rc wc] eqn:Hc; simpl in *.
  { inversion H; congruence. }
  inversion Hconn; subst. simpl in Htr. inversion Htr; subst.
  exists entries, w1. auto.
Qed.

End TraceFacts.

Section IterationFacts.

Import Migrate.

Context {W : Type}.
Variable C : Collaborators W.
Variable config : ConfigSchema.
Variable path : PathModule.

Local Abbreviation migrateOne := (Migrate.migrateOne C config path).
Local Abbreviation getMigrationPath := (Migrate.getMigrationPath config path).

Lemma bind_run {St Ev A B} (m : M St Ev A) (k : A -> M St Ev B) s :
  bind m k s =
    match m s with
    | (Ok a, s1, t1) => let '(r, s2, t2) := k a s1 in (r, s2, t1 ++ t2)
    | (Err e, s1, t1) => (Err e, s1, t1)
    end.
Proof. reflexivity. Qed.

(** What follows the loop: the final advance and [disconnect]. *)
Lemma afterLoop_head migrations dataMigrations w r w' tr :
  bind (finalAdvance C migrations dataMigrations)
       (fun _ => call (db_disconnect C) EDisconnect) w = (r, w', tr) ->
  forall message rest, tr <> ELogInfo message :: rest.
Proof.
  unfold finalAdvance. intros H message rest.
  destruct (bool_decide _).
  - apply bind_inv in H as [(e & H & _) | (u & w1 & t1 & t2 & H & _ & ->)];
      rewrite call_run in H; injection H as _ _ <-; discriminate.
  - rewrite bind_run in H. unfold ret in H. rewrite call_run in H.
    injection H as _ _ <-. discriminate.
Qed.

(** The rest of a run from the start of an iteration of the loop never
    begins with a log line. *)
Lemma resume_head migrations dataMigrations todo w r w' tr :
  bind (forEach migrateOne todo)
       (fun _ => bind (finalAdvance C migrations dataMigrations)
                      (fun _ => call (db_disconnect C) EDisconnect)) w
    = (r, w', tr) ->
  forall message rest, tr <> ELogInfo message :: rest.
Proof.
  intros H message rest.
  apply bind_inv in H as [(e & H & _) | (u & w1 & t1 & t2 & H & Hafter & ->)].
  - apply loop_head in H as [-> | (o & rest' & ->)]; discriminate.
  - apply loop_head in H as [-> | (o & rest' & ->)]; [| discriminate].
    simpl. exact (afterLoop_head _ _ _ _ _ _ Hafter message rest).
Qed.

(** [migrate] after [connect], seen from the iteration for [name]. *)
Lemma migrateConnected_at migrations done name todo w0 w tdone tableExists w1
      migration w2 w3 newMigration w4 :
  forEach migrateOne done w0 = (Ok tt, w, tdone) ->
  db_isPrismaMigrationsTableExists C w = (Ok tableExists, w1) ->
  (if tableExists then db_getMigrationByName C name w1 else (Ok None, w1))
    = (Ok migration, w2) ->
  migrator_migrateTo C name w2 = (Ok tt, w3) ->
  db_getMigrationByName C name w3 = (Ok newMigration, w4) ->
  let resume :=
    bind (forEach migrateOne todo)
         (fun _ => bind (finalAdvance C migrations (done ++ name :: todo))
                        (fun _ => call (db_disconnect C) EDisconnect)) in
  migrateConnected C config path migrations (done ++ name :: todo) w0 =
    let window := samplingWindow name tableExists migration newMigration in
    if beforeSample tableExists migration + 1 =? appliedStepsCount newMigration
    then
      match scriptRunner_runPostScript C (getMigrationPath name) w4 with
      | (Ok u, w5) =>
          let '(r, w', rest) := resume w5 in
          (r, w',
           tdone ++ window ++
           ELogInfo (postScriptMessage name) ::
           ERunPostScript (getMigrationPath name) (Ok u) :: rest)
      | (Err e, w5) =>
          (Err e, w5,
           tdone ++ window ++
           [ELogInfo (postScriptMessage name);
            ERunPostScript (getMigrationPath name) (Err e)])
      end
    else
      let '(r, w', rest) := resume w4 in
      (r, w', tdone ++ window ++ rest).
Proof.
  intros Hdone Htable Hrow Hengine Hnew resume.
  unfold migrateConnected. rewrite bind_run.
  rewrite (loop_at C config path done name todo w0 w tdone tableExists w1
             migration w2 w3 newMigration w4 Hdone Htable Hrow Hengine Hnew).
  cbv zeta. subst resume.
  destruct (beforeSample tableExists migration + 1 =? appliedStepsCount newMigration).
  - destruct (scriptRunner_runPostScript C _ w4) as [[[] | e] w5];
      [| reflexivity].
    rewrite bind_run.
    destruct (forEach migrateOne todo w5) as [[[[] | e] w6] t6]; [| reflexivity].
    destruct (bind _ _ w6) as [[r w7] t7].
    rewrite <- !app_assoc. reflexivity.
  - rewrite bind_run.
    destruct (forEach migrateOne todo w4) as [[[[] | e] w6] t6]; [| reflexivity].
    destruct (bind _ _ w6) as [[r w7] t7].
    rewrite <- !app_assoc. reflexivity.
Qed.

End IterationFacts.

(** C1.  Take a run of [migrate] that opened the connection, and a migration
    [name] of the post-script-bearing migrations of the target slice, which
    the loop reaches after the iterations for the migrations [done] before it
    returned.  Let the four calls of its iteration return: whether the
    history table exists, the row before (read only when the table exists),
    the engine advance, the row after.  With [before] the count of the row
    before, 0 when the table or the row is missing, and [after] the count of
    the row after, the trace of the run goes on with the post-script of
    [name] if and only if [after = before + 1]: then the post-script runner
    is called on the directory of [name], and the run continues with the
    migrations after [name] when it returns and ends with its error when it
    throws.  Otherwise (delta 0, delta above 1) nothing is run for [name] and
    the run continues with the migrations after [name], the final advance and
    [disconnect]. *)
Theorem post_script_runs_iff_delta_is_one :
  forall (W : Type) (C : Migrate.Collaborators W) (config : ConfigSchema)
         (path : PathModule) (target : option string) (includeTarget : bool)
         (w : W) (r : Result unit) (w' : W) (dataSource : DataSourceConfig)
         (tr' : list Migrate.Event) (entries : list string) (w0 : W)
         (done : list string) (name : string) (todo : list string)
         (wd : W) (tdone : list Migrate.Event)
         (tableExists : bool) (w1 : W) (migration : option MigrationModel)
         (w2 w3 : W) (newMigration : option MigrationModel) (w4 : W),
    Migrate.fs_readdirSync C (Migrate.migrationsDirPath config path) w
      = Ok entries ->
    Migrate.migrate C config path target includeTarget w
      = (r, w', Migrate.EConnect dataSource (Ok tt) :: tr') ->
    Migrate.db_connect C dataSource w = (Ok tt, w0) ->
    let migrations :=
      Migrate.selectMigrations
        (List.filter (Migrate.validator_isMigration C) entries)
        target includeTarget in
    let dataMigrations :=
      List.filter (Migrate.validator_isMigrationWithPostScript C) migrations in
    dataMigrations = done ++ name :: todo ->
    forEach (Migrate.migrateOne C config path) done w0 = (Ok tt, wd, tdone) ->
    Migrate.db_isPrismaMigrationsTableExists C wd = (Ok tableExists, w1) ->
    (if tableExists then Migrate.db_getMigrationByName C name w1
     else (Ok None, w1)) = (Ok migration, w2) ->
    Migrate.migrator_migrateTo C name w2 = (Ok tt, w3) ->
    Migrate.db_getMigrationByName C name w3 = (Ok newMigration, w4) ->
    let before := Migrate.beforeSample tableExists migration in
    let after := Migrate.appliedStepsCount newMigration in
    let script := Migrate.getMigrationPath config path name in
    let postScript := Migrate.scriptRunner_runPostScript C script w4 in
    let resume :=
      let* _ := forEach (Migrate.migrateOne C config path) todo in
      let* _ := Migrate.finalAdvance C migrations dataMigrations in
      call (Migrate.db_disconnect C) Migrate.EDisconnect in
    In name migrations /\
    Migrate.validator_isMigrationWithPostScript C name = true /\
    (tableExists = false \/ migration = None -> before = 0) /\
    exists rest,
      tr' = tdone ++
            Migrate.samplingWindow name tableExists migration newMigration ++
            rest /\
      ((exists outcome rest',
           rest = Migrate.ELogInfo (Migrate.postScriptMessage name) ::
                  Migrate.ERunPostScript script outcome :: rest')
       <-> after = before + 1) /\
      (after = before + 1 ->
       exists rest',
         rest = Migrate.ELogInfo (Migrate.postScriptMessage name) ::
                Migrate.ERunPostScript script postScript.1 :: rest' /\
         match postScript.1 with
         | Ok _ => resume postScript.2 = (r, w', rest')
         | Err e => r = Err e /\ w' = postScript.2 /\ rest' = []
         end) /\
      (after <> before + 1 -> resume w4 = (r, w', rest)).
Proof.
  intros W C config path target includeTarget w r w' dataSource tr' entries
    w0 done name todo wd tdone tableExists w1 migration w2 w3 newMigration w4
    Hdir Hrun Hconn migrations dataMigrations Hsplit Hdone Htable Hrow Hengine
    Hnew before after script postScript resume.
  assert (Hname : In name dataMigrations)
    by (rewrite Hsplit; apply in_or_app; right; left; reflexivity).
  apply List.filter_In in Hname as [Hin Hpost].
  split; [exact Hin |]. split; [exact Hpost |]. split.
  { intros [-> | ->]; subst before; [reflexivity |].
    destruct tableExists; reflexivity. }
  apply migrate_connected_inv in Hrun as (entries' & w0' & Hdir' & Hconn' & Hrun).
  assert (entries' = entries) as -> by congruence.
  assert (w0' = w0) as -> by congruence.
  cbv zeta in Hrun. fold migrations dataMigrations in Hrun.
  subst resume. revert Hrun. rewrite Hsplit. intros Hrun.
  rewrite (migrateConnected_at C config path migrations done name todo w0 wd
             tdone tableExists w1 migration w2 w3 newMigration w4
             Hdone Htable Hrow Hengine Hnew) in Hrun.
  cbv zeta in Hrun. fold before after script in Hrun. fold postScript in Hrun.
  destruct (before + 1 =? after) eqn:Hdelta.
  - apply Z.eqb_eq in Hdelta.
    destruct postScript as [[[] | e] w5]; simpl.
    + destruct (bind _ _ w5) as [[r5 w6] rest'] eqn:Hresume.
      injection Hrun as <- <- <-.
      eexists. split; [reflexivity |]. split; [| split].
      * split; [lia | eauto].
      * intros _. exists rest'. auto.
      * lia.
    + injection Hrun as <- <- <-.
      eexists. split; [reflexivity |]. split; [| split].
      * split; [lia | eauto].
      * intros _. exists []. auto.
      * lia.
  - apply Z.eqb_neq in Hdelta.
    destruct (bind _ _ w4) as [[r5 w6] rest] eqn:Hresume.
    injection Hrun as <- <- <-.
    exists rest. split; [reflexivity |]. split; [| split].
    + split; [| lia]. intros (outcome & rest' & ->). exfalso.
      exact (resume_head C config path _ _ _ _ _ _ _ Hresume _ _ eq_refl).
    + lia.
    + intros _. reflexivity.
Qed.

Lemma post_script_runs_iff_delta_is_one_witness :
  let before := Some {| migration_name := "002_add_col"; applied_steps_count := 3 |} in
  let after := Some {| migration_name := "002_add_col"; applied_steps_count := 4 |} in
  let unchanged := Some {| migration_name := "002_add_col"; applied_steps_count := 3 |} in
  (* one step applied: the post-script runs *)
  (exists rest',
      (Sim.migrate ["002_add_col"] None true (Sim.recorded 1)).2
      = Migrate.EConnect Sim.dataSource (Ok tt) ::
        Migrate.samplingWindow "002_add_col" true before after ++
        Migrate.ELogInfo (Migrate.postScriptMessage "002_add_col") ::
        Migrate.ERunPostScript "/app/prisma/migrations/002_add_col" (Ok tt) ::
        rest') /\
  (* no step applied: the run goes on to the end of the slice *)
  (Sim.migrate ["002_add_col"] None true (Sim.recorded 0)).2
  = Migrate.EConnect Sim.dataSource (Ok tt) ::
    Migrate.samplingWindow "002_add_col" true before unchanged ++
    [Migrate.EMigrateTo "003_seed" (Ok tt); Migrate.EDisconnect (Ok tt)].
Proof.
  intros before after unchanged.
  pose (C := Sim.collaborators ["002_add_col"]).
  split.
  - pose (run := Migrate.migrate C Sim.config Sim.path None true (Sim.recorded 1)).
    pose (w3 := (Sim.migrateTo "002_add_col" (Sim.recorded 1)).2).
    destruct (post_script_runs_iff_delta_is_one Sim.World C Sim.config Sim.path
                None true (Sim.recorded 1) run.1.1 run.1.2 Sim.dataSource
                (tail run.2) Sim.exampleEntries (Sim.recorded 1)
                [] "002_add_col" [] (Sim.recorded 1) []
                true (Sim.recorded 1) before (Sim.recorded 1) w3 after w3
                eq_refl
                ltac:(vm_compute; reflexivity)
                eq_refl
                ltac:(vm_compute; reflexivity)
                eq_refl eq_refl
                ltac:(vm_compute; reflexivity)
                ltac:(vm_compute; reflexivity)
                ltac:(vm_compute; reflexivity))
      as (_ & _ & _ & rest & Htail & _ & Hone & _).
    destruct (Hone eq_refl) as (rest' & -> & _).
    exists rest'.
    transitivity (Migrate.EConnect Sim.dataSource (Ok tt) :: tail run.2);
      [vm_compute; reflexivity | rewrite Htail; reflexivity].
  - pose (run := Migrate.migrate C Sim.config Sim.path None true (Sim.recorded 0)).
    pose (w3 := (Sim.migrateTo "002_add_col" (Sim.recorded 0)).2).
    destruct (post_script_runs_iff_delta_is_one Sim.World C Sim.config Sim.path
                None true (Sim.recorded 0) run.1.1 run.1.2 Sim.dataSource
                (tail run.2) Sim.exampleEntries (Sim.recorded 0)
                [] "002_add_col" [] (Sim.recorded 0) []
                true (Sim.recorded 0) before (Sim.recorded 0) w3 unchanged w3
                eq_refl
                ltac:(vm_compute; reflexivity)
                eq_refl
                ltac:(vm_compute; reflexivity)
                eq_refl eq_refl
                ltac:(vm_compute; reflexivity)
                ltac:(vm_compute; reflexivity)
                ltac:(vm_compute; reflexivity))
      as (_ & _ & _ & rest & Htail & _ & _ & Hskip).
    assert (Hrest : rest = [Migrate.EMigrateTo "003_seed" (Ok tt);
                            Migrate.EDisconnect (Ok tt)]).
    { specialize (Hskip ltac:(vm_compute; discriminate)).
      apply (f_equal snd) in Hskip. vm_compute in Hskip.
      symmetry. exact Hskip. }
    transitivity (Migrate.EConnect Sim.dataSource (Ok tt) :: tail run.2);
      [vm_compute; reflexivity | rewrite Htail, Hrest; reflexivity].
Defined.

(** C2, as the code has it.  In a run of [migrate] that opened the
    connection, either every call after [connect] up to [disconnect] returned,
    [disconnect] is the last call and its outcome is the outcome of the run;
    or a call other than [disconnect] (engine advance, history sampling,
    post-script) threw, it is the last call, its error is the error of the run
    and [disconnect] is not called. *)
Theorem disconnect_only_after_success :
  forall (W : Type) (C : Migrate.Collaborators W) (config : ConfigSchema)
         (path : PathModule) (target : option string) (includeTarget : bool)
         (w : W) (r : Result unit) (w' : W) (dataSource : DataSourceConfig)
         (tr' : list Migrate.Event),
    Migrate.migrate C config path target includeTarget w
      = (r, w', Migrate.EConnect dataSource (Ok tt) :: tr') ->
    (exists tr0 outcome,
        tr' = tr0 ++ [Migrate.EDisconnect outcome] /\
        Forall Migrate.notDisconnect tr0 /\
        Forall Migrate.succeeded tr0 /\
        r = outcome) \/
    (exists tr0 ev e,
        tr' = tr0 ++ [ev] /\
        Forall Migrate.notDisconnect tr' /\
        Forall Migrate.succeeded tr0 /\
        Migrate.eventError ev = Some e /\
        r = Err e).
Proof.
  intros W C config path target includeTarget w r w' dataSource tr' Hrun.
  apply migrate_connected_inv in Hrun as (entries & w1 & _ & _ & Hrun).
  cbv zeta in Hrun. rewrite migrateConnected_assoc in Hrun.
  apply bind_inv in Hrun
      as [(e & Hbody & ->) | (u & w2 & t1 & t2 & Hbody & Hdisc & ->)];
    apply tracked_until_disconnect in Hbody as [Hnot Hres].
  - right. destruct Hres as (tr0 & ev0 & -> & Hok & Herr).
    exists tr0, ev0, e. auto.
  - left. rewrite call_run in Hdisc. injection Hdisc as <- _ <-.
    exists t1, (Migrate.db_disconnect C w2).1. auto.
Qed.

Lemma disconnect_only_after_success_witness :
  (exists w' tr0,
      Sim.migrate ["002_add_col"] None true Sim.fresh
        = (Ok tt, w',
           Migrate.EConnect Sim.dataSource (Ok tt) ::
           tr0 ++ [Migrate.EDisconnect (Ok tt)]) /\
      Forall Migrate.notDisconnect tr0) /\
  (exists w' tr',
      Sim.migrate ["002_add_col"] None true Sim.broken
        = (Err (JsError "migrate resolve failed: 002_add_col"), w',
           Migrate.EConnect Sim.dataSource (Ok tt) :: tr') /\
      Forall Migrate.notDisconnect tr').
Proof.
  pose (C := Sim.collaborators ["002_add_col"]).
  split.
  - pose (run := Migrate.migrate C Sim.config Sim.path None true Sim.fresh).
    assert (Hrun : Migrate.migrate C Sim.config Sim.path None true Sim.fresh
                   = (Ok tt, run.1.2,
                      Migrate.EConnect Sim.dataSource (Ok tt) :: tail run.2))
      by (vm_compute; reflexivity).
    destruct (disconnect_only_after_success Sim.World C Sim.config
                Sim.path None true Sim.fresh _ _ _ _ Hrun)
      as [(tr0 & outcome & Htail & Hnot & _ & <-)
         | (tr0 & ev & e & _ & _ & _ & _ & Hr)]; [| discriminate Hr].
    exists run.1.2, tr0. split; [| exact Hnot].
    rewrite <- Htail. exact Hrun.
  - pose (run := Migrate.migrate C Sim.config Sim.path None true Sim.broken).
    assert (Hrun : Migrate.migrate C Sim.config Sim.path None true Sim.broken
                   = (Err (JsError "migrate resolve failed: 002_add_col"),
                      run.1.2,
                      Migrate.EConnect Sim.dataSource (Ok tt) :: tail run.2))
      by (vm_compute; reflexivity).
    exists run.1.2, (tail run.2). split; [exact Hrun |].
    destruct (disconnect_only_after_success Sim.World C Sim.config
                Sim.path None true Sim.broken _ _ _ _ Hrun)
      as [(tr0 & outcome & Htail & _) | (tr0 & ev & e & _ & Hnot & _)];
      [| exact Hnot].
    exfalso. vm_compute in Htail.
    destruct tr0 as [| e0 [| e1 [| e2 tr0]]]; discriminate Htail.
Defined.

(** C2 as the design document words it fails: the engine throws on the
    first advance, after the connection was opened, and the run ends with
    that error without a call of [disconnect]. *)
Lemma disconnect_on_failure_counterexample :
  exists w' tr,
    Sim.migrate ["002_add_col"] None true Sim.broken
    = (Err (JsError "migrate resolve failed: 002_add_col"), w', tr) /\
    tr = [ Migrate.EConnect Sim.dataSource (Ok tt);
           Migrate.ETableExists (Ok false);
           Migrate.EMigrateTo "002_add_col"
             (Err (JsError "migrate resolve failed: 002_add_col")) ] /\
    forall outcome, ~ In (Migrate.EDisconnect outcome) tr.
Proof.
  eexists _, _. split; [vm_compute; reflexivity |]. split; [reflexivity |].
  intros outcome [H | [H | [H | []]]]; discriminate H.
Qed.

(* ===================================================================== *)
(** * Engine calls                                                        *)
(* ===================================================================== *)

Section EngineCalls.

Import Migrate.

Context {W : Type}.
Variable C : Collaborators W.
Variable config : ConfigSchema.
Variable path : PathModule.

Lemma engineCalls_app (t1 t2 : list Event) :
  engineCalls (t1 ++ t2) = engineCalls t1 ++ engineCalls t2.
Proof.
  induction t1 as [| ev t1 IH]; simpl; [reflexivity |].
  destruct ev; simpl; rewrite IH; reflexivity.
Qed.

(** An iteration that returns has called the engine once, on its
    migration. *)
Lemma migrateOne_engineCalls name w w' tr :
  migrateOne C config path name w = (Ok tt, w', tr) ->
  engineCalls tr = [name].
Proof.
  unfold migrateOne, bind, call, ret, emit.
  destruct (db_isPrismaMigrationsTableExists C w) as [[[|] | e] w1];
    [| | discriminate].
  - destruct (db_getMigrationByName C name w1) as [[migration | e] w2];
      [| discriminate].
    destruct (migrator_migrateTo C name w2) as [[[] | e] w3]; [| discriminate].
    destruct (db_getMigrationByName C name w3) as [[newMigration | e] w4];
      [| discriminate].
    destruct (_ =? _).
    + destruct (scriptRunner_runPostScript C _ w4) as [[[] | e] w5];
        intros [= _ <-]; reflexivity.
    + intros [= _ <-]. reflexivity.
  - destruct (migrator_migrateTo C name w1) as [[[] | e] w3]; [| discriminate].
    destruct (db_getMigrationByName C name w3) as [[newMigration | e] w4];
      [| discriminate].
    destruct (_ =? _).
    + destruct (scriptRunner_runPostScript C _ w4) as [[[] | e] w5];
        intros [= _ <-]; reflexivity.
    + intros [= _ <-]. reflexivity.
Qed.

(** A loop that returns has called the engine once per migration, in
    order. *)
Lemma loop_engineCalls names w w' tr :
  forEach (migrateOne C config path) names w = (Ok tt, w', tr) ->
  engineCalls tr = names.
Proof.
  revert w tr. induction names as [| name names IH]; intros w tr; simpl.
  - intros [= _ <-]. reflexivity.
  - intros H.
    apply bind_inv in H as [(e & _ & He) | (u & w1 & t1 & t2 & H1 & H2 & ->)];
      [discriminate |].
    destruct u. rewrite engineCalls_app, (migrateOne_engineCalls _ _ _ _ H1),
      (IH _ _ H2). reflexivity.
Qed.

Lemma finalAdvance_run migrations dataMigrations w r w' tr :
  finalAdvance C migrations dataMigrations w = (r, w', tr) ->
  engineCalls tr =
    if bool_decide (last dataMigrations <> last migrations)
    then [default "" (last migrations)] else [].
Proof.
  unfold finalAdvance. destruct (bool_decide _).
  - rewrite call_run. intros [= _ _ <-]. reflexivity.
  - intros [= _ _ <-]. reflexivity.
Qed.

Lemma last_filter_keeps (p : string -> bool) (l : list string) (m : string) :
  last l = Some m -> p m = true -> last (List.filter p l) = Some m.
Proof.
  intros Hlast Hp. apply last_Some in Hlast as [l' ->].
  rewrite List.filter_app. simpl. rewrite Hp. apply last_snoc.
Qed.

End EngineCalls.

(** C9.  Let the connection be open and the loop over the post-script-bearing
    migrations return.  What follows the loop contains one engine call, to the
    last migration of the slice, when the last post-script-bearing migration
    is not the last migration of the slice, and no engine call otherwise; in
    particular none when the last migration of the slice bears a post-script,
    and the run makes no engine call at all when the slice is empty.  The loop
    itself calls the engine once per post-script-bearing migration. *)
Theorem final_advance_iff_last_differs :
  forall (W : Type) (C : Migrate.Collaborators W) (config : ConfigSchema)
         (path : PathModule) (target : option string) (includeTarget : bool)
         (w : W) (r : Result unit) (w' : W) (dataSource : DataSourceConfig)
         (tr' : list Migrate.Event) (entries : list string) (w1 w2 : W)
         (tloop : list Migrate.Event),
    Migrate.fs_readdirSync C (Migrate.migrationsDirPath config path) w
      = Ok entries ->
    Migrate.migrate C config path target includeTarget w
      = (r, w', Migrate.EConnect dataSource (Ok tt) :: tr') ->
    Migrate.db_connect C dataSource w = (Ok tt, w1) ->
    let migrations :=
      Migrate.selectMigrations
        (List.filter (Migrate.validator_isMigration C) entries)
        target includeTarget in
    let dataMigrations :=
      List.filter (Migrate.validator_isMigrationWithPostScript C) migrations in
    forEach (Migrate.migrateOne C config path) dataMigrations w1
      = (Ok tt, w2, tloop) ->
    exists afterLoop,
      tr' = tloop ++ afterLoop /\
      Migrate.engineCalls tloop = dataMigrations /\
      (last dataMigrations <> last migrations ->
       exists m, last migrations = Some m /\
                 Migrate.engineCalls afterLoop = [m]) /\
      (last dataMigrations = last migrations ->
       Migrate.engineCalls afterLoop = []) /\
      (forall m, last migrations = Some m ->
                 Migrate.validator_isMigrationWithPostScript C m = true ->
                 Migrate.engineCalls afterLoop = []) /\
      (migrations = [] ->
       Migrate.engineCalls (Migrate.EConnect dataSource (Ok tt) :: tr') = []).
Proof.
  intros W C config path target includeTarget w r w' dataSource tr' entries
    w1 w2 tloop Hdir Hrun Hconn migrations dataMigrations Hloop.
  apply migrate_connected_inv in Hrun as (entries' & w1' & Hdir' & Hconn' & Hrun).
  assert (entries' = entries) as -> by congruence.
  assert (w1' = w1) as -> by congruence.
  cbv zeta in Hrun. fold migrations dataMigrations in Hrun.
  unfold Migrate.migrateConnected in Hrun.
  rewrite (bind_ok _ _ _ _ _ _ Hloop) in Hrun.
  destruct (bind (Migrate.finalAdvance C migrations dataMigrations)
              (fun _ => call (Migrate.db_disconnect C) Migrate.EDisconnect) w2)
    as [[r3 w3] t3] eqn:Hrest.
  injection Hrun as <- <- <-.
  assert (Hcalls : Migrate.engineCalls t3 =
                     if bool_decide (last dataMigrations <> last migrations)
                     then [default "" (last migrations)] else []).
  { apply bind_inv in Hrest
        as [(e & Hfin & _) | (u & w4 & t4 & t5 & Hfin & Hdisc & ->)].
    - exact (finalAdvance_run C _ _ _ _ _ _ Hfin).
    - rewrite call_run in Hdisc. injection Hdisc as _ _ <-.
      rewrite engineCalls_app, (finalAdvance_run C _ _ _ _ _ _ Hfin).
      simpl. apply app_nil_r. }
  exists t3. split; [reflexivity |]. split; [| split; [| split; [| split]]].
  - exact (loop_engineCalls C config path _ _ _ _ Hloop).
  - intros Hdiff. rewrite bool_decide_eq_true_2 in Hcalls by exact Hdiff.
    destruct (last migrations) as [m |] eqn:Hlast; [eauto |].
    exfalso. apply Hdiff. apply last_None in Hlast.
    subst dataMigrations. rewrite Hlast. reflexivity.
  - intros Hsame. rewrite bool_decide_eq_false_2 in Hcalls; [exact Hcalls |].
    intros Hdiff. exact (Hdiff Hsame).
  - intros m Hlast Hpost.
    rewrite bool_decide_eq_false_2 in Hcalls; [exact Hcalls |].
    intros Hdiff. apply Hdiff. subst dataMigrations.
    rewrite Hlast. apply last_filter_keeps; assumption.
  - intros Hempty. simpl. rewrite engineCalls_app.
    rewrite (loop_engineCalls C config path _ _ _ _ Hloop), Hcalls.
    subst dataMigrations. rewrite Hempty. reflexivity.
Qed.

Lemma final_advance_iff_last_differs_witness :
  let C := Sim.collaborators ["002_add_col"] in
  let loop w := forEach (Migrate.migrateOne C Sim.config Sim.path)
                  ["002_add_col"] w in
  (* target 002_add_col, included: the slice ends with a post-script *)
  (exists afterLoop,
      (Sim.migrate ["002_add_col"] (Some "002_add_col") true Sim.fresh).2
        = Migrate.EConnect Sim.dataSource (Ok tt) ::
          (loop Sim.fresh).2 ++ afterLoop /\
      Migrate.engineCalls (loop Sim.fresh).2 = ["002_add_col"] /\
      Migrate.engineCalls afterLoop = []) /\
  (* no target: the slice ends with 003_seed, which has no post-script *)
  (exists afterLoop,
      (Sim.migrate ["002_add_col"] None true Sim.fresh).2
        = Migrate.EConnect Sim.dataSource (Ok tt) ::
          (loop Sim.fresh).2 ++ afterLoop /\
      Migrate.engineCalls afterLoop = ["003_seed"]).
Proof.
  intros C loop. split.
  - pose (run := Migrate.migrate C Sim.config Sim.path (Some "002_add_col")
                   true Sim.fresh).
    destruct (final_advance_iff_last_differs Sim.World C Sim.config Sim.path
                (Some "002_add_col") true Sim.fresh run.1.1 run.1.2
                Sim.dataSource (tail run.2) Sim.exampleEntries Sim.fresh
                (loop Sim.fresh).1.2 (loop Sim.fresh).2
                eq_refl
                ltac:(vm_compute; reflexivity)
                eq_refl
                ltac:(vm_compute; reflexivity))
      as (afterLoop & Htail & Hloop & _ & Hsame & _).
    exists afterLoop. split; [| split].
    + change (run.2 = Migrate.EConnect Sim.dataSource (Ok tt) ::
                      (loop Sim.fresh).2 ++ afterLoop).
      rewrite <- Htail. vm_compute. reflexivity.
    + exact Hloop.
    + apply Hsame. vm_compute. reflexivity.
  - pose (run := Migrate.migrate C Sim.config Sim.path None true Sim.fresh).
    destruct (final_advance_iff_last_differs Sim.World C Sim.config Sim.path
                None true Sim.fresh run.1.1 run.1.2
                Sim.dataSource (tail run.2) Sim.exampleEntries Sim.fresh
                (loop Sim.fresh).1.2 (loop Sim.fresh).2
                eq_refl
                ltac:(vm_compute; reflexivity)
                eq_refl
                ltac:(vm_compute; reflexivity))
      as (afterLoop & Htail & _ & Hdiff & _).
    exists afterLoop. split.
    + change (run.2 = Migrate.EConnect Sim.dataSource (Ok tt) ::
                      (loop Sim.fresh).2 ++ afterLoop).
      rewrite <- Htail. vm_compute. reflexivity.
    + destruct Hdiff as (m & Hlast & Hcalls).
      * vm_compute. discriminate.
      * vm_compute in Hlast. injection Hlast as <-. exact Hcalls.
Defined.

(* ===================================================================== *)
(** * Validation of the target                                            *)
(* ===================================================================== *)

Lemma existsb_eqb_In (x : string) (l : list string) :
  existsb (String.eqb x) l = true <-> In x l.
Proof.
  rewrite existsb_exists. split.
  - intros (y & Hin & Heq). apply String.eqb_eq in Heq. subst. exact Hin.
  - intros Hin. exists x. split; [exact Hin | apply String.eqb_refl].
Qed.

(** C4, as the code has it.  A supplied target that is not the empty name is
    checked against the names recognized as migrations in the migrations
    directory.  When it is one of them the validation passes; when it is
    not, [migrate] fails with the [InvalidMigrationName] error before it
    calls anything, so a run that called a collaborator had a recognized
    target.  The empty name as target is taken for no target ([if
    (targetMigration)]): it is not validated, the run is the run without a
    target and the slice is the whole list. *)
Theorem unrecognized_target_is_rejected :
  forall (W : Type) (C : Migrate.Collaborators W) (config : ConfigSchema)
         (path : PathModule) (target : string) (includeTarget : bool)
         (w : W) (entries : list string),
    Migrate.fs_readdirSync C (Migrate.migrationsDirPath config path) w
      = Ok entries ->
    let recognized := List.filter (Migrate.validator_isMigration C) entries in
    (target <> "" ->
     (In target recognized ->
      Migrate.validateMigrationName C config path target w = (Ok tt, w, [])) /\
     (~ In target recognized ->
      Migrate.migrate C config path (Some target) includeTarget w
        = (Err (JsError (Migrate.invalidMigrationNameMessage target)), w, [])) /\
     (forall r w' tr,
         Migrate.migrate C config path (Some target) includeTarget w
           = (r, w', tr) ->
         tr <> [] -> In target recognized)) /\
    Migrate.migrate C config path (Some "") includeTarget w
      = Migrate.migrate C config path None includeTarget w /\
    Migrate.selectMigrations recognized (Some "") includeTarget = recognized.
Proof.
  intros W C config path target includeTarget w entries Hdir recognized.
  split; [| split].
  - intros Hne.
    assert (Hval : Migrate.validateMigrationName C config path target w =
                     if existsb (String.eqb target) recognized
                     then (Ok tt, w, [])
                     else (Err (JsError (Migrate.invalidMigrationNameMessage target)),
                           w, [])).
    { unfold Migrate.validateMigrationName, bind, Migrate.ask. rewrite Hdir.
      fold recognized. destruct (existsb _ recognized); reflexivity. }
    assert (Hreject : ~ In target recognized ->
              Migrate.migrate C config path (Some target) includeTarget w
              = (Err (JsError (Migrate.invalidMigrationNameMessage target)), w, [])).
    { intros Hnotin. unfold Migrate.migrate. simpl.
      destruct (String.eqb_spec target "") as [-> | _]; [contradiction |].
      apply bind_err. rewrite Hval.
      destruct (existsb (String.eqb target) recognized) eqn:Hex; [| reflexivity].
      apply existsb_eqb_In in Hex. contradiction. }
    split; [| split].
    + intros Hin. rewrite Hval.
      rewrite (proj2 (existsb_eqb_In target recognized) Hin). reflexivity.
    + exact Hreject.
    + intros r w' tr Hrun Htr.
      destruct (in_dec String.string_dec target recognized) as [Hin | Hnotin];
        [exact Hin |].
      rewrite (Hreject Hnotin) in Hrun. injection Hrun as _ _ <-. contradiction.
  - reflexivity.
  - unfold Migrate.selectMigrations. simpl.
    apply slice0_whole. destruct includeTarget; lia.
Qed.

Lemma unrecognized_target_is_rejected_witness :
  Sim.migrate ["002_add_col"] (Some "004_missing") true Sim.fresh
    = (Err (JsError "InvalidMigrationName: 004_missing"), Sim.fresh, []) /\
  Migrate.validateMigrationName (Sim.collaborators ["002_add_col"])
      Sim.config Sim.path "002_add_col" Sim.fresh
    = (Ok tt, Sim.fresh, []) /\
  Sim.migrate ["002_add_col"] (Some "") true Sim.fresh
    = Sim.migrate ["002_add_col"] None true Sim.fresh.
Proof.
  pose (C := Sim.collaborators ["002_add_col"]).
  split; [| split].
  - apply (proj1 (proj2 (proj1 (unrecognized_target_is_rejected Sim.World C
                                  Sim.config Sim.path "004_missing" true
                                  Sim.fresh Sim.exampleEntries eq_refl)
                          ltac:(discriminate)))).
    vm_compute. intuition discriminate.
  - apply (proj1 (proj1 (unrecognized_target_is_rejected Sim.World C Sim.config
                           Sim.path "002_add_col" true Sim.fresh
                           Sim.exampleEntries eq_refl)
                   ltac:(discriminate))).
    vm_compute. auto.
  - exact (proj1 (proj2 (unrecognized_target_is_rejected Sim.World C Sim.config
                           Sim.path "002_add_col" true Sim.fresh
                           Sim.exampleEntries eq_refl))).
Defined.

(** C4 as the design document words it fails on the empty name: it is not a
    recognized migration, and [migrate] called with it does not fail, it
    applies the whole list. *)
Lemma empty_target_is_not_validated_counterexample :
  ~ In "" (List.filter
             (Migrate.validator_isMigration (Sim.collaborators ["002_add_col"]))
             Sim.exampleEntries) /\
  exists w',
    Sim.migrate ["002_add_col"] (Some "") true Sim.fresh
    = (Ok tt, w',
       [ Migrate.EConnect Sim.dataSource (Ok tt);
         Migrate.ETableExists (Ok false);
         Migrate.EMigrateTo "002_add_col" (Ok tt);
         Migrate.EGetMigrationByName "002_add_col"
           (Ok (Some {| migration_name := "002_add_col";
                        applied_steps_count := 1 |}));
         Migrate.ELogInfo
           "Executing post-migrate script for migration: 002_add_col";
         Migrate.ERunPostScript "/app/prisma/migrations/002_add_col" (Ok tt);
         Migrate.EMigrateTo "003_seed" (Ok tt);
         Migrate.EDisconnect (Ok tt) ]).
Proof.
  split.
  - vm_compute. intuition discriminate.
  - eexists. vm_compute. reflexivity.
Qed.

(* ===================================================================== *)
(** * The temp schema file of a code generation                           *)
(* ===================================================================== *)

Section GenerateFacts.

Import Generate.

Variable config : ConfigSchema.
Variable path : PathModule.
Variable parsePrismaSchema : string -> Result PrismaSchema.
Variable formatAst : PrismaSchema -> string.
Variable PrismaCLI_generate :
  string -> gmap string string -> Result unit * gmap string string.

(** [createTempSchema] records no event, and when it returns the file is
    there. *)
Lemma createTempSchema_run src out temp (files : gmap string string) r files' tr :
  createTempSchema path parsePrismaSchema formatAst src out temp files
    = (r, files', tr) ->
  tr = [] /\ (is_ok r = true -> exists content, files' !! temp = Some content).
Proof.
  unfold createTempSchema, bind, fs_readFile, lift, fs_mkdir, fs_writeFile, ret.
  destruct (files !! src) as [content |];
    [| intros [= <- _ <-]; split; [reflexivity | discriminate]].
  destruct (parsePrismaSchema content) as [ast | e];
    [| intros [= <- _ <-]; split; [reflexivity | discriminate]].
  destruct (TempSchema.updateGenerator ast out) as [ast' | e];
    [| intros [= <- _ <-]; split; [reflexivity | discriminate]].
  intros [= <- <- <-]. split; [reflexivity |]. intros _.
  exists (formatAst ast'). apply lookup_insert_eq.
Qed.

(** [try { generate } finally { rmSync }]: both calls are made, in this
    order, and the file is gone afterwards. *)
Lemma generateAndRemove_run temp (files : gmap string string) r files' tr :
  generateAndRemove PrismaCLI_generate temp files = (r, files', tr) ->
  exists removal,
    tr = [EPrismaGenerate temp (PrismaCLI_generate temp files).1;
          ERmSync temp removal] /\
    files' !! temp = None /\
    r = match removal with
        | Ok _ => (PrismaCLI_generate temp files).1
        | Err e => Err e
        end.
Proof.
  unfold generateAndRemove, tryFinally, fs_rmSync. rewrite !call_run.
  destruct (PrismaCLI_generate temp files) as [outcome files1]. simpl.
  destruct (files1 !! temp) as [content |] eqn:Hfile; simpl.
  - intros [= <- <- <-]. exists (Ok tt).
    repeat split. apply lookup_delete_eq.
  - intros [= <- <- <-]. eexists (Err _). repeat split. exact Hfile.
Qed.

End GenerateFacts.

(** C6.  In the code generation of one migration, once the external
    generator has been invoked on the temp schema file (which was written
    before), [rmSync] is the next call, whether the generator returned or
    threw, and the file is gone when the code generation ends; an error of
    the generator is thrown on after the removal. *)
Theorem temp_schema_removed_on_every_exit :
  forall (config : ConfigSchema) (path : PathModule)
         (parsePrismaSchema : string -> Result PrismaSchema)
         (formatAst : PrismaSchema -> string)
         (PrismaCLI_generate :
            string -> gmap string string -> Result unit * gmap string string)
         (random migrationName : string) (files : gmap string string)
         (r : Result unit) (files' : gmap string string)
         (tr : list Generate.Event) (outcome : Result unit),
    let temp := Generate.tempSchemaPath config path random migrationName in
    Generate.generateMigration config path parsePrismaSchema formatAst
        PrismaCLI_generate random migrationName files = (r, files', tr) ->
    In (Generate.EPrismaGenerate temp outcome) tr ->
    exists files1 content removal rest,
      files1 !! temp = Some content /\
      (PrismaCLI_generate temp files1).1 = outcome /\
      tr = Generate.EPrismaGenerate temp outcome ::
           Generate.ERmSync temp removal :: rest /\
      files' !! temp = None /\
      (forall e, outcome = Err e -> is_ok r = false /\
                                    (removal = Ok tt -> r = Err e)).
Proof.
  intros config path parse format gen random name files r files' tr outcome
    temp Hrun Hin.
  unfold Generate.generateMigration in Hrun. fold temp in Hrun.
  apply bind_inv in Hrun
      as [(e & Hcreate & _) | (u & files1 & t1 & t2 & Hcreate & Hrun & ->)];
    pose proof (createTempSchema_run _ _ _ _ _ _ _ _ _ _ Hcreate) as [Ht Hfile].
  { subst tr. contradiction. }
  subst t1. destruct (Hfile eq_refl) as [content Hcontent]. simpl in *.
  apply bind_inv in Hrun
      as [(e & Hgen & ->) | (u' & files2 & t1 & t3 & Hgen & Hlog & ->)];
    apply generateAndRemove_run in Hgen as (removal & -> & Hgone & Hr).
  - exists files1, content, removal, [].
    destruct Hin as [[= <-] | [[=] | []]].
    split; [exact Hcontent |]. split; [reflexivity |]. split; [reflexivity |].
    split; [exact Hgone |].
    intros e0 Hout. split; [reflexivity |].
    intros ->. rewrite Hr. exact Hout.
  - injection Hlog as <- <- <-.
    exists files1, content, removal,
      [Generate.ELogInfo ("Types generated for migration: " +:+ name)].
    destruct Hin as [[= <-] | [[=] | [[=] | []]]].
    split; [exact Hcontent |]. split; [reflexivity |]. split; [reflexivity |].
    split; [exact Hgone |].
    intros e0 Hout. exfalso.
    destruct removal; [| discriminate Hr]. congruence.
Qed.

Lemma temp_schema_removed_on_every_exit_witness :
  let files : gmap string string :=
    {[ "/app/prisma/migrations/001_init/schema.prisma" := "schema" ]} in
  let temp := "/app/prisma/migrations/.tmp-migration-schema-k3_001_init.prisma" in
  let generate gen :=
    Generate.generateMigration Sim.config Sim.path Sim.parsePrismaSchema
      Sim.formatAst gen "k3" "001_init" files in
  (* the generator throws *)
  ((generate Sim.generatorThrows).1.1 = Err (JsError "prisma generate failed") /\
   (generate Sim.generatorThrows).1.2 !! temp = None) /\
  (* the generator returns *)
  ((generate Sim.generatorOk).1.1 = Ok tt /\
   (generate Sim.generatorOk).1.2 !! temp = None).
Proof.
  intros files temp generate. split.
  - destruct (temp_schema_removed_on_every_exit Sim.config Sim.path
                Sim.parsePrismaSchema Sim.formatAst Sim.generatorThrows
                "k3" "001_init" files
                (generate Sim.generatorThrows).1.1
                (generate Sim.generatorThrows).1.2
                (generate Sim.generatorThrows).2
                (Err (JsError "prisma generate failed"))
                ltac:(vm_compute; reflexivity)
                ltac:(vm_compute; left; reflexivity))
      as (files1 & content & removal & rest & _ & _ & Htr & Hgone & Herr).
    split; [| exact Hgone].
    apply (Herr _ eq_refl).
    vm_compute in Htr. injection Htr as <-. reflexivity.
  - destruct (temp_schema_removed_on_every_exit Sim.config Sim.path
                Sim.parsePrismaSchema Sim.formatAst Sim.generatorOk
                "k3" "001_init" files
                (generate Sim.generatorOk).1.1
                (generate Sim.generatorOk).1.2
                (generate Sim.generatorOk).2
                (Ok tt)
                ltac:(vm_compute; reflexivity)
                ltac:(vm_compute; left; reflexivity))
      as (files1 & content & removal & rest & _ & _ & _ & Hgone & _).
    split; [vm_compute; reflexivity | exact Hgone].
Defined.

(* ===================================================================== *)
(** * More on the generator block                                         *)
(* ===================================================================== *)

Section GeneratorFacts.

Import TempSchema.

Lemma find_some_split {A} (p : A -> bool) (l : list A) (x : A) :
  find p l = Some x ->
  exists before after,
    l = before ++ x :: after /\ List.filter p before = [] /\ p x = true.
Proof.
  induction l as [| y l IH]; simpl; [discriminate |].
  destruct (p y) eqn:Hy.
  - intros [= ->]. exists [], l. auto.
  - intros H. destruct (IH H) as (before & after & -> & Hbefore & Hx).
    exists (y :: before), after. simpl. rewrite Hy. auto.
Qed.

Lemma find_output_is_config (members : list BlockMember) (m : BlockMember) :
  find isOutputAttribute members = Some m ->
  exists c, m = MConfig c /\ config_name c = "output".
Proof.
  intros H. apply find_some in H as [_ H].
  destruct m as [c |]; [| discriminate].
  exists c. split; [reflexivity |]. simpl in H. apply String.eqb_eq. exact H.
Qed.

(** Setting the output twice is setting it to the second path. *)
Lemma setOutput_setOutput (p1 p2 : string) (members : list BlockMember) :
  setOutput p2 (setOutput p1 members) = setOutput p2 members.
Proof.
  destruct (find isOutputAttribute members) as [m |] eqn:Hfind.
  - destruct (find_output_is_config _ _ Hfind) as (c & -> & Hname).
    destruct (find_some_split _ _ _ Hfind) as (before & after & -> & Hbefore & _).
    rewrite (setOutput_update p1 _ _ _ Hbefore Hname).
    rewrite (setOutput_update p2 before after c Hbefore Hname).
    rewrite (setOutput_update p2 before after _ Hbefore); [reflexivity | exact Hname].
  - apply find_none_filter in Hfind.
    rewrite (setOutput_append p1 _ Hfind), (setOutput_append p2 _ Hfind).
    change (members ++ [MConfig (newOutputAttribute p1)])
      with (members ++ MConfig (newOutputAttribute p1) :: []).
    rewrite (setOutput_update p2 members [] (newOutputAttribute p1) Hfind eq_refl).
    reflexivity.
Qed.

Lemma existsb_updateFirst {A} (p q : A -> bool) (f : A -> A) (l : list A) :
  (forall x, p x = true -> q (f x) = q x) ->
  existsb q (updateFirst p f l) = existsb q l.
Proof.
  intros Hq. induction l as [| x l IH]; simpl; [reflexivity |].
  destruct (p x) eqn:Hx; simpl.
  - rewrite (Hq x Hx). reflexivity.
  - rewrite IH. reflexivity.
Qed.

(** The rewrite does not touch the [provider] field. *)
Lemma setOutput_keeps_provider (p : string) (members : list BlockMember) :
  existsb isClientProvider (setOutput p members)
    = existsb isClientProvider members.
Proof.
  unfold setOutput. destruct (find isOutputAttribute members).
  - apply existsb_updateFirst. intros [c |] Hout; [| discriminate].
    simpl in Hout. apply String.eqb_eq in Hout. simpl. rewrite Hout.
    reflexivity.
  - rewrite existsb_app. simpl. rewrite !orb_false_r. reflexivity.
Qed.

Lemma updateGenerator_ok_inv ast p ast' :
  updateGenerator ast p = Ok ast' ->
  exists pre name members post,
    declarations ast = pre ++ ConfigBlock KGenerator name members :: post /\
    isClientGenerator (ConfigBlock KGenerator name members) = true /\
    List.filter isClientGenerator pre = [] /\
    List.filter isClientGenerator post = [] /\
    ast' = {| declarations :=
                pre ++ ConfigBlock KGenerator name (setOutput p members) :: post |}.
Proof.
  intros Hok.
  assert (Hlen : length (List.filter isClientGenerator (declarations ast)) = 1%nat).
  { destruct (Nat.eq_dec (length (List.filter isClientGenerator (declarations ast))) 1%nat)
      as [H | H]; [exact H |].
    rewrite (updateGenerator_count_mismatch _ _ H) in Hok. discriminate. }
  destruct (updateGenerator_single ast p Hlen)
    as (pre & name & members & post & Hdecls & Hpre & Hpost & Hres).
  exists pre, name, members, post. repeat split; try assumption.
  - assert (Hin : In (ConfigBlock KGenerator name members)
                    (List.filter isClientGenerator (declarations ast))).
    { rewrite Hdecls, List.filter_app. simpl. rewrite Hpre. simpl.
      destruct (existsb isClientProvider members) eqn:Hc; simpl.
      - left. reflexivity.
      - exfalso. rewrite Hdecls, List.filter_app in Hlen. simpl in Hlen.
        rewrite Hpre, Hc, Hpost in Hlen. discriminate. }
    apply filter_In in Hin as [_ Hin]. exact Hin.
  - congruence.
Qed.

Lemma filter_split_single {A} (p : A -> bool) (pre post : list A) (x : A) :
  List.filter p pre = [] -> List.filter p post = [] -> p x = true ->
  List.filter p (pre ++ x :: post) = [x].
Proof.
  intros Hpre Hpost Hx. rewrite List.filter_app. simpl.
  rewrite Hpre, Hx, Hpost. reflexivity.
Qed.

End GeneratorFacts.

(** X1.  [updateGenerator] keeps every declaration other than the client
    generator block, generator blocks of other providers included, in place:
    the result has as many declarations, the same declarations that are not
    client generators, and still exactly one client generator. *)
Theorem updateGenerator_keeps_other_declarations :
  forall (ast ast' : PrismaSchema) (clientOutputPath : string),
    TempSchema.updateGenerator ast clientOutputPath = Ok ast' ->
    let others := List.filter (fun decl => negb (TempSchema.isClientGenerator decl)) in
    length (declarations ast') = length (declarations ast) /\
    others (declarations ast') = others (declarations ast) /\
    length (List.filter TempSchema.isClientGenerator (declarations ast')) = 1%nat /\
    (forall name members,
        In (ConfigBlock KGenerator name members) (declarations ast) ->
        TempSchema.isClientGenerator (ConfigBlock KGenerator name members) = false ->
        In (ConfigBlock KGenerator name members) (declarations ast')).
Proof.
  intros ast ast' p Hok others.
  destruct (updateGenerator_ok_inv _ _ _ Hok)
    as (pre & name & members & post & Hdecls & Hclient & Hpre & Hpost & ->).
  assert (Hclient' : TempSchema.isClientGenerator
                       (ConfigBlock KGenerator name (TempSchema.setOutput p members))
                     = true).
  { simpl in *. rewrite setOutput_keeps_provider. exact Hclient. }
  simpl. rewrite Hdecls. split; [| split; [| split]].
  - rewrite !length_app. reflexivity.
  - unfold others. rewrite !List.filter_app. cbn [List.filter].
    rewrite Hclient, Hclient'. reflexivity.
  - rewrite (filter_split_single _ _ _ _ Hpre Hpost Hclient'). reflexivity.
  - intros n m Hin Hnot. apply in_app_or in Hin as [Hin | [Heq | Hin]].
    + apply in_or_app. left. exact Hin.
    + injection Heq as <- <-. simpl in *. congruence.
    + apply in_or_app. right. right. exact Hin.
Qed.

Lemma updateGenerator_keeps_other_declarations_witness :
  let other := ConfigBlock KGenerator "erd"
                 [MConfig (mkConfig "provider" (Literal (VString "prisma-erd-generator")) None)] in
  let ast := {| declarations := declarations Sim.exampleSchema ++ [other] |} in
  exists ast',
    TempSchema.updateGenerator ast "../../generated/001_init" = Ok ast' /\
    length (declarations ast') = 4%nat /\
    In other (declarations ast').
Proof.
  intros other ast.
  destruct (TempSchema.updateGenerator ast "../../generated/001_init")
    as [ast' |] eqn:Hok; [| vm_compute in Hok; discriminate Hok].
  destruct (updateGenerator_keeps_other_declarations ast ast' _ Hok)
    as (Hlen & _ & _ & Hkeep).
  exists ast'. split; [reflexivity |]. split.
  - rewrite Hlen. reflexivity.
  - apply Hkeep; [| reflexivity]. simpl. auto.
Defined.

(** X2.  Rewriting an already rewritten schema gives what rewriting the
    source with the second path gives; with the same path it gives the
    rewritten schema back. *)
Theorem updateGenerator_last_path_wins :
  forall (ast rewritten : PrismaSchema) (first second : string),
    TempSchema.updateGenerator ast first = Ok rewritten ->
    TempSchema.updateGenerator rewritten second
      = TempSchema.updateGenerator ast second /\
    TempSchema.updateGenerator rewritten first = Ok rewritten.
Proof.
  intros ast rewritten p1 p2 Hok.
  destruct (updateGenerator_ok_inv _ _ _ Hok)
    as (pre & name & members & post & Hdecls & Hclient & Hpre & Hpost & ->).
  assert (Hclient' : TempSchema.isClientGenerator
                       (ConfigBlock KGenerator name (TempSchema.setOutput p1 members))
                     = true).
  { simpl in *. rewrite setOutput_keeps_provider. exact Hclient. }
  assert (Hagain : forall p,
             TempSchema.updateGenerator
               {| declarations :=
                    pre ++ ConfigBlock KGenerator name
                             (TempSchema.setOutput p1 members) :: post |} p
             = Ok {| declarations :=
                       pre ++ ConfigBlock KGenerator name
                                (TempSchema.setOutput p members) :: post |}).
  { intros p. unfold TempSchema.updateGenerator. simpl declarations.
    rewrite (filter_split_single _ _ _ _ Hpre Hpost Hclient').
    rewrite (updateFirst_split _ _ _ _ _ Hpre Hclient').
    rewrite setOutput_setOutput. reflexivity. }
  split.
  - rewrite Hagain. unfold TempSchema.updateGenerator. rewrite Hdecls.
    rewrite (filter_split_single _ _ _ _ Hpre Hpost Hclient).
    rewrite (updateFirst_split _ _ _ _ _ Hpre Hclient). reflexivity.
  - apply Hagain.
Qed.

Lemma updateGenerator_last_path_wins_witness :
  exists rewritten,
    TempSchema.updateGenerator Sim.exampleSchema "../../generated/001_init"
      = Ok rewritten /\
    TempSchema.updateGenerator rewritten "../../generated/002_add_col"
      = TempSchema.updateGenerator Sim.exampleSchema "../../generated/002_add_col" /\
    TempSchema.updateGenerator rewritten "../../generated/001_init" = Ok rewritten.
Proof.
  destruct (TempSchema.updateGenerator Sim.exampleSchema "../../generated/001_init")
    as [rewritten |] eqn:Hok; [| vm_compute in Hok; discriminate Hok].
  exists rewritten. split; [reflexivity |].
  exact (updateGenerator_last_path_wins Sim.exampleSchema rewritten
           "../../generated/001_init" "../../generated/002_add_col" Hok).
Defined.

(** X3.  [updateGenerator] throws exactly when the number of client
    generator blocks is not one, and the error is then the count error: the
    members check after the count check never fails, whatever the schema. *)
Theorem updateGenerator_only_count_error :
  forall (ast : PrismaSchema) (clientOutputPath : string),
    let clients := List.filter TempSchema.isClientGenerator (declarations ast) in
    ((exists e, TempSchema.updateGenerator ast clientOutputPath = Err e)
     <-> length clients <> 1%nat) /\
    (forall e,
        TempSchema.updateGenerator ast clientOutputPath = Err e ->
        e = JsError TempSchema.generatorCountMessage /\
        e <> JsError TempSchema.noMembersMessage).
Proof.
  intros ast p clients.
  destruct (Nat.eq_dec (length clients) 1%nat) as [Hlen | Hlen].
  - destruct (updateGenerator_single ast p Hlen) as (? & ? & ? & ? & _ & _ & _ & Hok).
    rewrite Hok. split.
    + split; [intros [e He]; discriminate He | contradiction].
    + intros e He. discriminate He.
  - rewrite (updateGenerator_count_mismatch _ _ Hlen). split.
    + split; [intros _; exact Hlen | eauto].
    + intros e [= <-]. split; [reflexivity | discriminate].
Qed.

Lemma updateGenerator_only_count_error_witness :
  (exists e,
      TempSchema.updateGenerator
        {| declarations := declarations Sim.exampleSchema ++ declarations Sim.exampleSchema |}
        "out" = Err e /\
      e = JsError TempSchema.generatorCountMessage) /\
  (exists e,
      TempSchema.updateGenerator
        {| declarations := [OtherDeclaration "model" "User"] |} "out" = Err e).
Proof.
  split.
  - eexists. split; [vm_compute; reflexivity |].
    eapply (proj2 (updateGenerator_only_count_error
                     {| declarations := declarations Sim.exampleSchema ++
                                        declarations Sim.exampleSchema |}
                     "out")).
    vm_compute. reflexivity.
  - apply (proj1 (updateGenerator_only_count_error
                    {| declarations := [OtherDeclaration "model" "User"] |} "out")).
    vm_compute. lia.
Defined.

(* ===================================================================== *)
(** * More on the code generation of one migration                        *)
(* ===================================================================== *)

Section GenerateOutcomes.

Import Generate.

Variable config : ConfigSchema.
Variable path : PathModule.
Variable parsePrismaSchema : string -> Result PrismaSchema.
Variable formatAst : PrismaSchema -> string.
Variable PrismaCLI_generate :
  string -> gmap string string -> Result unit * gmap string string.

(** [createTempSchema] writes as its last step: when it throws, the files
    are as they were. *)
Lemma createTempSchema_failure src out temp (files : gmap string string) e files' tr :
  createTempSchema path parsePrismaSchema formatAst src out temp files
    = (Err e, files', tr) ->
  files' = files.
Proof.
  unfold createTempSchema, bind, fs_readFile, lift, fs_mkdir, fs_writeFile, ret.
  destruct (files !! src) as [content |]; [| intros [= _ <- _]; reflexivity].
  destruct (parsePrismaSchema content) as [ast | e'];
    [| intros [= _ <- _]; reflexivity].
  destruct (TempSchema.updateGenerator ast out) as [ast' | e'];
    [| intros [= _ <- _]; reflexivity].
  discriminate.
Qed.

End GenerateOutcomes.

(** X4.  The code generation of one migration ends in one of three ways.  It
    fails before the generator is invoked (source unreadable, parse error,
    generator block count): then nothing is called and no file is written.
    Or the generator and then the removal of the temp file are called and one
    of them throws: the run fails.  Or both return: the run succeeds and only
    then is "Types generated" logged. *)
Theorem generateMigration_outcomes :
  forall (config : ConfigSchema) (path : PathModule)
         (parsePrismaSchema : string -> Result PrismaSchema)
         (formatAst : PrismaSchema -> string)
         (PrismaCLI_generate :
            string -> gmap string string -> Result unit * gmap string string)
         (random migrationName : string) (files : gmap string string)
         (r : Result unit) (files' : gmap string string)
         (tr : list Generate.Event),
    let temp := Generate.tempSchemaPath config path random migrationName in
    Generate.generateMigration config path parsePrismaSchema formatAst
        PrismaCLI_generate random migrationName files = (r, files', tr) ->
    (is_ok r = false /\ tr = [] /\ files' = files) \/
    (is_ok r = false /\
     exists outcome removal,
       tr = [Generate.EPrismaGenerate temp outcome; Generate.ERmSync temp removal] /\
       (is_ok outcome = false \/ is_ok removal = false)) \/
    (r = Ok tt /\
     tr = [Generate.EPrismaGenerate temp (Ok tt);
           Generate.ERmSync temp (Ok tt);
           Generate.ELogInfo ("Types generated for migration: " +:+ migrationName)]).
Proof.
  intros config path parse format gen random name files r files' tr temp Hrun.
  unfold Generate.generateMigration in Hrun. fold temp in Hrun.
  apply bind_inv in Hrun
      as [(e & Hcreate & ->) | (u & files1 & t1 & t2 & Hcreate & Hrun & ->)];
    pose proof (createTempSchema_run _ _ _ _ _ _ _ _ _ _ Hcreate) as [-> _].
  { left. apply createTempSchema_failure in Hcreate. auto. }
  right. simpl.
  apply bind_inv in Hrun
      as [(e & Hgen & ->) | (u' & files2 & t1 & t3 & Hgen & Hlog & ->)];
    apply generateAndRemove_run in Hgen as (removal & -> & _ & Hr).
  - left. split; [reflexivity |].
    exists (gen temp files1).1, removal. split; [reflexivity |].
    destruct removal; [left; rewrite <- Hr; reflexivity | right; reflexivity].
  - right. injection Hlog as <- _ <-. destruct u'.
    destruct removal as [[] |]; [| discriminate Hr].
    rewrite <- Hr. auto.
Qed.

Lemma generateMigration_outcomes_witness :
  let files : gmap string string :=
    {[ "/app/prisma/migrations/001_init/schema.prisma" := "not a schema" ]} in
  Generate.generateMigration Sim.config Sim.path Sim.parsePrismaSchema
      Sim.formatAst Sim.generatorOk "k3" "001_init" files
    = (Err (JsError "parse error"), files, []).
Proof.
  intros files.
  destruct (Generate.generateMigration Sim.config Sim.path Sim.parsePrismaSchema
              Sim.formatAst Sim.generatorOk "k3" "001_init" files)
    as [[r files'] tr] eqn:Hrun.
  destruct (generateMigration_outcomes _ _ _ _ _ _ _ _ _ _ _ Hrun)
    as [(_ & -> & ->) | [(_ & o & rm & -> & _) | (-> & _)]];
    vm_compute in Hrun.
  - injection Hrun as <-. reflexivity.
  - discriminate Hrun.
  - discriminate Hrun.
Defined.

(* ===================================================================== *)
(** * More on the slice and on the command line                           *)
(* ===================================================================== *)

(** Whatever the target and the flag, the slice is a prefix of the
    ordered list: the selection never reorders, drops from the middle or adds
    a migration. *)
Lemma selectMigrations_is_prefix :
  forall (rawMigrations : list string) (target : option string)
         (includeTargetMigration : bool),
    Migrate.selectMigrations rawMigrations target includeTargetMigration
      `prefix_of` rawMigrations.
Proof.
  intros raw target incl. unfold Migrate.selectMigrations, Js.slice0.
  apply prefix_take.
Qed.

(** X5.  For a target that is not in the ordered list [indexOf] is [-1]: with
    the target included the slice is empty, and with the target excluded the
    slice is the list without its last migration. *)
Theorem selectMigrations_absent_target :
  forall (rawMigrations : list string) (target : string),
    target <> "" ->
    ~ In target rawMigrations ->
    Migrate.selectMigrations rawMigrations (Some target) true = [] /\
    Migrate.selectMigrations rawMigrations (Some target) false
      = removelast rawMigrations.
Proof.
  intros raw t Hne Hnotin. unfold Migrate.selectMigrations. simpl.
  destruct (String.eqb_spec t "") as [-> | _]; [contradiction |].
  rewrite (indexOf_absent raw t Hnotin). split.
  - unfold Js.slice0. simpl. destruct raw; reflexivity.
  - unfold Js.slice0. change (-1 + 0 <? 0) with true. cbv iota.
    rewrite removelast_firstn_len. f_equal. lia.
Qed.

Lemma selectMigrations_absent_target_witness :
  Migrate.selectMigrations ["001_init"; "002_add_col"; "003_seed"]
    (Some "004_missing") true = [] /\
  Migrate.selectMigrations ["001_init"; "002_add_col"; "003_seed"]
    (Some "004_missing") false = ["001_init"; "002_add_col"].
Proof.
  apply (selectMigrations_absent_target
           ["001_init"; "002_add_col"; "003_seed"] "004_missing").
  - discriminate.
  - simpl. intuition discriminate.
Defined.




(* ===================================================================== *)
(** * More on the runs of migrate                                         *)
(* ===================================================================== *)

Section RunFacts.

Import Migrate Trace.

Context {W : Type}.
Variable C : Collaborators W.
Variable config : ConfigSchema.
Variable path : PathModule.

Lemma postScriptsRun_app (t1 t2 : list Event) :
  postScriptsRun (t1 ++ t2) = postScriptsRun t1 ++ postScriptsRun t2.
Proof.
  induction t1 as [| ev t1 IH]; simpl; [reflexivity |].
  destruct ev; simpl; rewrite IH; reflexivity.
Qed.

(** What one iteration calls, whatever its outcome. *)
Lemma migrateOne_calls name w r w' tr :
  migrateOne C config path name w = (r, w', tr) ->
  (engineCalls tr = [name] \/ (engineCalls tr = [] /\ is_ok r = false)) /\
  (postScriptsRun tr = [] \/
   postScriptsRun tr = [getMigrationPath config path name]) /\
  Forall (fun ev => isConnect ev = false) tr.
Proof.
  assert (Hdone : forall (r0 : Result unit) (t : list Event),
             (engineCalls t = [name] \/ (engineCalls t = [] /\ is_ok r0 = false)) ->
             (postScriptsRun t = [] \/
              postScriptsRun t = [getMigrationPath config path name]) ->
             forallb (fun ev => negb (isConnect ev)) t = true ->
             (engineCalls t = [name] \/ (engineCalls t = [] /\ is_ok r0 = false)) /\
             (postScriptsRun t = [] \/
              postScriptsRun t = [getMigrationPath config path name]) /\
             Forall (fun ev => isConnect ev = false) t).
  { intros r0 t H1 H2 H3. repeat split; try assumption.
    apply List.Forall_forall. intros ev Hin.
    rewrite forallb_forall in H3. apply H3 in Hin.
    destruct (isConnect ev); [discriminate | reflexivity]. }
  unfold migrateOne, bind, call, ret, emit.
  destruct (db_isPrismaMigrationsTableExists C w) as [[[|] | e] w1].
  - destruct (db_getMigrationByName C name w1) as [[migration | e] w2].
    + destruct (migrator_migrateTo C name w2) as [[[] | e] w3].
      * destruct (db_getMigrationByName C name w3) as [[newMigration | e] w4].
        -- destruct (_ =? _).
           ++ destruct (scriptRunner_runPostScript C _ w4) as [ro w5].
              intros [= <- _ <-]. apply Hdone; simpl; auto.
           ++ intros [= <- _ <-]. apply Hdone; simpl; auto.
        -- intros [= <- _ <-]. apply Hdone; simpl; auto.
      * intros [= <- _ <-]. apply Hdone; simpl; auto.
    + intros [= <- _ <-]. apply Hdone; simpl; auto.
  - destruct (migrator_migrateTo C name w1) as [[[] | e] w3].
    + destruct (db_getMigrationByName C name w3) as [[newMigration | e] w4].
      * destruct (_ =? _).
        -- destruct (scriptRunner_runPostScript C _ w4) as [ro w5].
           intros [= <- _ <-]. apply Hdone; simpl; auto.
        -- intros [= <- _ <-]. apply Hdone; simpl; auto.
      * intros [= <- _ <-]. apply Hdone; simpl; auto.
    + intros [= <- _ <-]. apply Hdone; simpl; auto.
  - intros [= <- _ <-]. apply Hdone; simpl; auto.
Qed.

(** The loop, whatever its outcome. *)
Lemma loop_calls names w r w' tr :
  forEach (migrateOne C config path) names w = (r, w', tr) ->
  engineCalls tr `prefix_of` names /\
  (is_ok r = true -> engineCalls tr = names) /\
  postScriptsRun tr `sublist_of` map (getMigrationPath config path) names /\
  Forall (fun ev => isConnect ev = false) tr.
Proof.
  revert w tr. induction names as [| name names IH]; intros w tr; simpl.
  - intros [= <- _ <-]. simpl.
    split; [done | split; [done | split; constructor]].
  - intros H.
    apply bind_inv in H as [(e & H1 & ->) | (u & w1 & t1 & t2 & H1 & H2 & ->)];
      apply migrateOne_calls in H1 as (Hengine & Hscripts & Hconn).
    + repeat split; try assumption.
      * destruct Hengine as [-> | [-> _]];
          [exists names; reflexivity | apply prefix_nil].
      * discriminate.
      * destruct Hscripts as [-> | ->];
          [apply sublist_nil_l | apply sublist_skip, sublist_nil_l].
    + destruct (IH _ _ H2) as (Hpre & Hall & Hsub & Hconn2).
      destruct Hengine as [He | [_ Hfail]]; [| discriminate Hfail].
      rewrite engineCalls_app, postScriptsRun_app, He. repeat split.
      * apply (prefix_app [name]). exact Hpre.
      * intros Hok. rewrite (Hall Hok). reflexivity.
      * destruct Hscripts as [-> | ->]; simpl;
          [apply sublist_cons, Hsub | apply sublist_skip, Hsub].
      * apply Forall_app; auto.
Qed.

(** Lines 156-160, whatever the outcome. *)
Lemma afterLoop_calls migrations dataMigrations w r w' tr :
  bind (finalAdvance C migrations dataMigrations)
       (fun _ => call (db_disconnect C) EDisconnect) w = (r, w', tr) ->
  engineCalls tr =
    (if bool_decide (last dataMigrations <> last migrations)
     then [default "" (last migrations)] else []) /\
  postScriptsRun tr = [] /\
  Forall (fun ev => isConnect ev = false) tr.
Proof.
  unfold finalAdvance, bind, call, ret.
  destruct (bool_decide (last dataMigrations <> last migrations)).
  - destruct (migrator_migrateTo C _ w) as [[[] | e] w1].
    + destruct (db_disconnect C w1) as [rd w2]. intros [= <- _ <-].
      simpl. repeat constructor; auto.
    + intros [= <- _ <-]. simpl. repeat constructor; auto.
  - destruct (db_disconnect C w) as [rd w2]. intros [= <- _ <-].
    simpl. repeat constructor; auto.
Qed.

Lemma migrateConnected_calls migrations dataMigrations w r w' tr :
  migrateConnected C config path migrations dataMigrations w = (r, w', tr) ->
  engineCalls tr `prefix_of` engineSchedule migrations dataMigrations /\
  (is_ok r = true -> engineCalls tr = engineSchedule migrations dataMigrations) /\
  postScriptsRun tr `sublist_of` map (getMigrationPath config path) dataMigrations /\
  Forall (fun ev => isConnect ev = false) tr.
Proof.
  unfold migrateConnected, engineSchedule. intros H.
  apply bind_inv in H as [(e & H1 & ->) | (u & w1 & t1 & t2 & H1 & H2 & ->)];
    apply loop_calls in H1 as (Hpre & Hall & Hsub & Hconn).
  - repeat split; try assumption; [| discriminate].
    apply prefix_app_r. exact Hpre.
  - apply afterLoop_calls in H2 as (He & Hs & Hconn2).
    rewrite engineCalls_app, postScriptsRun_app, He, Hs, (Hall eq_refl), app_nil_r.
    repeat split; try reflexivity; try assumption.
    apply Forall_app; auto.
Qed.

(** The three ways a run of [migrate] can start. *)
Lemma migrate_cases target includeTarget w r w' tr :
  migrate C config path target includeTarget w = (r, w', tr) ->
  (tr = [] /\ is_ok r = false) \/
  (exists dataSource e, tr = [EConnect dataSource (Err e)] /\ r = Err e) \/
  (exists dataSource tr', tr = EConnect dataSource (Ok tt) :: tr').
Proof.
  unfold migrate. intros H.
  apply bind_inv in H as [(e & H & ->) | (u & wa & ta & tb & Hval & H & ->)].
  { apply silent_validation in H as [_ ->]. left. auto. }
  pose proof (silent_validation _ _ _ _ _ _ _ _ Hval) as [-> ->]. simpl.
  apply bind_inv in H as [(e & H & ->) | (entries & wa & ta & tb' & Hdir & H & ->)].
  { apply silent_ask in H as [_ ->]. left. auto. }
  pose proof (silent_ask _ _ _ _ _ Hdir) as [-> ->]. simpl.
  apply bind_inv in H as [(e & H & ->) | (ds & wa & ta & tb'' & Hds & H & ->)].
  { apply silent_ask in H as [_ ->]. left. auto. }
  pose proof (silent_ask _ _ _ _ _ Hds) as [-> ->]. simpl.
  apply bind_inv in H as [(e & H & ->) | (u' & w1 & ta & tc & Hconn & H & ->)];
    rewrite call_run in *.
  - right. left. exists ds, e. injection H as Hr _ <-. rewrite Hr. auto.
  - right. right. injection Hconn as Hr _ <-. rewrite Hr. destruct u'.
    simpl. eauto.
Qed.

Lemma schedule_in_slice (p : string -> bool) (migrations : list string) :
  Forall (fun name => In name migrations)
    (engineSchedule migrations (List.filter p migrations)).
Proof.
  unfold engineSchedule. apply Forall_app. split.
  - apply List.Forall_forall. intros name Hin.
    apply filter_In in Hin as [Hin _]. exact Hin.
  - destruct (bool_decide _) eqn:Hdiff; [| constructor].
    destruct (last migrations) as [m |] eqn:Hlast.
    + repeat constructor. simpl. apply last_Some in Hlast as [l' ->].
      apply in_or_app. right. left. reflexivity.
    + apply last_None in Hlast. subst migrations. simpl in Hdiff.
      discriminate Hdiff.
Qed.

End RunFacts.

(** X7.  In every run of [migrate], successful or not, the engine is called
    along a fixed schedule: the post-script-bearing migrations of the slice
    in order and then, when the slice does not end with one of them, the last
    migration of the slice.  The engine calls of a run are a prefix of the
    schedule (a failure stops the run, no later migration is advanced), all of
    it when the run succeeds, and every call targets a migration of the
    slice. *)
Theorem engine_calls_follow_schedule :
  forall (W : Type) (C : Migrate.Collaborators W) (config : ConfigSchema)
         (path : PathModule) (target : option string) (includeTarget : bool)
         (w : W) (r : Result unit) (w' : W) (tr : list Migrate.Event)
         (entries : list string),
    Migrate.fs_readdirSync C (Migrate.migrationsDirPath config path) w
      = Ok entries ->
    Migrate.migrate C config path target includeTarget w = (r, w', tr) ->
    let migrations :=
      Migrate.selectMigrations
        (List.filter (Migrate.validator_isMigration C) entries)
        target includeTarget in
    let dataMigrations :=
      List.filter (Migrate.validator_isMigrationWithPostScript C) migrations in
    let schedule := Trace.engineSchedule migrations dataMigrations in
    Migrate.engineCalls tr `prefix_of` schedule /\
    (r = Ok tt -> Migrate.engineCalls tr = schedule) /\
    Forall (fun name => In name migrations) schedule.
Proof.
  intros W C config path target includeTarget w r w' tr entries Hdir Hrun
    migrations dataMigrations schedule.
  split; [| split]; [| | apply schedule_in_slice].
  - destruct (migrate_cases _ _ _ _ _ _ _ _ _ Hrun)
      as [[-> _] | [(ds & e & -> & _) | (ds & tr' & ->)]];
      [apply prefix_nil | apply prefix_nil |].
    apply migrate_connected_inv in Hrun as (entries' & w1 & Hdir' & _ & Hrun).
    assert (entries' = entries) as -> by congruence.
    apply migrateConnected_calls in Hrun as (Hpre & _). exact Hpre.
  - intros ->.
    destruct (migrate_cases _ _ _ _ _ _ _ _ _ Hrun)
      as [[_ Hr] | [(ds & e & _ & Hr) | (ds & tr' & ->)]]; try discriminate.
    apply migrate_connected_inv in Hrun as (entries' & w1 & Hdir' & _ & Hrun).
    assert (entries' = entries) as -> by congruence.
    apply migrateConnected_calls in Hrun as (_ & Hall & _). exact (Hall eq_refl).
Qed.

Lemma engine_calls_follow_schedule_witness :
  let run w := Sim.migrate ["002_add_col"] None true w in
  Migrate.engineCalls (run Sim.fresh).2 = ["002_add_col"; "003_seed"] /\
  Migrate.engineCalls (run Sim.broken).2
    `prefix_of` ["002_add_col"; "003_seed"].
Proof.
  intros run.
  pose (C := Sim.collaborators ["002_add_col"]).
  split.
  - apply (proj1 (proj2 (engine_calls_follow_schedule Sim.World C Sim.config
                           Sim.path None true Sim.fresh
                           (run Sim.fresh).1.1 (run Sim.fresh).1.2
                           (run Sim.fresh).2 Sim.exampleEntries eq_refl
                           ltac:(vm_compute; reflexivity)))).
    vm_compute. reflexivity.
  - apply (proj1 (engine_calls_follow_schedule Sim.World C Sim.config
                    Sim.path None true Sim.broken
                    (run Sim.broken).1.1 (run Sim.broken).1.2
                    (run Sim.broken).2 Sim.exampleEntries eq_refl
                    ltac:(vm_compute; reflexivity))).
Defined.

(** X8.  In every run of [migrate] the post-script runner is called only on
    directories of post-script-bearing migrations of the slice, in the order
    of the slice and at most once for each position of the slice. *)
Theorem post_scripts_follow_slice :
  forall (W : Type) (C : Migrate.Collaborators W) (config : ConfigSchema)
         (path : PathModule) (target : option string) (includeTarget : bool)
         (w : W) (r : Result unit) (w' : W) (tr : list Migrate.Event)
         (entries : list string),
    Migrate.fs_readdirSync C (Migrate.migrationsDirPath config path) w
      = Ok entries ->
    Migrate.migrate C config path target includeTarget w = (r, w', tr) ->
    let migrations :=
      Migrate.selectMigrations
        (List.filter (Migrate.validator_isMigration C) entries)
        target includeTarget in
    let dataMigrations :=
      List.filter (Migrate.validator_isMigrationWithPostScript C) migrations in
    Trace.postScriptsRun tr
      `sublist_of` map (Migrate.getMigrationPath config path) dataMigrations.
Proof.
  intros W C config path target includeTarget w r w' tr entries Hdir Hrun
    migrations dataMigrations.
  destruct (migrate_cases _ _ _ _ _ _ _ _ _ Hrun)
    as [[-> _] | [(ds & e & -> & _) | (ds & tr' & ->)]];
    [apply sublist_nil_l | apply sublist_nil_l |].
  apply migrate_connected_inv in Hrun as (entries' & w1 & Hdir' & _ & Hrun).
  assert (entries' = entries) as -> by congruence.
  apply migrateConnected_calls in Hrun as (_ & _ & Hsub & _). exact Hsub.
Qed.

Lemma post_scripts_follow_slice_witness :
  Trace.postScriptsRun
    (Sim.migrate ["002_add_col"] None true Sim.fresh).2
  `sublist_of` ["/app/prisma/migrations/002_add_col"].
Proof.
  pose (C := Sim.collaborators ["002_add_col"]).
  pose (run := Sim.migrate ["002_add_col"] None true Sim.fresh).
  apply (post_scripts_follow_slice Sim.World C Sim.config Sim.path None true
           Sim.fresh run.1.1 run.1.2 run.2 Sim.exampleEntries eq_refl
           ltac:(vm_compute; reflexivity)).
Defined.

Section StartFacts.

Import Migrate Trace.

Context {W : Type}.
Variable C : Collaborators W.
Variable config : ConfigSchema.
Variable path : PathModule.

(** How a run of [migrate] starts: a step before [connect] threw and nothing
    was called, or [connect] was called on the data source read from the
    main schema. *)
Lemma migrate_start target includeTarget w r w' tr :
  migrate C config path target includeTarget w = (r, w', tr) ->
  (tr = [] /\ w' = w /\ is_ok r = false) \/
  (exists dataSource tr',
      readDataSourceConfig C (mainPrismaSchema config) w = Ok dataSource /\
      tr = EConnect dataSource (db_connect C dataSource w).1 :: tr' /\
      (forall e, (db_connect C dataSource w).1 = Err e ->
                 tr' = [] /\ r = Err e /\ w' = (db_connect C dataSource w).2)).
Proof.
  unfold migrate. intros H.
  apply bind_inv in H as [(e & H & ->) | (u & wa & ta & tb & Hval & H & ->)].
  { apply silent_validation in H as [-> ->]. left. auto. }
  pose proof (silent_validation _ _ _ _ _ _ _ _ Hval) as [-> ->]. simpl.
  apply bind_inv in H as [(e & H & ->) | (entries & wa & ta & tb' & Hdir & H & ->)].
  { apply silent_ask in H as [-> ->]. left. auto. }
  pose proof (silent_ask _ _ _ _ _ Hdir) as [-> ->]. simpl.
  apply bind_inv in H as [(e & H & ->) | (ds & wa & ta & tb'' & Hds & H & ->)].
  { apply silent_ask in H as [-> ->]. left. auto. }
  pose proof (silent_ask _ _ _ _ _ Hds) as [-> ->]. simpl.
  unfold ask in Hds. injection Hds as Hds.
  right. exists ds.
  apply bind_inv in H as [(e & H & ->) | (u' & w1 & ta & tc & Hconn & H & ->)];
    rewrite call_run in *.
  - exists []. injection H as Hr <- <-. rewrite Hr.
    split; [exact Hds |]. split; [reflexivity |]. intros e' [= <-]. auto.
  - exists tc. injection Hconn as Hr _ <-. rewrite Hr.
    split; [exact Hds |]. split; [reflexivity |]. discriminate.
Qed.

End StartFacts.

(** X9.  In every run of [migrate] the call of [connect] comes before every
    other call to the database, the engine, the post-script runner and the
    logger.  What precedes it (the validation of the target, the listing of
    the migrations directory, [readDataSourceConfig]) calls none of them, and
    when one of these steps throws the run ends there with nothing called
    and nothing changed.  [connect] is given the data source that
    [readDataSourceConfig] returned for the main schema, it is called at most
    once, and when it throws nothing is called after it: its error is the
    error of the run. *)
Theorem connect_comes_first :
  forall (W : Type) (C : Migrate.Collaborators W) (config : ConfigSchema)
         (path : PathModule) (target : option string) (includeTarget : bool)
         (w : W) (r : Result unit) (w' : W) (tr : list Migrate.Event),
    Migrate.migrate C config path target includeTarget w = (r, w', tr) ->
    (tr = [] /\ w' = w /\ is_ok r = false) \/
    (exists dataSource tr',
        Migrate.readDataSourceConfig C (mainPrismaSchema config) w
          = Ok dataSource /\
        tr = Migrate.EConnect dataSource
               (Migrate.db_connect C dataSource w).1 :: tr' /\
        Forall (fun ev => Trace.isConnect ev = false) tr' /\
        (forall e, (Migrate.db_connect C dataSource w).1 = Err e ->
                   tr' = [] /\ r = Err e)).
Proof.
  intros W C config path target includeTarget w r w' tr Hrun.
  destruct (migrate_start _ _ _ _ _ _ _ _ _ Hrun)
    as [H | (ds & tr' & Hds & -> & Hfail)]; [left; exact H | right].
  exists ds, tr'. split; [exact Hds |]. split; [reflexivity |].
  destruct (Migrate.db_connect C ds w).1 as [[] | e] eqn:Hconn.
  - split; [| discriminate].
    apply migrate_connected_inv in Hrun as (entries & w1 & _ & _ & Hrun).
    apply migrateConnected_calls in Hrun as (_ & _ & _ & Hnone). exact Hnone.
  - destruct (Hfail e eq_refl) as (-> & -> & _).
    split; [constructor |]. intros e' [= <-]. auto.
Qed.

Lemma connect_comes_first_witness :
  exists tr',
    (Sim.migrate ["002_add_col"] None true Sim.fresh).2
      = Migrate.EConnect Sim.dataSource (Ok tt) :: tr' /\
    Forall (fun ev => Trace.isConnect ev = false) tr'.
Proof.
  pose (C := Sim.collaborators ["002_add_col"]).
  pose (run := Migrate.migrate C Sim.config Sim.path None true Sim.fresh).
  destruct (connect_comes_first Sim.World C Sim.config Sim.path None true
              Sim.fresh run.1.1 run.1.2 run.2 ltac:(vm_compute; reflexivity))
    as [[Hnil _] | (ds & tr' & Hds & Htr & Hconn & _)].
  - vm_compute in Hnil. discriminate Hnil.
  - exists tr'. split; [| exact Hconn].
    injection Hds as <-. exact Htr.
Defined.

(** X10.  Manual post-script execution.  [runPostScript] either fails
    without calling anything and without changing anything, or makes exactly
    one call, of the post-script runner on the directory of the migration,
    whose outcome is its own; the second only for a migration that bears a
    post-script.  It never calls the database or the engine.  The
    [run:postscript] command without a migration name fails in the first
    way. *)
Theorem runPostScript_only_runs_the_script :
  forall (W : Type) (C : Migrate.Collaborators W) (config : ConfigSchema)
         (path : PathModule) (migrationName : string)
         (w : W) (r : Result unit) (w' : W) (tr : list Migrate.Event),
    Command.runPostScript C config path migrationName w = (r, w', tr) ->
    let script := Migrate.getMigrationPath config path migrationName in
    ((is_ok r = false /\ w' = w /\ tr = []) \/
     (Migrate.validator_isMigrationWithPostScript C migrationName = true /\
      Migrate.scriptRunner_runPostScript C script w = (r, w') /\
      tr = [Migrate.ERunPostScript script r])) /\
    (forall migration,
        Js.truthy migration = None ->
        Command.runPostScriptCommand C config path migration w
          = (Err (JsError Command.migrationRequiredMessage), w, [])).
Proof.
  intros W C config path name w r w' tr Hrun script. split.
  - unfold Command.runPostScript in Hrun.
    apply bind_inv in Hrun
        as [(e & Hval & ->) | (u & w1 & t1 & t2 & Hval & Hrun & ->)].
    { apply silent_validate in Hval as [-> ->]. left. auto. }
    pose proof (silent_validate _ _ _ _ _ _ _ _ Hval) as [-> ->]. simpl.
    destruct (Migrate.validator_isMigrationWithPostScript C name); simpl in Hrun.
    + right. rewrite call_run in Hrun. injection Hrun as <- <- <-.
      split; [reflexivity |]. fold script.
      destruct (Migrate.scriptRunner_runPostScript C script w). auto.
    + left. injection Hrun as <- <- <-. auto.
  - intros migration Hfalsy. unfold Command.runPostScriptCommand.
    rewrite Hfalsy. reflexivity.
Qed.

Lemma runPostScript_only_runs_the_script_witness :
  let C := Sim.collaborators ["002_add_col"] in
  Command.runPostScript C Sim.config Sim.path "002_add_col" Sim.fresh
    = (Ok tt, Sim.fresh,
       [Migrate.ERunPostScript "/app/prisma/migrations/002_add_col" (Ok tt)]) /\
  Command.runPostScript C Sim.config Sim.path "001_init" Sim.fresh
    = (Err (JsError "Migration 001_init does not have a post script"),
       Sim.fresh, []).
Proof.
  intros C. split.
  - destruct (Command.runPostScript C Sim.config Sim.path "002_add_col" Sim.fresh)
      as [[r w'] tr] eqn:Hrun.
    destruct (proj1 (runPostScript_only_runs_the_script _ C Sim.config Sim.path
                       _ _ _ _ _ Hrun))
      as [(Hr & _ & _) | (_ & Hcall & ->)].
    + vm_compute in Hrun. injection Hrun as <- _ _. discriminate Hr.
    + vm_compute in Hcall. injection Hcall as <- <-. reflexivity.
  - destruct (Command.runPostScript C Sim.config Sim.path "001_init" Sim.fresh)
      as [[r w'] tr] eqn:Hrun.
    destruct (proj1 (runPostScript_only_runs_the_script _ C Sim.config Sim.path
                       _ _ _ _ _ Hrun))
      as [(_ & -> & ->) | (Hpost & _)].
    + vm_compute in Hrun. injection Hrun as <-. reflexivity.
    + vm_compute in Hpost. discriminate Hpost.
Defined.

(* ===================================================================== *)
(** * The external config module                                          *)
(* ===================================================================== *)

Section PrismaConfigFacts.

Import PrismaConfig.

Lemma isValidPrismaConfig_inv (config : JsValue) :
  isValidPrismaConfig config = true ->
  exists fields dfields datasourceUrl,
    config = JObject fields /\
    lookupField "datasource" fields = Some (JObject dfields) /\
    lookupField "url" dfields = Some (JString datasourceUrl).
Proof.
  unfold isValidPrismaConfig.
  destruct config as [| | | | | | items | fields]; simpl; try discriminate.
  destruct (lookupField "datasource" fields) as [d |] eqn:Hd; simpl;
    [| discriminate].
  destruct d as [| | | | | | ditems | dfields]; simpl; try discriminate.
  destruct (lookupField "url" dfields) as [u |] eqn:Hu; simpl; [| discriminate].
  destruct u; try discriminate. intros _. exists fields, dfields, s. auto.
Qed.

Lemma isValidPrismaConfig_intro fields dfields datasourceUrl :
  lookupField "datasource" fields = Some (JObject dfields) ->
  lookupField "url" dfields = Some (JString datasourceUrl) ->
  isValidPrismaConfig (JObject fields) = true /\
  getProperty "url" (getProperty "datasource" (JObject fields))
    = JString datasourceUrl.
Proof.
  intros Hd Hu. unfold isValidPrismaConfig. simpl. rewrite Hd. simpl.
  rewrite Hu. simpl. auto.
Qed.


End PrismaConfigFacts.

(** X11.  The type guard [isValidPrismaConfig] accepts exactly the objects
    that have a [datasource] property holding an object with a [url] property
    holding a string; [null], arrays, functions and primitive values are
    refused, and so is a [url] that is not a string. *)
Theorem isValidPrismaConfig_accepts_exactly :
  forall config : PrismaConfig.JsValue,
    PrismaConfig.isValidPrismaConfig config = true <->
    exists fields dfields datasourceUrl,
      config = PrismaConfig.JObject fields /\
      PrismaConfig.lookupField "datasource" fields
        = Some (PrismaConfig.JObject dfields) /\
      PrismaConfig.lookupField "url" dfields
        = Some (PrismaConfig.JString datasourceUrl).
Proof.
  intros config. split.
  - apply isValidPrismaConfig_inv.
  - intros (fields & dfields & u & -> & Hd & Hu).
    apply (isValidPrismaConfig_intro fields dfields u Hd Hu).
Qed.

(** X12.  [readDatabaseUrlFromPrismaConfig] returns a URL exactly when the
    config file exists, its import succeeds, the config (the default export
    of the module when it has one that is not [undefined], the module itself
    otherwise) passes the type guard, and its [datasource.url] is that URL,
    is not empty and parses as a URL.  A returned URL is therefore never
    empty, and with a default export the [datasource] of the module itself is
    not looked at. *)
Theorem readDatabaseUrlFromPrismaConfig_returns :
  forall (path : PathModule) (loader : PrismaConfig.Loader) (datasourceUrl : string),
    PrismaConfig.readDatabaseUrlFromPrismaConfig path loader = Ok datasourceUrl <->
    PrismaConfig.existsSync loader (PrismaConfig.CONFIG_PATH path) = true /\
    exists prismaConfig,
      PrismaConfig.importModule loader (PrismaConfig.CONFIG_PATH path)
        = Ok prismaConfig /\
      let config :=
        match prismaConfig with
        | PrismaConfig.JObject fields =>
            match PrismaConfig.lookupField "default" fields with
            | Some PrismaConfig.JUndefined | None => prismaConfig
            | Some defaultExport => defaultExport
            end
        | _ => prismaConfig
        end in
      PrismaConfig.isValidPrismaConfig config = true /\
      PrismaConfig.getProperty "url" (PrismaConfig.getProperty "datasource" config)
        = PrismaConfig.JString datasourceUrl /\
      datasourceUrl <> "" /\
      PrismaConfig.urlParses loader datasourceUrl = true.
Proof.
  intros path loader u. unfold PrismaConfig.readDatabaseUrlFromPrismaConfig.
  assert (Hconfig : forall m,
             PrismaConfig.configOf m =
             match m with
             | PrismaConfig.JObject fields =>
                 match PrismaConfig.lookupField "default" fields with
                 | Some PrismaConfig.JUndefined | None => m
                 | Some defaultExport => defaultExport
                 end
             | _ => m
             end).
  { intros m. unfold PrismaConfig.configOf.
    destruct m as [| | | | | | items | fields]; try reflexivity. simpl.
    destruct (PrismaConfig.lookupField "default" fields) as [d |]; simpl;
      [| reflexivity].
    destruct d; reflexivity. }
  destruct (PrismaConfig.existsSync loader (PrismaConfig.CONFIG_PATH path));
    simpl; [| split; [discriminate | intros [H _]; discriminate H]].
  destruct (PrismaConfig.importModule loader (PrismaConfig.CONFIG_PATH path))
    as [m | e]; [| split; [discriminate | intros (_ & m & H & _); discriminate H]].
  rewrite Hconfig. set (config := match m with PrismaConfig.JObject _ => _ | _ => _ end).
  split.
  - destruct (PrismaConfig.isValidPrismaConfig config) eqn:Hvalid; simpl;
      [| discriminate].
    destruct (PrismaConfig.getProperty "url"
                (PrismaConfig.getProperty "datasource" config)) as [| | | | s | | |]
      eqn:Hurl; try discriminate.
    destruct (Nat.eqb_spec (String.length s) 0) as [Hlen | Hlen]; [discriminate |].
    destruct (PrismaConfig.urlParses loader s) eqn:Hparse; simpl; [| discriminate].
    intros [= <-]. split; [reflexivity |]. exists m. repeat split; auto.
    intros ->. apply Hlen. reflexivity.
  - intros (_ & m' & [= <-] & Hvalid & Hurl & Hne & Hparse).
    fold config in Hvalid, Hurl. rewrite Hvalid, Hurl. simpl.
    destruct (Nat.eqb_spec (String.length u) 0) as [Hlen | Hlen].
    + destruct u; [contradiction | discriminate Hlen].
    + rewrite Hparse. reflexivity.
Qed.

Lemma readDatabaseUrlFromPrismaConfig_returns_witness :
  PrismaConfig.readDatabaseUrlFromPrismaConfig Sim.path Examples.loader
    = Ok "postgresql://y".
Proof.
  apply (readDatabaseUrlFromPrismaConfig_returns Sim.path Examples.loader).
  split; [reflexivity |]. exists Examples.configModule.
  repeat split; [discriminate].
Defined.

(* ===================================================================== *)
(** * readDataSourceConfig                                                *)
(* ===================================================================== *)

Section ResolverFacts.

Import Resolver.

Variable readStringArgument : SchemaArgument -> Result string.
Variable env : gmap string string.


Variable isSupportedDatasourceProvider : Text -> bool.
Variable SUPPORTED_DATASOURCE_PROVIDERS : list string.
Variable inheritedText : string -> string.

Local Abbreviation resolveWith fallback :=
  (resolveDataSource readStringArgument env isSupportedDatasourceProvider
     SUPPORTED_DATASOURCE_PROVIDERS inheritedText fallback).
Local Abbreviation readArgument :=
  (DataSource.readArgumentWithEnv readStringArgument env).

(** What a returned data source is made of. *)
Lemma resolveDataSource_ok fallback ast dataSource :
  resolveWith fallback ast = Ok dataSource ->
  isSupportedDatasourceProvider (provider dataSource) = true /\
  exists kind name members providerDeclaration,
    find isDatasource (declarations ast) = Some (ConfigBlock kind name members) /\
    findConfig "provider" members = Some providerDeclaration /\
    readArgument (config_value providerDeclaration) = Ok (provider dataSource) /\
    match findConfig "url" members with
    | Some urlDeclaration =>
        readArgument (config_value urlDeclaration) = Ok (url dataSource)
    | None =>
        exists DATASOURCE_URL,
          fallback = Ok DATASOURCE_URL /\ url dataSource = Str DATASOURCE_URL
    end.
Proof.
  unfold resolveDataSource.
  destruct (find isDatasource (declarations ast)) as [[kind name members |] |];
    try discriminate.
  destruct (findConfig "provider" members) as [pc |] eqn:Hpc; [| discriminate].
  destruct (readArgument (config_value pc)) as [p |] eqn:Hp; [| discriminate].
  destruct (findConfig "url" members) as [uc |] eqn:Huc.
  - destruct (readArgument (config_value uc)) as [u |] eqn:Hu; [| discriminate].
    destruct (isSupportedDatasourceProvider p) eqn:Hs; [| discriminate].
    intros [= <-]. simpl. split; [exact Hs |]. exists kind, name, members, pc.
    rewrite Huc. auto.
  - destruct fallback as [u |]; [| discriminate].
    destruct (isSupportedDatasourceProvider p) eqn:Hs; [| discriminate].
    intros [= <-]. simpl. split; [exact Hs |]. exists kind, name, members, pc.
    rewrite Huc. eauto 6.
Qed.

End ResolverFacts.

(** X13.  A data source returned by [readDataSourceConfig] has a supported
    provider; provider and url are what the [provider] and [url] fields of
    the first datasource block of the parsed schema resolve to, the url being
    the one of the external config module when the block has no [url]
    field. *)
Theorem readDataSourceConfig_returns :
  forall (path : PathModule) (fs : Resolver.FileSystem)
         (parsePrismaSchema : string -> Result PrismaSchema)
         (readStringArgument : SchemaArgument -> Result string)
         (env : gmap string string)
         (isSupportedDatasourceProvider : Text -> bool)
         (SUPPORTED_DATASOURCE_PROVIDERS : list string)
         (inheritedText : string -> string)
         (prismaConfigUrl : Result string)
         (schemaPath : string) (dataSource : DataSourceConfig),
    Resolver.readDataSourceConfig path fs parsePrismaSchema readStringArgument
        env isSupportedDatasourceProvider SUPPORTED_DATASOURCE_PROVIDERS
        inheritedText prismaConfigUrl schemaPath = Ok dataSource ->
    isSupportedDatasourceProvider (provider dataSource) = true /\
    exists schemaContent schemaAst kind name members providerDeclaration,
      Resolver.readSchemaContent path fs schemaPath = Ok schemaContent /\
      parsePrismaSchema schemaContent = Ok schemaAst /\
      find Resolver.isDatasource (declarations schemaAst)
        = Some (ConfigBlock kind name members) /\
      Resolver.findConfig "provider" members = Some providerDeclaration /\
      DataSource.readArgumentWithEnv readStringArgument env
        (config_value providerDeclaration) = Ok (provider dataSource) /\
      match Resolver.findConfig "url" members with
      | Some urlDeclaration =>
          DataSource.readArgumentWithEnv readStringArgument env
            (config_value urlDeclaration) = Ok (url dataSource)
      | None =>
          exists DATASOURCE_URL,
            prismaConfigUrl = Ok DATASOURCE_URL /\
            url dataSource = Str DATASOURCE_URL
      end.
Proof.
  intros path fs parse rsa env supported list text fallback schemaPath ds.
  unfold Resolver.readDataSourceConfig.
  destruct (Resolver.readSchemaContent path fs schemaPath) as [content |];
    [| discriminate].
  destruct (parse content) as [ast |] eqn:Hparse; [| discriminate].
  intros Hok. apply resolveDataSource_ok in Hok
    as (Hs & kind & name & members & pc & Hfind & Hpc & Hp & Hu).
  split; [exact Hs |]. exists content, ast, kind, name, members, pc.
  split; [reflexivity |]. repeat (split; [assumption |]). exact Hu.
Qed.

Lemma readDataSourceConfig_returns_witness :
  let fs := {| Resolver.statSync_isDirectory := fun _ => Ok false;
               Resolver.readdirSync := fun _ => Ok [];
               Resolver.readFileSync := fun _ => Ok "schema" |} in
  let parse (_ : string) :=
    Ok (Examples.datasourceBlock [Examples.providerMember]) in
  exists dataSource,
    Resolver.readDataSourceConfig Sim.path fs parse Sim.readStringArgument
      Examples.env Examples.isSupported ["postgresql"; "mysql"]
      Examples.inheritedText
      (Ok "postgresql://y") "prisma/schema.prisma" = Ok dataSource /\
    Examples.isSupported (provider dataSource) = true /\
    url dataSource = Str "postgresql://y".
Proof.
  intros fs parse.
  destruct (Resolver.readDataSourceConfig Sim.path fs parse Sim.readStringArgument
              Examples.env Examples.isSupported ["postgresql"; "mysql"]
              Examples.inheritedText
              (Ok "postgresql://y") "prisma/schema.prisma")
    as [dataSource |] eqn:Hok; [| vm_compute in Hok; discriminate Hok].
  exists dataSource. split; [reflexivity |].
  destruct (readDataSourceConfig_returns _ _ _ _ _ _ _ _ _ _ _ Hok)
    as (Hs & _).
  split; [exact Hs |]. vm_compute in Hok. injection Hok as <-. reflexivity.
Defined.

(** X14.  The external config module is consulted exactly when the first
    datasource block has no [url] field and its provider resolved.  With a
    [url] field the result does not depend on the module; without one, a
    failure of the module is the failure of the resolution, also for a
    provider that is not supported. *)
Theorem prisma_config_is_a_fallback :
  forall (readStringArgument : SchemaArgument -> Result string)
         (env : gmap string string)
         (isSupportedDatasourceProvider : Text -> bool)
         (SUPPORTED_DATASOURCE_PROVIDERS : list string)
         (inheritedText : string -> string)
         (schemaAst : PrismaSchema) (kind : ConfigBlockKind) (name : string)
         (members : list BlockMember),
    find Resolver.isDatasource (declarations schemaAst)
      = Some (ConfigBlock kind name members) ->
    let resolveWith :=
      Resolver.resolveDataSource readStringArgument env
        isSupportedDatasourceProvider SUPPORTED_DATASOURCE_PROVIDERS
        inheritedText in
    (forall urlDeclaration,
        Resolver.findConfig "url" members = Some urlDeclaration ->
        forall first second : Result string,
          resolveWith first schemaAst = resolveWith second schemaAst) /\
    (Resolver.findConfig "url" members = None ->
     forall providerDeclaration providerName e,
       Resolver.findConfig "provider" members = Some providerDeclaration ->
       DataSource.readArgumentWithEnv readStringArgument env
         (config_value providerDeclaration) = Ok providerName ->
       resolveWith (Err e) schemaAst = Err e).
Proof.
  intros rsa env supported list text ast kind name members Hfind resolveWith.
  unfold resolveWith, Resolver.resolveDataSource. rewrite Hfind. split.
  - intros uc Huc first second. rewrite Huc. reflexivity.
  - intros Hnone pc p e Hpc Hp. rewrite Hpc, Hp, Hnone. reflexivity.
Qed.

Lemma prisma_config_is_a_fallback_witness :
  Examples.resolve (Err (JsError "prisma.config.ts not found"))
      (Examples.datasourceBlock [Examples.providerMember; Examples.urlFromEnv])
    = Examples.resolve (Ok "postgresql://y")
        (Examples.datasourceBlock [Examples.providerMember; Examples.urlFromEnv]) /\
  Examples.resolve (Err (JsError "prisma.config.ts not found"))
      (Examples.datasourceBlock [Examples.providerMember])
    = Err (JsError "prisma.config.ts not found").
Proof.
  pose proof (prisma_config_is_a_fallback Sim.readStringArgument Examples.env
                Examples.isSupported ["postgresql"; "mysql"]
                Examples.inheritedText) as H.
  split.
  - destruct (H (Examples.datasourceBlock
                   [Examples.providerMember; Examples.urlFromEnv])
                KDatasource "db" [Examples.providerMember; Examples.urlFromEnv]
                eq_refl) as [Hurl _].
    eapply Hurl. reflexivity.
  - destruct (H (Examples.datasourceBlock [Examples.providerMember])
                KDatasource "db" [Examples.providerMember] eq_refl) as [_ Hnone].
    eapply (Hnone eq_refl); reflexivity.
Defined.



Lemma isValidPrismaConfig_accepts_exactly_witness :
  PrismaConfig.isValidPrismaConfig
    (PrismaConfig.JObject
       [("datasource",
         PrismaConfig.JObject [("url", PrismaConfig.JString "postgresql://y")])])
  = true.
Proof.
  apply isValidPrismaConfig_accepts_exactly.
  eexists _, _, _. repeat split.
Defined.

(* ===================================================================== *)
(** * init                                                                *)
(* ===================================================================== *)

(** X16.  [init] never overwrites: on an existing config file it throws and
    leaves every file as it was.  Otherwise it writes the default config to
    that path only, after which a second [init] throws and leaves the written
    file in place. *)
Theorem init_never_overwrites :
  forall (configFilePath defaultConfigText : string)
         (files : gmap string string),
    (forall content,
        files !! configFilePath = Some content ->
        Command.init configFilePath defaultConfigText files
          = (Err (JsError Command.configExistsMessage), files)) /\
    (files !! configFilePath = None ->
     exists files',
       Command.init configFilePath defaultConfigText files = (Ok tt, files') /\
       files' !! configFilePath = Some defaultConfigText /\
       (forall other, other <> configFilePath -> files' !! other = files !! other) /\
       forall text,
         Command.init configFilePath text files'
           = (Err (JsError Command.configExistsMessage), files')).
Proof.
  intros p text files. unfold Command.init. split.
  - intros content ->. reflexivity.
  - intros ->. exists (<[p := text]> files). split; [reflexivity |].
    split; [apply lookup_insert_eq |]. split.
    + intros other Hother. apply lookup_insert_ne. congruence.
    + intros text'. rewrite lookup_insert_eq. reflexivity.
Qed.

Lemma init_never_overwrites_witness :
  let files : gmap string string := {[ "/app/prisma-dm.config.json" := "{}" ]} in
  Command.init "/app/prisma-dm.config.json" "{ }" files
    = (Err (JsError "Config file already exists"), files) /\
  exists files',
    Command.init "/app/prisma-dm.config.json" "{ }" ∅ = (Ok tt, files') /\
    files' !! "/app/prisma-dm.config.json" = Some "{ }".
Proof.
  intros files. split.
  - apply (proj1 (init_never_overwrites "/app/prisma-dm.config.json" "{ }" files)
             "{}").
    vm_compute. reflexivity.
  - assert (Hfree : (∅ : gmap string string) !! "/app/prisma-dm.config.json" = None)
      by (vm_compute; reflexivity).
    destruct (proj2 (init_never_overwrites "/app/prisma-dm.config.json" "{ }"
                       (∅ : gmap string string)) Hfree)
      as (files' & Hinit & Hfile & _).
    exists files'. auto.
Defined.

(* ===================================================================== *)
(** * mergeSchema                                                         *)
(* ===================================================================== *)

Section MergeFacts.

Import MergeSchema.

Variable path : PathModule.
Variable path_basename : string -> string.

(** Induction on a node with the statement available for the entries of a
    directory that can be listed. *)
Lemma FsNode_nested_ind (P : FsNode -> Prop) :
  (forall content, P (FsFile content)) ->
  P FsOther ->
  (forall e, P (FsFailing e)) ->
  (forall e, P (FsDirectory (Err e))) ->
  (forall entries, Forall (fun entry => P entry.2) entries ->
                   P (FsDirectory (Ok entries))) ->
  forall node, P node.
Proof.
  intros Hfile Hother Hfailing Hunlisted Hdir. fix IH 1.
  intros [content | [entries | e] | | e].
  - apply Hfile.
  - apply Hdir. induction entries as [| [item node] entries IHentries].
    + constructor.
    + constructor; [apply IH | exact IHentries].
  - apply Hunlisted.
  - apply Hother.
  - apply Hfailing.
Qed.

Lemma visit_directory item fullPath listing :
  visit path item fullPath (FsDirectory listing)
    = getPrismaFilesFromDir path fullPath listing.
Proof.
  destruct listing as [entries | e]; [| reflexivity]. simpl.
  induction entries as [| [i n] es IH]; simpl; [reflexivity |].
  rewrite IH. reflexivity.
Qed.

Lemma accessible_directory entries :
  accessible (FsDirectory (Ok entries)) = allAccessible entries.
Proof.
  unfold allAccessible. simpl.
  induction entries as [| [i n] es IH]; simpl; [reflexivity |].
  rewrite IH. reflexivity.
Qed.

Lemma filesBelow_directory item fullPath entries :
  filesBelow path item fullPath (FsDirectory (Ok entries))
    = filesIn path fullPath entries.
Proof.
  unfold filesIn. simpl.
  induction entries as [| [i n] es IH]; simpl; [reflexivity |].
  rewrite IH. reflexivity.
Qed.

Lemma forEachItem_walked dirPath entries :
  Forall (fun entry =>
            forall item fullPath,
              walked (visit path item fullPath entry.2) (accessible entry.2)
                     (filesBelow path item fullPath entry.2)) entries ->
  walked (forEachItem path dirPath entries) (allAccessible entries)
         (filesIn path dirPath entries).
Proof.
  unfold allAccessible, filesIn.
  induction 1 as [| [i n] es Hn _ IHes]; simpl; [split; reflexivity |].
  specialize (Hn i (path_join path dirPath i)). simpl in Hn.
  unfold walked in *.
  destruct (visit path i (path_join path dirPath i) n) as [found | e].
  - destruct Hn as [-> ->]. simpl.
    destruct (forEachItem path dirPath es) as [more | e].
    + destruct IHes as [-> ->]. split; [reflexivity |].
      rewrite List.filter_app, map_app. reflexivity.
    + exact IHes.
  - rewrite Hn. reflexivity.
Qed.

Lemma visit_walked node :
  forall item fullPath,
    walked (visit path item fullPath node) (accessible node)
           (filesBelow path item fullPath node).
Proof.
  induction node as [content | | e | e | entries IH] using FsNode_nested_ind;
    intros item fullPath.
  - simpl. unfold isPrismaEntry. simpl.
    destruct (Resolver.endsWith item ".prisma"); split; reflexivity.
  - split; reflexivity.
  - reflexivity.
  - reflexivity.
  - rewrite visit_directory, accessible_directory, filesBelow_directory.
    apply forEachItem_walked. exact IH.
Qed.

Lemma getPrismaFilesFromDir_walked dirPath entries :
  walked (getPrismaFilesFromDir path dirPath (Ok entries))
         (allAccessible entries) (filesIn path dirPath entries).
Proof.
  apply forEachItem_walked. apply List.Forall_forall.
  intros entry _ item fullPath. apply visit_walked.
Qed.

(** The walk over the entries before a failing one does not hide the
    failure. *)
Lemma forEachItem_app dirPath before after :
  forEachItem path dirPath (before ++ after) =
    match forEachItem path dirPath before with
    | Err e => Err e
    | Ok found =>
        match forEachItem path dirPath after with
        | Err e => Err e
        | Ok more => Ok (found ++ more)
        end
    end.
Proof.
  induction before as [| [i n] before IH]; simpl.
  - destruct (forEachItem path dirPath after); reflexivity.
  - destruct (visit path i (path_join path dirPath i) n) as [found | e];
      [| reflexivity].
    rewrite IH. destruct (forEachItem path dirPath before) as [more | e];
      [| reflexivity].
    destruct (forEachItem path dirPath after) as [rest | e]; [| reflexivity].
    rewrite app_assoc. reflexivity.
Qed.

Lemma forEachItem_first_failure dirPath before item node after e :
  allAccessible before = true ->
  visit path item (path_join path dirPath item) node = Err e ->
  forEachItem path dirPath (before ++ (item, node) :: after) = Err e.
Proof.
  intros Hbefore Hnode. rewrite forEachItem_app.
  pose proof (getPrismaFilesFromDir_walked dirPath before) as Hwalk.
  unfold walked, getPrismaFilesFromDir in Hwalk.
  destruct (forEachItem path dirPath before) as [found | e'];
    [| congruence].
  simpl. rewrite Hnode. reflexivity.
Qed.

(** The files listed are the regular files the directory reaches. *)
Lemma filesBelow_reaches node :
  forall item fullPath i p c,
    In (i, p, c) (filesBelow path item fullPath node) ->
    (node = FsFile c /\ i = item /\ p = fullPath) \/
    (exists entries,
        node = FsDirectory (Ok entries) /\
        reaches path fullPath entries i p (FsFile c)).
Proof.
  induction node as [content | | e | e | entries IH] using FsNode_nested_ind;
    intros item fullPath i p c Hin; try contradiction.
  - left. destruct Hin as [[= <- <- <-] | []]. auto.
  - right. exists entries. split; [reflexivity |].
    rewrite filesBelow_directory in Hin. unfold filesIn in Hin.
    apply in_flat_map in Hin as ([sub node] & Hentry & Hin).
    pose proof (proj1 (List.Forall_forall _ _) IH _ Hentry) as Hnode.
    simpl in Hnode.
    destruct (Hnode _ _ _ _ _ Hin) as [(-> & -> & ->) | (es & -> & Hreach)].
    + apply reaches_entry. exact Hentry.
    + eapply reaches_below; eassumption.
Qed.

Lemma filesIn_reaches dirPath entries i p c :
  In (i, p, c) (filesIn path dirPath entries) <->
  reaches path dirPath entries i p (FsFile c).
Proof.
  split.
  - intros Hin.
    rewrite <- (filesBelow_directory "" dirPath) in Hin.
    apply filesBelow_reaches in Hin as [(H & _) | (es & [= <-] & H)];
      [discriminate H | exact H].
  - intros Hreach. remember (FsFile c) as node eqn:Hnode.
    induction Hreach as [dirPath entries item node Hentry
                        | dirPath entries sub subEntries item fullPath node
                            Hentry _ IH]; subst node; unfold filesIn.
    + apply in_flat_map. exists (item, FsFile c). split; [exact Hentry |].
      simpl. auto.
    + apply in_flat_map. exists (sub, FsDirectory (Ok subEntries)).
      split; [exact Hentry |]. rewrite filesBelow_directory. apply IH.
      reflexivity.
Qed.

Lemma string_app_assoc (a b c : string) : (a +:+ b) +:+ c = a +:+ (b +:+ c).
Proof.
  induction a as [| ch a IH]; [reflexivity |].
  change (String ch ((a +:+ b) +:+ c) = String ch (a +:+ (b +:+ c))).
  f_equal. exact IH.
Qed.

Lemma string_app_empty_r (a : string) : a +:+ "" = a.
Proof.
  induction a as [| ch a IH]; [reflexivity |].
  change (String ch (a +:+ "") = String ch a). f_equal. exact IH.
Qed.

(** With distinct paths, reading the path of a listed file gives what
    reading that file gives. *)
Lemma readFileSync_listed (files : list (string * string * Result string))
      item file content :
  List.NoDup (map entryPath files) ->
  In (item, file, content) files ->
  readFileSync files file = content.
Proof.
  unfold readFileSync.
  induction files as [| [[i p] c] files IH]; simpl; [contradiction |].
  intros Hnodup Hin. apply NoDup_cons_iff in Hnodup as [Hfresh Hnodup].
  fold (entryPath (i, p, c)) in Hfresh. unfold entryPath at 1 in Hfresh.
  simpl in Hfresh.
  destruct Hin as [[= -> -> ->] | Hin].
  - rewrite String.eqb_refl. reflexivity.
  - destruct (String.eqb_spec p file) as [-> | _]; [| exact (IH Hnodup Hin)].
    exfalso. apply Hfresh. apply in_map_iff.
    exists (item, file, content). auto.
Qed.

Lemma appendSections_listed files selected merged :
  List.NoDup (map entryPath files) ->
  Forall (fun file => In file files) selected ->
  forallb isReadable selected = true ->
  appendSections path_basename files (map entryPath selected) merged
    = Ok (merged +:+ String.concat "" (map (sectionOf path_basename) selected)).
Proof.
  intros Hnodup Hsel. revert merged.
  induction Hsel as [| [[i p] c] selected Hin _ IH]; intros merged; simpl.
  - intros _. rewrite string_app_empty_r. reflexivity.
  - unfold isReadable at 1. simpl. intros Hread.
    apply andb_true_iff in Hread as [Hc Hread].
    destruct c as [content | e]; [| discriminate Hc].
    unfold entryPath at 1. simpl.
    rewrite (readFileSync_listed files i p _ Hnodup Hin), (IH _ Hread).
    rewrite string_app_assoc. f_equal. f_equal.
    unfold sectionOf at 2, entryPath. simpl.
    destruct selected; simpl; [rewrite string_app_empty_r |]; reflexivity.
Qed.

Lemma appendSections_unreadable files selected merged :
  List.NoDup (map entryPath files) ->
  Forall (fun file => In file files) selected ->
  forallb isReadable selected = false ->
  exists e,
    appendSections path_basename files (map entryPath selected) merged = Err e /\
    In (Err e) (map (fun file => file.2) selected).
Proof.
  intros Hnodup Hsel. revert merged.
  induction Hsel as [| [[i p] c] selected Hin _ IH]; intros merged; simpl;
    [discriminate |].
  unfold isReadable at 1, entryPath at 1. simpl.
  rewrite (readFileSync_listed files i p _ Hnodup Hin).
  destruct c as [content | e]; simpl.
  - intros Hread.
    destruct (IH (merged +:+ fileSection path_basename p content) Hread)
      as (e & He & Hin').
    exists e. split; [exact He | right; exact Hin'].
  - intros _. exists e. split; [reflexivity | left; reflexivity].
Qed.

End MergeFacts.

(** X17.  [getPrismaFilesFromDir] returns exactly when [statSync] and
    [readdirSync] return on every entry below the directory.  It then
    returns, in the order of the walk, the paths of the regular files below
    the directory whose own name ends with [.prisma]: a path is returned if
    and only if it is the path of such a file in the directory or in a
    directory below it, whatever the names of the directories.  When the
    entries before a dangling link, or before a directory that cannot be
    listed, are fine, the error of that entry is the error of the walk,
    whatever comes after it. *)
Theorem getPrismaFilesFromDir_lists_prisma_files :
  forall (path : PathModule) (dirPath : string)
         (entries : list (string * MergeSchema.FsNode)),
    let result := MergeSchema.getPrismaFilesFromDir path dirPath (Ok entries) in
    is_ok result = MergeSchema.allAccessible entries /\
    (forall prismaFiles,
        result = Ok prismaFiles ->
        prismaFiles
          = map MergeSchema.entryPath
              (List.filter MergeSchema.isPrismaEntry
                 (MergeSchema.filesIn path dirPath entries)) /\
        forall file,
          In file prismaFiles <->
          exists item content,
            MergeSchema.reaches path dirPath entries item file
              (MergeSchema.FsFile content) /\
            Resolver.endsWith item ".prisma" = true) /\
    (forall before item node after e,
        entries = before ++ (item, node) :: after ->
        MergeSchema.allAccessible before = true ->
        node = MergeSchema.FsFailing e \/
        node = MergeSchema.FsDirectory (Err e) ->
        result = Err e) /\
    (forall e, MergeSchema.getPrismaFilesFromDir path dirPath (Err e) = Err e).
Proof.
  intros path dirPath entries result.
  pose proof (getPrismaFilesFromDir_walked path dirPath entries) as Hwalk.
  fold result in Hwalk. unfold MergeSchema.walked in Hwalk.
  split; [| split; [| split]].
  - destruct result as [found | e]; simpl; [destruct Hwalk |]; congruence.
  - intros prismaFiles Hok. rewrite Hok in Hwalk. destruct Hwalk as [_ ->].
    split; [reflexivity |]. intros file. rewrite in_map_iff. split.
    + intros ([[item p] content] & <- & Hin).
      apply filter_In in Hin as [Hin Hprisma].
      exists item, content. split; [| exact Hprisma].
      apply filesIn_reaches. exact Hin.
    + intros (item & content & Hreach & Hprisma).
      exists (item, file, content). split; [reflexivity |].
      apply filter_In. split; [| exact Hprisma].
      apply filesIn_reaches. exact Hreach.
  - intros before item node after e -> Hbefore Hnode.
    apply forEachItem_first_failure; [exact Hbefore |].
    destruct Hnode as [-> | ->]; reflexivity.
  - reflexivity.
Qed.

Lemma getPrismaFilesFromDir_lists_prisma_files_witness :
  MergeSchema.getPrismaFilesFromDir Sim.path "/app/prisma/schema"
      (Ok Examples.schemaFolder)
    = Ok ["/app/prisma/schema/a.prisma"; "/app/prisma/schema/models/b.prisma"] /\
  MergeSchema.getPrismaFilesFromDir Sim.path "/app/prisma/schema"
      (Ok Examples.brokenFolder)
    = Err Examples.danglingLinkError.
Proof.
  split.
  - destruct (MergeSchema.getPrismaFilesFromDir Sim.path "/app/prisma/schema"
                (Ok Examples.schemaFolder)) as [prismaFiles |] eqn:Hok;
      [| vm_compute in Hok; discriminate Hok].
    destruct (proj1 (proj2 (getPrismaFilesFromDir_lists_prisma_files Sim.path
                              "/app/prisma/schema" Examples.schemaFolder))
                prismaFiles Hok) as [-> _].
    vm_compute. reflexivity.
  - apply (proj1 (proj2 (proj2 (getPrismaFilesFromDir_lists_prisma_files
                                  Sim.path "/app/prisma/schema"
                                  Examples.brokenFolder)))
             [("a.prisma", MergeSchema.FsFile (Ok "model A {}"))]
             "link.prisma" (MergeSchema.FsFailing Examples.danglingLinkError)
             [("b.prisma", MergeSchema.FsFile (Ok "model B {}"))]).
    + reflexivity.
    + reflexivity.
    + left. reflexivity.
Defined.

(** X18.  [mergeSchema] ends in one of three ways: it throws after its
    first log line, with nothing written; or it makes one write, to the
    output path, which throws, and the error of the write is the error of the
    run; or the write returns and only then the second line is logged.  It
    throws before the write when the schema folder cannot be listed, when a
    call of the walk throws, or when a [.prisma] file of the folder cannot be
    read.  Otherwise, on a folder whose files have distinct paths, the text
    written is the sequence of the sections (a [//--- name ---] header line,
    the content, a line feed) of the [.prisma] files of the folder in the
    order of the walk, the empty text when there is no such file. *)
Theorem mergeSchema_writes_the_sections :
  forall (path : PathModule) (path_basename : string -> string)
         (writeFileSync : string -> string -> Result unit)
         (rawSchemaFolderPath outputPath : string)
         (listing : Result (list (string * MergeSchema.FsNode))),
    let run :=
      MergeSchema.mergeSchema path path_basename writeFileSync
        rawSchemaFolderPath outputPath listing in
    let written mergedSchema :=
      match writeFileSync outputPath mergedSchema with
      | Ok u =>
          (Ok tt,
           [ MergeSchema.ELogInfo "Merging schema files";
             MergeSchema.EWriteFile outputPath mergedSchema (Ok u);
             MergeSchema.ELogInfo "Schema files merged" ])
      | Err e =>
          (Err e,
           [ MergeSchema.ELogInfo "Merging schema files";
             MergeSchema.EWriteFile outputPath mergedSchema (Err e) ])
      end in
    let failed e := (Err e, [MergeSchema.ELogInfo "Merging schema files"]) in
    ((exists e, run = failed e) \/ (exists mergedSchema, run = written mergedSchema)) /\
    (forall e, listing = Err e -> run = failed e) /\
    (forall entries,
        listing = Ok entries ->
        let listed :=
          MergeSchema.filesIn path
            (path_join path (process_cwd path) rawSchemaFolderPath) entries in
        let prisma := List.filter MergeSchema.isPrismaEntry listed in
        (MergeSchema.allAccessible entries = false -> exists e, run = failed e) /\
        (MergeSchema.allAccessible entries = true ->
         List.NoDup (map MergeSchema.entryPath listed) ->
         (forallb MergeSchema.isReadable prisma = true ->
          run = written (String.concat ""
                           (map (MergeSchema.sectionOf path_basename) prisma))) /\
         (forallb MergeSchema.isReadable prisma = false ->
          exists e, run = failed e /\
                    In (Err e) (map (fun file => file.2) prisma)))).
Proof.
  intros path basename write raw out listing run written failed.
  split; [| split].
  - subst run. unfold MergeSchema.mergeSchema.
    destruct (MergeSchema.getPrismaFilesFromDir path _ listing) as [files | e];
      [| left; eauto].
    destruct (MergeSchema.appendSections basename _ files "") as [merged | e];
      [| left; eauto].
    right. exists merged. unfold written. destruct (write out merged); reflexivity.
  - intros e ->. reflexivity.
  - intros entries -> listed prisma.
    pose proof (getPrismaFilesFromDir_walked path
                  (path_join path (process_cwd path) raw) entries) as Hwalk.
    unfold MergeSchema.walked in Hwalk. fold listed in Hwalk. fold prisma in Hwalk.
    subst run. unfold MergeSchema.mergeSchema.
    destruct (MergeSchema.getPrismaFilesFromDir path _ (Ok entries))
      as [files | e].
    + destruct Hwalk as [Hacc ->]. split; [congruence |].
      intros _ Hnodup. fold listed.
      assert (Hsel : Forall (fun file => In file listed) prisma).
      { apply List.Forall_forall. intros file Hin.
        apply filter_In in Hin as [Hin _]. exact Hin. }
      split; intros Hread.
      * rewrite (appendSections_listed basename listed prisma "" Hnodup Hsel Hread).
        unfold written. simpl.
        destruct (write out _); reflexivity.
      * destruct (appendSections_unreadable basename listed prisma "" Hnodup
                    Hsel Hread) as (e & -> & Hin).
        exists e. split; [reflexivity | exact Hin].
    + split; [eauto | congruence].
Qed.

Lemma mergeSchema_writes_the_sections_witness :
  MergeSchema.mergeSchema Sim.path Examples.basename Examples.writeOk
      "prisma/schema" "prisma/schema.prisma" (Ok Examples.schemaFolder)
    = (Ok tt,
       [ MergeSchema.ELogInfo "Merging schema files";
         MergeSchema.EWriteFile "prisma/schema.prisma"
           ("//--- a.prisma ---" +:+ Resolver.newline +:+
            "model A {}" +:+ Resolver.newline +:+
            "//--- b.prisma ---" +:+ Resolver.newline +:+
            "model B {}" +:+ Resolver.newline) (Ok tt);
         MergeSchema.ELogInfo "Schema files merged" ]) /\
  exists e,
    MergeSchema.mergeSchema Sim.path Examples.basename Examples.writeOk
        "prisma/schema" "prisma/schema.prisma" (Ok Examples.brokenFolder)
      = (Err e, [MergeSchema.ELogInfo "Merging schema files"]).
Proof.
  split.
  - assert (Hnodup :
              List.NoDup
                (map MergeSchema.entryPath
                   (MergeSchema.filesIn Sim.path
                      (path_join Sim.path (process_cwd Sim.path) "prisma/schema")
                      Examples.schemaFolder))).
    { vm_compute. repeat constructor; simpl; intuition discriminate. }
    etransitivity.
    + exact (proj1 (proj2 (proj2 (proj2 (mergeSchema_writes_the_sections
                       Sim.path Examples.basename Examples.writeOk
                       "prisma/schema" "prisma/schema.prisma"
                       (Ok Examples.schemaFolder)))
                     Examples.schemaFolder eq_refl) eq_refl Hnodup) eq_refl).
    + vm_compute. reflexivity.
  - exact (proj1 (proj2 (proj2 (mergeSchema_writes_the_sections
                     Sim.path Examples.basename Examples.writeOk
                     "prisma/schema" "prisma/schema.prisma"
                     (Ok Examples.brokenFolder)))
                   Examples.brokenFolder eq_refl) eq_refl).
Defined.

(* ===================================================================== *)
(** * Reading the schema of a directory                                   *)
(* ===================================================================== *)

Lemma mapResult_ext {A B} (f g : A -> Result B) (l : list A) :
  (forall x, In x l -> f x = g x) ->
  Resolver.mapResult f l = Resolver.mapResult g l.
Proof.
  induction l as [| x l IH]; simpl; intros H; [reflexivity |].
  rewrite (H x) by auto. rewrite IH by auto. reflexivity.
Qed.

(** X19.  For a schema directory, [readDataSourceConfig] reads only the
    entries whose name ends with [.prisma]: two file systems that list the
    same entries and agree on those files give the same schema text, whatever
    the other entries hold. *)
Theorem readSchemaContent_reads_prisma_files_only :
  forall (path : PathModule) (fs fs' : Resolver.FileSystem)
         (schemaPath : string) (names : list string),
    Resolver.statSync_isDirectory fs schemaPath = Ok true ->
    Resolver.statSync_isDirectory fs' schemaPath = Ok true ->
    Resolver.readdirSync fs schemaPath = Ok names ->
    Resolver.readdirSync fs' schemaPath = Ok names ->
    (forall file,
        In file names -> Resolver.endsWith file ".prisma" = true ->
        Resolver.readFileSync fs (path_join path schemaPath file)
          = Resolver.readFileSync fs' (path_join path schemaPath file)) ->
    Resolver.readSchemaContent path fs schemaPath
      = Resolver.readSchemaContent path fs' schemaPath.
Proof.
  intros path fs fs' schemaPath names Hstat Hstat' Hdir Hdir' Hsame.
  unfold Resolver.readSchemaContent. rewrite Hstat, Hstat', Hdir, Hdir'.
  rewrite (mapResult_ext _
             (fun file => Resolver.readFileSync fs' (path_join path schemaPath file))).
  - reflexivity.
  - intros file Hin. apply filter_In in Hin as [Hin Hprisma]. auto.
Qed.

Lemma readSchemaContent_reads_prisma_files_only_witness :
  let listing (_ : string) : Result (list string) :=
    Ok ["a.prisma"; "README.md"; "b.prisma"] in
  let fs readme :=
    {| Resolver.statSync_isDirectory := fun _ => Ok true;
       Resolver.readdirSync := listing;
       Resolver.readFileSync := fun p =>
         if String.eqb p "prisma/schema/README.md" then readme
         else Ok ("// " +:+ p) |} in
  Resolver.readSchemaContent Sim.path (fs (Ok "notes")) "prisma/schema"
    = Resolver.readSchemaContent Sim.path
        (fs (Err (JsError "EACCES: permission denied"))) "prisma/schema".
Proof.
  intros listing fs.
  apply (readSchemaContent_reads_prisma_files_only Sim.path
           (fs (Ok "notes")) (fs (Err (JsError "EACCES: permission denied")))
           "prisma/schema" ["a.prisma"; "README.md"; "b.prisma"]
           eq_refl eq_refl eq_refl eq_refl).
  intros file [<- | [<- | [<- | []]]] Hprisma;
    try reflexivity; vm_compute in Hprisma; discriminate Hprisma.
Defined.

(* ===================================================================== *)
(** * Re-running and first runs                                           *)
(* ===================================================================== *)

Section Reruns.

Import Migrate Trace.

Context {W : Type}.
Variable C : Collaborators W.
Variable config : ConfigSchema.
Variable path : PathModule.

(** The row of a migration in a world whose history can always be read. *)
Variable row : W -> string -> option MigrationModel.

Hypothesis table_exists :
  forall w, db_isPrismaMigrationsTableExists C w = (Ok true, w).
Hypothesis read_row :
  forall w name, db_getMigrationByName C name w = (Ok (row w name), w).

Lemma loop_nothing_applied :
  (forall w name, exists w',
      migrator_migrateTo C name w = (Ok tt, w') /\
      appliedStepsCount (row w' name) = appliedStepsCount (row w name)) ->
  forall names w, exists w' tr,
    forEach (migrateOne C config path) names w = (Ok tt, w', tr) /\
    postScriptsRun tr = [] /\
    engineCalls tr = names.
Proof.
  intros Hengine names. induction names as [| name names IH]; intros w.
  - exists w, []. auto.
  - destruct (Hengine w name) as (w1 & Hadvance & Hsame).
    destruct (IH w1) as (w' & tr & Hrest & Hscripts & Hcalls).
    pose proof (migrateOne_sampled C config path name w true w (row w name) w w1
                  (row w1 name) w1 (table_exists w) (read_row w name) Hadvance
                  (read_row w1 name)) as Hone.
    replace (beforeSample true (row w name) + 1 =? appliedStepsCount (row w1 name))
      with false in Hone
      by (symmetry; apply Z.eqb_neq; unfold beforeSample; lia).
    exists w', (samplingWindow name true (row w name) (row w1 name) ++ tr).
    rewrite forEach_cons, (bind_ok _ _ _ _ _ _ Hone), Hrest.
    rewrite postScriptsRun_app, engineCalls_app, Hscripts, Hcalls. auto.
Qed.

Lemma loop_one_step_each :
  (forall w name, exists w',
      migrator_migrateTo C name w = (Ok tt, w') /\
      appliedStepsCount (row w' name) = appliedStepsCount (row w name) + 1) ->
  (forall w script, exists w',
      scriptRunner_runPostScript C script w = (Ok tt, w')) ->
  forall names w, exists w' tr,
    forEach (migrateOne C config path) names w = (Ok tt, w', tr) /\
    postScriptsRun tr = map (getMigrationPath config path) names.
Proof.
  intros Hengine Hrunner names. induction names as [| name names IH]; intros w.
  - exists w, []. auto.
  - destruct (Hengine w name) as (w1 & Hadvance & Hstep).
    destruct (Hrunner w1 (getMigrationPath config path name)) as (w2 & Hscript).
    destruct (IH w2) as (w' & tr & Hrest & Hscripts).
    pose proof (migrateOne_sampled C config path name w true w (row w name) w w1
                  (row w1 name) w1 (table_exists w) (read_row w name) Hadvance
                  (read_row w1 name)) as Hone.
    replace (beforeSample true (row w name) + 1 =? appliedStepsCount (row w1 name))
      with true in Hone
      by (symmetry; apply Z.eqb_eq; unfold beforeSample; lia).
    rewrite Hscript in Hone.
    eexists w', _.
    rewrite forEach_cons, (bind_ok _ _ _ _ _ _ Hone), Hrest.
    split; [reflexivity |].
    rewrite postScriptsRun_app, postScriptsRun_app, Hscripts. reflexivity.
Qed.

End Reruns.

(** X20.  Re-running is safe.  When the history table exists and every
    engine advance returns and leaves the recorded step count of its
    migration as it was (nothing left to apply), the loop over any
    post-script-bearing migrations returns, advances to each of them and runs
    no post-script. *)
Theorem rerun_runs_no_post_script :
  forall (W : Type) (C : Migrate.Collaborators W) (config : ConfigSchema)
         (path : PathModule) (row : W -> string -> option MigrationModel),
    (forall w, Migrate.db_isPrismaMigrationsTableExists C w = (Ok true, w)) ->
    (forall w name, Migrate.db_getMigrationByName C name w = (Ok (row w name), w)) ->
    (forall w name, exists w',
        Migrate.migrator_migrateTo C name w = (Ok tt, w') /\
        Migrate.appliedStepsCount (row w' name)
          = Migrate.appliedStepsCount (row w name)) ->
    forall (dataMigrations : list string) (w : W),
    exists w' tr,
      forEach (Migrate.migrateOne C config path) dataMigrations w = (Ok tt, w', tr) /\
      Trace.postScriptsRun tr = [] /\
      Migrate.engineCalls tr = dataMigrations.
Proof.
  intros W C config path row Htable Hrow Hengine.
  exact (loop_nothing_applied C config path row Htable Hrow Hengine).
Qed.

(** X21.  A first run runs every post-script.  When the history table exists,
    every engine advance returns having recorded exactly one more step for
    its migration, and every post-script returns, the loop runs the
    post-script of each post-script-bearing migration, once, in order. *)
Theorem first_run_runs_every_post_script :
  forall (W : Type) (C : Migrate.Collaborators W) (config : ConfigSchema)
         (path : PathModule) (row : W -> string -> option MigrationModel),
    (forall w, Migrate.db_isPrismaMigrationsTableExists C w = (Ok true, w)) ->
    (forall w name, Migrate.db_getMigrationByName C name w = (Ok (row w name), w)) ->
    (forall w name, exists w',
        Migrate.migrator_migrateTo C name w = (Ok tt, w') /\
        Migrate.appliedStepsCount (row w' name)
          = Migrate.appliedStepsCount (row w name) + 1) ->
    (forall w script, exists w',
        Migrate.scriptRunner_runPostScript C script w = (Ok tt, w')) ->
    forall (dataMigrations : list string) (w : W),
    exists w' tr,
      forEach (Migrate.migrateOne C config path) dataMigrations w = (Ok tt, w', tr) /\
      Trace.postScriptsRun tr
        = map (Migrate.getMigrationPath config path) dataMigrations.
Proof.
  intros W C config path row Htable Hrow Hengine Hrunner.
  exact (loop_one_step_each C config path row Htable Hrow Hengine Hrunner).
Qed.

Lemma stepping_row (step : Z) (w : gmap string Z) (name : string) :
  exists w',
    Migrate.migrator_migrateTo (Examples.stepping step) name w = (Ok tt, w') /\
    Migrate.appliedStepsCount (Examples.rowOf name w')
      = Migrate.appliedStepsCount (Examples.rowOf name w) + step.
Proof.
  eexists. split; [reflexivity |]. simpl. rewrite lookup_insert_eq. reflexivity.
Qed.

Lemma rerun_runs_no_post_script_witness :
  exists w' tr,
    forEach (Migrate.migrateOne (Examples.stepping 0) Sim.config Sim.path)
      ["002_add_col"; "004_backfill"] {[ "002_add_col" := 1 ]}
      = (Ok tt, w', tr) /\
    Trace.postScriptsRun tr = [] /\
    Migrate.engineCalls tr = ["002_add_col"; "004_backfill"].
Proof.
  apply (rerun_runs_no_post_script _ (Examples.stepping 0) Sim.config Sim.path
           (fun w name => Examples.rowOf name w)).
  - reflexivity.
  - reflexivity.
  - intros w name. destruct (stepping_row 0 w name) as (w' & Hrun & Hcount).
    exists w'. split; [exact Hrun | lia].
Defined.

Lemma first_run_runs_every_post_script_witness :
  exists w' tr,
    forEach (Migrate.migrateOne (Examples.stepping 1) Sim.config Sim.path)
      ["002_add_col"; "004_backfill"] ∅ = (Ok tt, w', tr) /\
    Trace.postScriptsRun tr
      = ["/app/prisma/migrations/002_add_col";
         "/app/prisma/migrations/004_backfill"].
Proof.
  apply (first_run_runs_every_post_script _ (Examples.stepping 1) Sim.config
           Sim.path (fun w name => Examples.rowOf name w)).
  - reflexivity.
  - reflexivity.
  - intros w name. exact (stepping_row 1 w name).
  - intros w script. exists w. reflexivity.
Defined.
